(** * Serial scale reader: line framing, telegram decoding, probing

    A shallow embedding of the TypeScript front ends of the repository
    (src/app/test.tsx, test2.tsx, test3.tsx, test4.tsx and their unnamed
    siblings).  JavaScript strings are sequences of UTF-16 code units, JavaScript
    numbers are IEEE-754 binary64 values, asynchronous functions are
    state-passing computations over an explicit world. *)

From Stdlib Require Import Ascii String.
From Stdlib Require Import List NArith ZArith Lia Bool.
From Stdlib Require Import Floats.
From Equations.Prop Require Import Equations.
Import ListNotations.

Set Warnings "-inexact-float".

(** ** JavaScript strings *)

Module JS.

(** A code unit, and a string as the list of its code units. *)
Definition char := N.
Definition jsstring := list char.

Definition char_of_ascii (a : ascii) : char := N_of_ascii a.

(** An ASCII literal as a JavaScript string. *)
Fixpoint js (s : string) : jsstring :=
  match s with
  | EmptyString => []
  | String a s' => char_of_ascii a :: js s'
  end.

Definition CR : char := 13%N.
Definition LF : char := 10%N.

Fixpoint eqb (s t : jsstring) : bool :=
  match s, t with
  | [], [] => true
  | a :: s', b :: t' => N.eqb a b && eqb s' t'
  | _, _ => false
  end.

(** [startsWith p s]: the code units of [p] are the first ones of [s]. *)
Fixpoint startsWith (p s : jsstring) : bool :=
  match p, s with
  | [], _ => true
  | _ :: _, [] => false
  | a :: p', b :: s' => N.eqb a b && startsWith p' s'
  end.

(** [String.prototype.indexOf]: the least index at which [sep] occurs. *)
Fixpoint indexOf (sep s : jsstring) : option nat :=
  if startsWith sep s then Some 0
  else match s with
       | [] => None
       | _ :: s' => option_map S (indexOf sep s')
       end.

(** [String.prototype.includes]. *)
Definition includes (s sub : jsstring) : bool :=
  match indexOf sub s with Some _ => true | None => false end.

Lemma eqb_eq s t : eqb s t = true <-> s = t.
Proof.
  revert t; induction s as [|a s IH]; intros [|b t]; simpl; split;
    try discriminate; try reflexivity.
  - intros H; apply andb_prop in H as [Hab Hst].
    apply N.eqb_eq in Hab; apply IH in Hst; congruence.
  - intros [= -> ->]. rewrite N.eqb_refl. simpl. now apply IH.
Qed.

Lemma startsWith_spec p s : startsWith p s = true <-> exists r, s = p ++ r.
Proof.
  revert s; induction p as [|a p IH]; intros s; simpl.
  - split; [intros _; now exists s | reflexivity].
  - destruct s as [|b s].
    + split; [discriminate | intros [r Hr]; discriminate].
    + split.
      * intros H; apply andb_prop in H as [Hab Hps].
        apply N.eqb_eq in Hab; apply IH in Hps as [r ->].
        exists r; now subst.
      * intros [r [= -> ->]]. rewrite N.eqb_refl; simpl.
        apply IH; now exists r.
Qed.

Lemma startsWith_length p s : startsWith p s = true -> length p <= length s.
Proof.
  intros H; apply startsWith_spec in H as [r ->].
  rewrite length_app; lia.
Qed.

(** Only the first [length p] code units of the subject are looked at. *)
Lemma startsWith_app p a b :
  length p <= length a -> startsWith p (a ++ b) = startsWith p a.
Proof.
  revert a; induction p as [|x p IH]; intros [|y a]; simpl; intros H;
    try reflexivity; try lia.
  rewrite IH by lia; reflexivity.
Qed.

Lemma indexOf_bound sep s i :
  indexOf sep s = Some i -> i + length sep <= length s.
Proof.
  revert i; induction s as [|c s IH]; intros i; simpl;
    destruct (startsWith sep _) eqn:E.
  - intros [= <-]. now apply startsWith_length in E.
  - discriminate.
  - intros [= <-]. now apply startsWith_length in E.
  - destruct (indexOf sep s) as [j|]; simpl; [|discriminate].
    intros [= <-]. specialize (IH j eq_refl). simpl; lia.
Qed.

(** An occurrence found in [a] is still the first one in [a ++ b]. *)
Lemma indexOf_app sep a b i :
  indexOf sep a = Some i -> indexOf sep (a ++ b) = Some i.
Proof.
  revert i; induction a as [|c a IH]; intros i.
  - simpl. destruct (startsWith sep []) eqn:E; [|discriminate].
    intros [= <-]. destruct sep; [|discriminate].
    destruct b; reflexivity.
  - intros H. pose proof (indexOf_bound _ _ _ H) as Hb.
    assert (Hlen : length sep <= length (c :: a)) by lia.
    simpl in H. change ((c :: a) ++ b) with (c :: (a ++ b)).
    cbn [indexOf].
    change (c :: (a ++ b)) with ((c :: a) ++ b) at 1.
    rewrite startsWith_app by exact Hlen.
    destruct (startsWith sep (c :: a)); [exact H|].
    destruct (indexOf sep a) as [j|]; [|discriminate].
    rewrite (IH j eq_refl). exact H.
Qed.

(** A value together with the proof that it is the one inspected. *)
Definition inspect {A : Type} (x : A) : {y : A | x = y} := exist _ x eq_refl.

(** [String.prototype.split] for a non-empty separator [c :: sep]: cut at the
    first occurrence, go on after it. *)
Equations? split_from (c : char) (sep : jsstring) (s : jsstring)
  : list jsstring by wf (length s) lt :=
  split_from c sep s with inspect (indexOf (c :: sep) s) := {
    | exist _ None _ => [s]
    | exist _ (Some i) H =>
        firstn i s :: split_from c sep (skipn (i + length (c :: sep)) s) }.
Proof.
  apply indexOf_bound in H. simpl in *. rewrite length_skipn. lia.
Qed.

(** [String.prototype.split(separator)] with a string separator and no limit.
    The empty separator splits into code units (and the empty string into no
    part at all). *)
Definition split (sep s : jsstring) : list jsstring :=
  match sep with
  | [] => map (fun c => [c]) s
  | c :: sep' => split_from c sep' s
  end.

(** [Array.prototype.join]. *)
Fixpoint join (sep : jsstring) (parts : list jsstring) : jsstring :=
  match parts with
  | [] => []
  | [p] => p
  | p :: ps => p ++ sep ++ join sep ps
  end.

Lemma split_from_eq c sep s :
  split_from c sep s =
  match indexOf (c :: sep) s with
  | None => [s]
  | Some i => firstn i s :: split_from c sep (skipn (i + length (c :: sep)) s)
  end.
Proof.
  rewrite split_from_equation_1. unfold split_from_unfold_clause_1.
  destruct (inspect (indexOf (c :: sep) s)) as [[i|] H]; rewrite H;
    reflexivity.
Qed.

Lemma split_from_nonempty c sep s : split_from c sep s <> [].
Proof.
  rewrite split_from_eq. destruct (indexOf (c :: sep) s); discriminate.
Qed.

Lemma split_nonempty_sep c sep s : split (c :: sep) s <> [].
Proof. apply split_from_nonempty. Qed.

(** Splitting a concatenation: the parts of [a] but the last are final, and
    the last part of [a] is continued by [b]. *)
Lemma split_from_app c sep a b :
  split_from c sep (a ++ b) =
  removelast (split_from c sep a) ++
  split_from c sep (last (split_from c sep a) [] ++ b).
Proof.
  remember (length a) as n eqn:Hn.
  revert a Hn; induction n as [n IH] using lt_wf_ind; intros a Hn.
  rewrite (split_from_eq c sep a).
  destruct (indexOf (c :: sep) a) as [i|] eqn:Hi.
  - pose proof (indexOf_bound _ _ _ Hi) as Hb.
    rewrite (split_from_eq c sep (a ++ b)), (indexOf_app _ _ b _ Hi).
    rewrite firstn_app, skipn_app.
    replace (i - length a) with 0 by (simpl in Hb; lia).
    replace (i + length (c :: sep) - length a) with 0 by lia.
    rewrite firstn_O, skipn_O, app_nil_r.
    set (a' := skipn (i + length (c :: sep)) a).
    assert (Hlt : length a' < n).
    { unfold a'. rewrite length_skipn. simpl in *. lia. }
    rewrite (IH _ Hlt a' eq_refl).
    pose proof (split_from_nonempty c sep a') as Hne.
    destruct (split_from c sep a') as [|p ps] eqn:Hs; [congruence|].
    reflexivity.
  - reflexivity.
Qed.

Lemma split_chars_app (a b : jsstring) :
  map (fun c => [c]) (a ++ b) =
  removelast (map (fun c => [c]) a) ++
  map (fun c => [c]) (last (map (fun c => [c]) a) [] ++ b).
Proof.
  induction a as [|x a IH]; [reflexivity|].
  destruct a as [|y a]; [reflexivity|].
  change (map (fun c => [c]) ((x :: y :: a) ++ b))
    with ([x] :: map (fun c : char => [c]) ((y :: a) ++ b)).
  rewrite IH. reflexivity.
Qed.

Lemma split_app sep a b :
  split sep (a ++ b) =
  removelast (split sep a) ++ split sep (last (split sep a) [] ++ b).
Proof.
  destruct sep as [|c sep]; [apply split_chars_app | apply split_from_app].
Qed.

End JS.

(** ** LineFramer: [makeLineTransformer] *)

Module LineFramer.
Import JS.

(** [Array.prototype.pop]: the last element ([None] for [undefined], on the
    empty array) and the array without it. *)
Fixpoint pop {A : Type} (l : list A) : option A * list A :=
  match l with
  | [] => (None, [])
  | [x] => (Some x, [])
  | x :: l' => let (r, rest) := pop l' in (r, x :: rest)
  end.

(** The closure returned by [makeLineTransformer]: the delimiter it was made
    for and its [buffer] variable. *)
Record LineTransformer := {
  delimiter : jsstring;
  buffer : jsstring
}.

Definition makeLineTransformer (delimiter : jsstring) : LineTransformer :=
  {| delimiter := delimiter; buffer := [] |}.

(** [transform(chunk, controller)]: the lines enqueued, in order, and the
    transformer afterwards. *)
Definition transform (chunk : jsstring) (t : LineTransformer)
  : list jsstring * LineTransformer :=
  let buffer0 := buffer t ++ chunk in
  let parts := split (delimiter t) buffer0 in
  let (popped, parts') := pop parts in
  let buffer1 := match popped with Some p => p | None => [] end in
  (parts', {| delimiter := delimiter t; buffer := buffer1 |}).

(** [flush(controller)]: a non-empty buffer is enqueued. *)
Definition flush (t : LineTransformer) : list jsstring :=
  match buffer t with
  | [] => []
  | _ :: _ => [buffer t]
  end.

(** The chunks of a stream go through [transform] in order. *)
Fixpoint feed (chunks : list jsstring) (t : LineTransformer)
  : list jsstring * LineTransformer :=
  match chunks with
  | [] => ([], t)
  | c :: cs =>
      let (out, t1) := transform c t in
      let (outs, t2) := feed cs t1 in
      (out ++ outs, t2)
  end.

(** A finite stream piped through the transformer: every chunk, then [flush]
    when the stream ends. *)
Definition pipeThrough (chunks : list jsstring) (t : LineTransformer)
  : list jsstring :=
  let (out, t1) := feed chunks t in out ++ flush t1.

(** The lines of a whole text, in the words of the specification: every
    segment that a delimiter ends, in order, then the tail if it is not
    empty. *)
Definition lines_of_text (D text : jsstring) : list jsstring :=
  let parts := split D text in
  removelast parts ++
  match last parts [] with
  | [] => []
  | tail => [tail]
  end.

Definition segs (D s : jsstring) : list jsstring := removelast (split D s).
Definition tail (D s : jsstring) : jsstring := last (split D s) [].

Lemma pop_spec {A : Type} (d : A) (l : list A) :
  pop l = (match l with [] => None | _ => Some (last l d) end, removelast l).
Proof.
  induction l as [|x l IH]; [reflexivity|].
  destruct l as [|y l]; [reflexivity|].
  change (pop (x :: y :: l)) with (let (r, rest) := pop (y :: l) in (r, x :: rest)).
  rewrite IH. reflexivity.
Qed.

Lemma transform_eq chunk t :
  transform chunk t =
  (segs (delimiter t) (buffer t ++ chunk),
   {| delimiter := delimiter t;
      buffer := tail (delimiter t) (buffer t ++ chunk) |}).
Proof.
  unfold transform, segs, tail.
  rewrite (pop_spec ([] : jsstring)).
  destruct (split (delimiter t) (buffer t ++ chunk)); reflexivity.
Qed.

Lemma split_segs_tail D s : split D s <> [] -> split D s = segs D s ++ [tail D s].
Proof. intros H. unfold segs, tail. now apply app_removelast_last. Qed.

(** What is kept as the buffer holds no delimiter any more. *)
Lemma tail_stable D s : segs D (tail D s) = [] /\ tail D (tail D s) = tail D s.
Proof.
  pose proof (split_app D s []) as H. rewrite !app_nil_r in H.
  fold (segs D s) in H. fold (tail D s) in H.
  destruct (split D s) as [|p ps] eqn:Hs.
  - unfold segs, tail. rewrite Hs. simpl.
    destruct D as [|c D]; [split; reflexivity|].
    exfalso. now apply (split_nonempty_sep c D s).
  - assert (Hne : split D s <> []) by (rewrite Hs; discriminate).
    rewrite <- Hs in H. rewrite (split_segs_tail D s Hne) in H at 1.
    apply app_inv_head in H. symmetry in H.
    split.
    + unfold segs. rewrite H. reflexivity.
    + change (tail D (tail D s)) with (last (split D (tail D s)) []).
      rewrite H. reflexivity.
Qed.

Lemma last_app_r {A : Type} (l l' : list A) (d : A) :
  l' <> [] -> last (l ++ l') d = last l' d.
Proof.
  intros Hne. induction l as [|x l IH]; [reflexivity|].
  simpl. destruct (l ++ l') eqn:E; [|exact IH].
  apply app_eq_nil in E as [_ E]. contradiction.
Qed.

(** With the empty separator, only the empty string has an empty tail. *)
Lemma tail_empty_sep_nil a b : tail [] a ++ b = [] -> a = [].
Proof.
  intros Hab. apply app_eq_nil in Hab as [Ha _].
  unfold tail, split in Ha.
  destruct a as [|x a]; [reflexivity|].
  exfalso. revert Ha. generalize x. induction a as [|y a IH]; intros z; simpl.
  - discriminate.
  - apply (IH y).
Qed.

Lemma split_nil_inv D s : split D s = [] -> D = [] /\ s = [].
Proof.
  destruct D as [|c D]; intros H.
  - split; [reflexivity|]. destruct s; [reflexivity | discriminate].
  - exfalso. now apply (split_nonempty_sep c D s).
Qed.

Lemma segs_app D a b : segs D (a ++ b) = segs D a ++ segs D (tail D a ++ b).
Proof.
  unfold segs at 1. rewrite split_app. fold (segs D a). fold (tail D a).
  change (segs D (tail D a ++ b)) with (removelast (split D (tail D a ++ b))).
  destruct (split D (tail D a ++ b)) as [|p ps] eqn:Hs.
  - apply split_nil_inv in Hs as [-> Hab].
    apply tail_empty_sep_nil in Hab as ->. reflexivity.
  - rewrite removelast_app by discriminate. reflexivity.
Qed.

Lemma tail_app D a b : tail D (a ++ b) = tail D (tail D a ++ b).
Proof.
  unfold tail at 1. rewrite split_app. fold (segs D a). fold (tail D a).
  change (tail D (tail D a ++ b)) with (last (split D (tail D a ++ b)) []).
  destruct (split D (tail D a ++ b)) as [|p ps] eqn:Hs.
  - apply split_nil_inv in Hs as [-> Hab].
    apply tail_empty_sep_nil in Hab as ->. reflexivity.
  - rewrite last_app_r by discriminate. reflexivity.
Qed.

(** The framer's state after any chunking of a text is the one after the text
    in one piece. *)
Lemma feed_eq chunks t :
  segs (delimiter t) (buffer t) = [] ->
  tail (delimiter t) (buffer t) = buffer t ->
  feed chunks t =
  (segs (delimiter t) (buffer t ++ concat chunks),
   {| delimiter := delimiter t;
      buffer := tail (delimiter t) (buffer t ++ concat chunks) |}).
Proof.
  revert t; induction chunks as [|c cs IH]; intros [D b] Hs Ht; simpl in *.
  - rewrite app_nil_r, Hs, Ht. reflexivity.
  - rewrite transform_eq. simpl.
    destruct (tail_stable D (b ++ c)) as [Hs1 Ht1].
    rewrite (IH {| delimiter := D; buffer := tail D (b ++ c) |} Hs1 Ht1).
    simpl. rewrite app_assoc.
    rewrite (segs_app D (b ++ c)), (tail_app D (b ++ c)). reflexivity.
Qed.

Lemma fresh_stable D : segs D [] = [] /\ tail D [] = [].
Proof.
  unfold segs, tail. destruct D as [|c D]; [split; reflexivity|].
  unfold split. rewrite split_from_eq. simpl. split; reflexivity.
Qed.

End LineFramer.

(** ** Regular expressions

    The regular-expression literals of the program are kept as syntax and run
    by a backtracking matcher: alternatives are tried in the priority order of
    ECMAScript (a greedy quantifier first tries one more repetition), and
    [exec] tries the start indexes from left to right. *)

Module Regex.
Import JS.

(** [\d] *)
Definition isDigit (c : char) : bool := ((48 <=? c) && (c <=? 57))%N.

(** WhiteSpace and LineTerminator code units: what [\s] matches and what
    [String.prototype.trim] removes. *)
Definition isWhiteSpace (c : char) : bool :=
  ((9 <=? c) && (c <=? 13) || (c =? 32) || (c =? 160) || (c =? 5760)
   || (8192 <=? c) && (c <=? 8202) || (c =? 8232) || (c =? 8233)
   || (c =? 8239) || (c =? 8287) || (c =? 12288) || (c =? 65279))%N.

(** Canonicalize under the [i] flag, for comparing with ASCII pattern
    characters: a lower-case ASCII letter becomes its upper-case letter; a
    code unit from 128 on never canonicalizes to one below 128, so it stays
    different from every ASCII pattern character. *)
Definition canonicalize (ignoreCase : bool) (c : char) : char :=
  if ignoreCase && ((97 <=? c) && (c <=? 122))%N then (c - 32)%N else c.

Inductive cls : Type :=
| CChar (c : char)            (* a pattern character *)
| CDigit                      (* \d *)
| CSpace                      (* \s *)
| CSet (cs : list char).      (* [...] of pattern characters *)

Definition cls_match (ignoreCase : bool) (cl : cls) (x : char) : bool :=
  match cl with
  | CChar a => N.eqb (canonicalize ignoreCase a) (canonicalize ignoreCase x)
  | CDigit => isDigit x
  | CSpace => isWhiteSpace x
  | CSet cs =>
      existsb (fun a => N.eqb (canonicalize ignoreCase a)
                              (canonicalize ignoreCase x)) cs
  end.

Inductive re : Type :=
| Cls (cl : cls)
| Seq (r1 r2 : re)
| Opt (r : re)                      (* r?  greedy; (?: ) groups leave no node *)
| Rep (min : nat) (max : option nat) (r : re)
                                    (* r{min,max}, and r{min,} for None; greedy *)
| Group (i : nat) (r : re)          (* the i-th capturing ( ) *)
| Bol                               (* ^ *)
| Eol.                              (* $ *)

Declare Scope re_scope.
Delimit Scope re_scope with re.
Bind Scope re_scope with re.
Notation "r1 ^^ r2" := (Seq r1 r2) (at level 60, right associativity) : re_scope.

(** The matcher's state: the index reached, the input from there on, and the
    captures so far (the last one recorded for a group first). *)
Record mstate : Type := {
  pos : nat;
  rest : jsstring;
  caps : list (nat * jsstring)
}.

Definition or_else {A : Type} (x : option A) (y : option A) : option A :=
  match x with Some _ => x | None => y end.

Fixpoint run (ic : bool) (r : re) (st : mstate)
  (k : mstate -> option mstate) {struct r} : option mstate :=
  match r with
  | Cls cl =>
      match rest st with
      | x :: xs =>
          if cls_match ic cl x
          then k {| pos := S (pos st); rest := xs; caps := caps st |}
          else None
      | [] => None
      end
  | Seq r1 r2 => run ic r1 st (fun st1 => run ic r2 st1 k)
  | Opt r1 => or_else (run ic r1 st k) (k st)
  | Rep min max r1 =>
      (* an unbounded repetition of a pattern that consumes input stops with
         the input at the latest *)
      let bound := match max with
                   | Some n => n
                   | None => min + length (rest st)
                   end in
      (fix rep (min bound : nat) (st : mstate) (k : mstate -> option mstate)
         {struct bound} : option mstate :=
         match min, bound with
         | O, O => k st
         | S _, O => None
         | S min', S bound' => run ic r1 st (fun st1 => rep min' bound' st1 k)
         | O, S bound' =>
             or_else (run ic r1 st (fun st1 => rep O bound' st1 k)) (k st)
         end) min bound st k
  | Group i r1 =>
      run ic r1 st (fun st1 =>
        k {| pos := pos st1; rest := rest st1;
             caps := (i, firstn (pos st1 - pos st) (rest st)) :: caps st1 |})
  | Bol => if Nat.eqb (pos st) 0 then k st else None
  | Eol => match rest st with [] => k st | _ :: _ => None end
  end.

(** The array [String.prototype.match] returns for a regular expression
    without the [g] flag: the index of the match, the matched text [m[0]] and
    the captures. *)
Record MatchArray : Type := {
  index : nat;
  whole : jsstring;
  groups : list (nat * jsstring)
}.

Fixpoint assoc (i : nat) (l : list (nat * jsstring)) : option jsstring :=
  match l with
  | [] => None
  | (j, v) :: l' => if Nat.eqb i j then Some v else assoc i l'
  end.

(** [m[i]] for a capture; [None] is [undefined]. *)
Definition group (i : nat) (m : MatchArray) : option jsstring :=
  assoc i (groups m).

Fixpoint exec_from (ic : bool) (r : re) (i : nat) (s : jsstring)
  : option MatchArray :=
  match run ic r {| pos := i; rest := s; caps := [] |} Some with
  | Some st =>
      Some {| index := i; whole := firstn (pos st - i) s; groups := caps st |}
  | None =>
      match s with
      | [] => None
      | _ :: s' => exec_from ic r (S i) s'
      end
  end.

(** [s.match(r)] for [r] without the [g] flag, [ic] its [i] flag.  [Bol]
    holds at index 0 only (no [m] flag). *)
Definition match_ (ic : bool) (r : re) (s : jsstring) : option MatchArray :=
  exec_from ic r 0 s.

Fixpoint dropWhile (p : char -> bool) (s : jsstring) : jsstring :=
  match s with
  | [] => []
  | c :: s' => if p c then dropWhile p s' else s
  end.

(** [String.prototype.trim]. *)
Definition trim (s : jsstring) : jsstring :=
  rev (dropWhile isWhiteSpace (rev (dropWhile isWhiteSpace s))).

(** [s.replace(a, b)] for strings [a] and [b]: the first occurrence only. *)
Definition replace (a b s : jsstring) : jsstring :=
  match indexOf a s with
  | None => s
  | Some i => firstn i s ++ b ++ skipn (i + length a) s
  end.

(** [s.replace(r, b)] for a regular expression without the [g] flag and a
    replacement text without [$] patterns. *)
Definition replace_re (ic : bool) (r : re) (b s : jsstring) : jsstring :=
  match match_ ic r s with
  | None => s
  | Some m => firstn (index m) s ++ b ++ skipn (index m + length (whole m)) s
  end.

(** [String.prototype.toUpperCase] on ASCII text. *)
Definition toUpperCase (s : jsstring) : jsstring := map (canonicalize true) s.

End Regex.

(** ** JavaScript numbers

    A number is a binary64 value; the operations are the correctly rounded ones
    of IEEE 754. *)

Module Numbers.
Import JS Regex.

Definition number := float.

Definition digit_val (c : char) : Z := Z.of_N c - 48.

(** A run of decimal digits read as an integer. *)
Definition digits_value (ds : jsstring) : Z :=
  fold_left (fun acc c => 10 * acc + digit_val c)%Z ds 0%Z.

(** The number of an integer (exact below 2^53). *)
Definition of_Z (z : Z) : number := PrimFloat.of_uint63 (Uint63.of_Z z).

Fixpoint span (p : char -> bool) (s : jsstring) : jsstring * jsstring :=
  match s with
  | [] => ([], [])
  | c :: s' =>
      if p c then let (a, b) := span p s' in (c :: a, b) else ([], s)
  end.

(** An unsigned decimal literal [digits] or [digits.digits]: the decimal value
    is the quotient of two integers that are exact as numbers, and the
    division rounds it to the nearest number, as the conversion of the literal
    does.  Anything else is [NaN]. *)
Definition unsigned_literal (s : jsstring) : number :=
  match span isDigit s with
  | ([], _) => PrimFloat.nan
  | (ip, []) => of_Z (digits_value ip)
  | (ip, dot :: fp) =>
      if N.eqb dot 46 && negb (match fp with [] => true | _ => false end)
         && forallb isDigit fp
      then PrimFloat.div (of_Z (digits_value (ip ++ fp)))
                         (of_Z (10 ^ Z.of_nat (length fp)))
      else PrimFloat.nan
  end.

(** [Number(s)] on the strings the decoders hand to it: an optional sign, a
    run of digits and an optional fraction (1 to 9 digits in all).  The other
    forms of numeric literals accepted by [Number] do not occur and are not
    modelled. *)
Definition Number (s : jsstring) : number :=
  match s with
  | 43%N :: r => unsigned_literal r
  | 45%N :: r => PrimFloat.opp (unsigned_literal r)
  | _ => unsigned_literal s
  end.

(** [parseInt(s, 10)] on a string that starts with its digits. *)
Definition parseInt10 (s : jsstring) : number :=
  match span isDigit s with
  | ([], _) => PrimFloat.nan
  | (ds, _) => of_Z (digits_value ds)
  end.

Definition isNaN (x : number) : bool := PrimFloat.is_nan x.

(** [Number.isFinite]. *)
Definition isFinite (x : number) : bool :=
  negb (PrimFloat.is_nan x) && negb (PrimFloat.is_infinity x).

Definition uint_digit_chars : Decimal.uint -> jsstring :=
  fix go (u : Decimal.uint) : jsstring :=
    match u with
    | Decimal.Nil => []
    | Decimal.D0 u' => 48%N :: go u'
    | Decimal.D1 u' => 49%N :: go u'
    | Decimal.D2 u' => 50%N :: go u'
    | Decimal.D3 u' => 51%N :: go u'
    | Decimal.D4 u' => 52%N :: go u'
    | Decimal.D5 u' => 53%N :: go u'
    | Decimal.D6 u' => 54%N :: go u'
    | Decimal.D7 u' => 55%N :: go u'
    | Decimal.D8 u' => 56%N :: go u'
    | Decimal.D9 u' => 57%N :: go u'
    end.

(** The decimal digits of a natural number ([String(n)] for such a number). *)
Definition decimal (n : N) : jsstring :=
  match n with
  | 0%N => [48%N]
  | _ => uint_digit_chars (N.to_uint n)
  end.

(** [x.toFixed(3)] for [|x| < 10^21]: the integer [n] with [n / 1000] nearest
    to the exact value of [x] (the larger one of two), printed with three
    digits after the point. *)
Definition toFixed3 (x : number) : jsstring :=
  let print (neg : bool) (n : Z) : jsstring :=
    let ds := decimal (Z.to_N n) in
    let ds := repeat 48%N (4 - length ds) ++ ds in
    (if neg then [45%N] else []) ++
    firstn (length ds - 3) ds ++ [46%N] ++ skipn (length ds - 3) ds in
  match Prim2SF x with
  | S754_nan => js "NaN"
  | S754_infinity neg => if neg then js "-Infinity" else js "Infinity"
  | S754_zero _ => print false 0%Z
  | S754_finite neg m e =>
      let q := (Z.pos m * 1000)%Z in
      let n := match e with
               | Z0 => q
               | Zpos p => (q * 2 ^ Zpos p)%Z
               | Zneg p => ((2 * q + 2 ^ Zpos p) / (2 * 2 ^ Zpos p))%Z
               end in
      print neg n
  end.

(** [x.toString()] for a number that is a non-negative integer below 2^53,
    the only case that occurs. *)
Definition toString_integer (x : number) : jsstring :=
  match Prim2SF x with
  | S754_zero _ => js "0"
  | S754_finite false m e =>
      decimal (Z.to_N match e with
                      | Z0 => Z.pos m
                      | Zpos p => Z.pos m * 2 ^ Zpos p
                      | Zneg p => Z.pos m / 2 ^ Zpos p
                      end)
  | _ => js "NaN"
  end.

End Numbers.

Module NumbersExamples.
Import JS Regex Numbers.

Example Number_12_345 : Number (js "12.345") = 12.345%float.
Proof. reflexivity. Qed.

Example Number_signed : Number (js "+12.7") = 12.7%float
  /\ Number (js "-0.5") = (-0.5)%float.
Proof. split; reflexivity. Qed.

Example toFixed3_examples :
  toFixed3 25.5%float = js "25.500" /\ toFixed3 0%float = js "0.000"
  /\ toFixed3 1.0005%float = js "1.000" /\ toFixed3 0.0015%float = js "0.002"
  /\ toFixed3 (-0.0001)%float = js "-0.000" /\ toFixed3 12345%float = js "12345.000".
Proof. repeat split; reflexivity. Qed.

End NumbersExamples.

(** ** TelegramDecoder: the parsers of the front ends *)

Module Decoder.
Import JS Regex Numbers.
Open Scope re_scope.

(** [/([+\-]?\d{1,6}(?:[.,]\d{1,3})?)/]: [weightRegex] of test.tsx, test2.tsx
    and the auto-detecting front ends, [genericNumberRegex] of the L1001
    tester, and the literal of the generic branch of [parseLineByMode]. *)
Definition weightRegex : re :=
  Group 1 (Opt (Cls (CSet (js "+-"))) ^^ Rep 1 (Some 6) (Cls CDigit)
           ^^ Opt (Cls (CSet (js ".,")) ^^ Rep 1 (Some 3) (Cls CDigit))).

Definition genericNumberRegex : re := weightRegex.

(** [parseWeight] (test.tsx, test2.tsx and the first auto-detecting front
    end).  The capture always takes part in a match. *)
Definition parseWeight (raw : jsstring) : option jsstring :=
  match match_ false weightRegex (trim raw) with
  | Some m =>
      match group 1 m with
      | Some m1 => Some (replace (js ",") (js ".") m1)
      | None => None
      end
  | None => None
  end.

(** *** The L1001 tester: [parseLatorre5], then [parseGeneric] *)

Record Reading : Type := {
  value : number;
  valueStr : jsstring;
  source : jsstring
}.

(** [/^([PN TBR])\s?(\d{5})$/i] *)
Definition latorre5Regex : re :=
  Bol ^^ Group 1 (Cls (CSet (js "PN TBR"))) ^^ Opt (Cls CSpace)
      ^^ Group 2 (Rep 5 (Some 5) (Cls CDigit)) ^^ Eol.

(** [/\.?0+$/] *)
Definition trailingZerosRegex : re :=
  Opt (Cls (CChar 46%N)) ^^ Rep 1 None (Cls (CChar 48%N)) ^^ Eol.

Definition parseLatorre5 (SCALE_FACTOR : number) (raw : jsstring)
  : option Reading :=
  let s := trim raw in
  match match_ true latorre5Regex s with
  | None => None
  | Some m =>
      match group 1 m, group 2 m with
      | Some m1, Some m2 =>
          let code := toUpperCase m1 in
          let digits := m2 in
          let integer := parseInt10 digits in
          if isNaN integer then None
          else
            let val := PrimFloat.mul integer SCALE_FACTOR in
            let valueStr :=
              if PrimFloat.eqb val integer then toString_integer integer
              else replace_re false trailingZerosRegex [] (toFixed3 val) in
            Some {| value := val; valueStr := valueStr;
                    source := js "L1001(" ++ code ++ js ")" |}
      | _, _ => None
      end
  end.

Definition parseGeneric (raw : jsstring) : option Reading :=
  match match_ false genericNumberRegex (trim raw) with
  | None => None
  | Some m =>
      match group 1 m with
      | Some m1 =>
          let normalized := replace (js ",") (js ".") m1 in
          let num := Number normalized in
          if negb (isFinite num) then None
          else Some {| value := num; valueStr := normalized; source := js "GEN" |}
      | None => None
      end
  end.


(** *** The Latorre reader with modes: [parseLineByMode] *)

Inductive Mode : Type := AUTO | GRAMS5_P | GRAMS5 | KG5.

(** The values of [ASSUME_5DIGITS_IS]. *)
Inductive Assume : Type := GRAMS | KG.

(** The table [FACTOR]. *)
Record Factor : Type := {
  FACTOR_GRAMS : number;
  FACTOR_KG : number
}.

Inductive Source : Type :=
| SRC_GRAMS5_P | SRC_GRAMS5 | SRC_KG5 | SRC_GENERIC.

Record ParseResult : Type := {
  ok : bool;
  raw : jsstring;
  kg : option number;
  src : option Source;
  flag : option jsstring
}.

(** [/^([PNTBR])\s?(\d{5})$/i] *)
Definition withFlagRegex : re :=
  Bol ^^ Group 1 (Cls (CSet (js "PNTBR"))) ^^ Opt (Cls CSpace)
      ^^ Group 2 (Rep 5 (Some 5) (Cls CDigit)) ^^ Eol.

(** [/^(\d{5})$/] *)
Definition only5Regex : re :=
  Bol ^^ Group 1 (Rep 5 (Some 5) (Cls CDigit)) ^^ Eol.

Definition eq_mode (a b : Mode) : bool :=
  match a, b with
  | AUTO, AUTO | GRAMS5_P, GRAMS5_P | GRAMS5, GRAMS5 | KG5, KG5 => true
  | _, _ => false
  end.

Definition eq_assume (a b : Assume) : bool :=
  match a, b with
  | GRAMS, GRAMS | KG, KG => true
  | _, _ => false
  end.

Section ParseLineByMode.

(** The constants [FACTOR] and [ASSUME_5DIGITS_IS] of the file. *)
Variable FACTOR : Factor.
Variable ASSUME_5DIGITS_IS : Assume.

Definition no_match (raw : jsstring) : ParseResult :=
  {| ok := false; raw := raw; kg := None; src := None; flag := None |}.

Definition parseLineByMode (rawIn : jsstring) (mode : Mode) : ParseResult :=
  let raw := trim rawIn in
  match match_ true withFlagRegex raw with
  | Some withFlag =>
      match group 1 withFlag, group 2 withFlag with
      | Some m1, Some m2 =>
          let v := PrimFloat.mul (Number m2) (FACTOR_GRAMS FACTOR) in
          {| ok := true; raw := raw; kg := Some v; src := Some SRC_GRAMS5_P;
             flag := Some (toUpperCase m1) |}
      | _, _ => no_match raw
      end
  | None =>
      match match_ false only5Regex raw with
      | Some only5 =>
          match group 1 only5 with
          | Some m1 =>
              if eq_mode mode KG5
                 || (eq_mode mode AUTO && eq_assume ASSUME_5DIGITS_IS KG)
              then {| ok := true; raw := raw;
                      kg := Some (PrimFloat.mul (Number m1) (FACTOR_KG FACTOR));
                      src := Some SRC_KG5; flag := None |}
              else {| ok := true; raw := raw;
                      kg := Some (PrimFloat.mul (Number m1) (FACTOR_GRAMS FACTOR));
                      src := Some SRC_GRAMS5; flag := None |}
          | None => no_match raw
          end
      | None =>
          match match_ false weightRegex raw with
          | Some gen =>
              match group 1 gen with
              | Some m1 =>
                  let v := Number (replace (js ",") (js ".") m1) in
                  {| ok := isFinite v; raw := raw; kg := Some v;
                     src := Some SRC_GENERIC; flag := None |}
              | None => no_match raw
              end
          | None => no_match raw
          end
      end
  end.

End ParseLineByMode.

(** The constants as the file sets them. *)
Definition FACTOR_file : Factor :=
  {| FACTOR_GRAMS := 0.001%float; FACTOR_KG := 1%float |}.
Definition ASSUME_5DIGITS_IS_file : Assume := GRAMS.
Definition MODE_file : Mode := AUTO.
Definition SCALE_FACTOR_file : number := 0.001%float.

(** *** The La Torre reader: [parseLaTorre] *)

Record LaTorreResult : Type := {
  lt_ok : bool;
  lt_raw : jsstring;
  lt_kg : option number
}.

(** [/^D(\d{6})$/i] *)
Definition laTorreRegex : re :=
  Bol ^^ Cls (CChar 68%N) ^^ Group 1 (Rep 6 (Some 6) (Cls CDigit)) ^^ Eol.

Definition parseLaTorre (rawIn : jsstring) : LaTorreResult :=
  let raw := trim rawIn in
  match match_ true laTorreRegex raw with
  | None => {| lt_ok := false; lt_raw := raw; lt_kg := None |}
  | Some m =>
      match group 1 m with
      | Some m1 =>
          let grams := Number m1 in
          if negb (isFinite grams)
          then {| lt_ok := false; lt_raw := raw; lt_kg := None |}
          else {| lt_ok := true; lt_raw := raw;
                  lt_kg := Some (PrimFloat.div grams 1000%float) |}
      | None => {| lt_ok := false; lt_raw := raw; lt_kg := None |}
      end
  end.

End Decoder.

Module DecoderExamples.
Import JS Regex Numbers Decoder.

Example parseWeight_examples :
  parseWeight (js "+12,7") = Some (js "+12.7")
  /\ parseWeight (js "hello") = None
  /\ parseWeight (js "  kg 0012,3 ") = Some (js "0012.3")
  /\ parseWeight (js "1234567") = Some (js "123456")
  /\ parseWeight (js "12.34567") = Some (js "12.345")
  /\ parseWeight (js "+-5") = Some (js "-5")
  /\ parseWeight (js "7.") = Some (js "7").
Proof. repeat split; reflexivity. Qed.

Example parseLatorre5_examples :
  parseLatorre5 SCALE_FACTOR_file (js "P 12345")
  = Some {| value := 12.345%float; valueStr := js "12.345"; source := js "L1001(P)" |}
  /\ parseLatorre5 SCALE_FACTOR_file (js "n00500")
  = Some {| value := 0.5%float; valueStr := js "0.5"; source := js "L1001(N)" |}
  /\ parseLatorre5 1%float (js "T 00120")
  = Some {| value := 120%float; valueStr := js "120"; source := js "L1001(T)" |}
  /\ parseLatorre5 SCALE_FACTOR_file (js "12345") = None.
Proof. repeat split; reflexivity. Qed.

Example parseLineByMode_examples :
  parseLineByMode FACTOR_file GRAMS (js "P 12345") AUTO
  = {| ok := true; raw := js "P 12345"; kg := Some 12.345%float;
       src := Some SRC_GRAMS5_P; flag := Some (js "P") |}
  /\ parseLineByMode FACTOR_file GRAMS (js "12345") AUTO
  = {| ok := true; raw := js "12345"; kg := Some 12.345%float;
       src := Some SRC_GRAMS5; flag := None |}
  /\ parseLineByMode FACTOR_file KG (js "12345") AUTO
  = {| ok := true; raw := js "12345"; kg := Some 12345%float;
       src := Some SRC_KG5; flag := None |}
  /\ parseLineByMode FACTOR_file GRAMS (js "+12,7") AUTO
  = {| ok := true; raw := js "+12,7"; kg := Some 12.7%float;
       src := Some SRC_GENERIC; flag := None |}
  /\ parseLineByMode FACTOR_file GRAMS (js "hello") AUTO = no_match (js "hello").
Proof. repeat split; reflexivity. Qed.

Example parseLaTorre_examples :
  parseLaTorre (js "D025500")
  = {| lt_ok := true; lt_raw := js "D025500"; lt_kg := Some 25.5%float |}
  /\ parseLaTorre (js " D025500 ")
  = {| lt_ok := true; lt_raw := js "D025500"; lt_kg := Some 25.5%float |}
  /\ lt_ok (parseLaTorre (js "D25500")) = false
  /\ lt_ok (parseLaTorre (js "D0255000")) = false
  /\ lt_ok (parseLaTorre (js "P 12345")) = false.
Proof. repeat split; reflexivity. Qed.

End DecoderExamples.

(** ** Facts about the matcher *)

Module RegexFacts.
Import JS Regex.
Open Scope re_scope.

Definition advance (n : nat) (st : mstate) : mstate :=
  {| pos := pos st + n; rest := skipn n (rest st); caps := caps st |}.

(** Up to [n] leading code units that satisfy [p], and what follows them. *)
Fixpoint take (p : char -> bool) (n : nat) (s : jsstring) : jsstring :=
  match n, s with
  | S n', c :: s' => if p c then c :: take p n' s' else []
  | _, _ => []
  end.

Lemma take_length_le p n s : length (take p n s) <= n.
Proof.
  revert s; induction n as [|n IH]; intros [|c s]; simpl; try lia.
  destruct (p c); simpl; [specialize (IH s)|]; lia.
Qed.

Lemma take_prefix p n s : firstn (length (take p n s)) s = take p n s.
Proof.
  revert s; induction n as [|n IH]; intros [|c s]; simpl; try reflexivity.
  destruct (p c); simpl; [now rewrite IH | reflexivity].
Qed.

Lemma take_forallb p n s : forallb p (take p n s) = true.
Proof.
  revert s; induction n as [|n IH]; intros [|c s]; simpl; try reflexivity.
  destruct (p c) eqn:E; simpl; [now rewrite E, IH | reflexivity].
Qed.

Lemma advance_0 st : advance 0 st = st.
Proof. destruct st; unfold advance; simpl. now rewrite Nat.add_0_r. Qed.

Lemma advance_S c xs st n :
  rest st = c :: xs ->
  advance n {| pos := S (pos st); rest := xs; caps := caps st |}
  = advance (S n) st.
Proof.
  intros H. unfold advance; simpl. rewrite H. simpl. f_equal. lia.
Qed.

Lemma run_seq ic r1 r2 st k :
  run ic (r1 ^^ r2) st k = run ic r1 st (fun st1 => run ic r2 st1 k).
Proof. reflexivity. Qed.

Lemma run_opt ic r st k :
  run ic (Opt r) st k = or_else (run ic r st k) (k st).
Proof. reflexivity. Qed.

Lemma run_cls ic cl st k :
  run ic (Cls cl) st k =
  match rest st with
  | x :: xs =>
      if cls_match ic cl x
      then k {| pos := S (pos st); rest := xs; caps := caps st |}
      else None
  | [] => None
  end.
Proof. reflexivity. Qed.

Lemma run_group ic i r st k :
  run ic (Group i r) st k =
  run ic r st (fun st1 =>
    k {| pos := pos st1; rest := rest st1;
         caps := (i, firstn (pos st1 - pos st) (rest st)) :: caps st1 |}).
Proof. reflexivity. Qed.

Lemma run_bol ic st k :
  run ic Bol st k = if Nat.eqb (pos st) 0 then k st else None.
Proof. reflexivity. Qed.

Lemma run_eol ic st k :
  run ic Eol st k = match rest st with [] => k st | _ :: _ => None end.
Proof. reflexivity. Qed.

Lemma run_rep_SS ic m b r st k :
  run ic (Rep (S m) (Some (S b)) r) st k =
  run ic r st (fun st1 => run ic (Rep m (Some b) r) st1 k).
Proof. reflexivity. Qed.

Lemma run_rep_0S ic b r st k :
  run ic (Rep 0 (Some (S b)) r) st k =
  or_else (run ic r st (fun st1 => run ic (Rep 0 (Some b) r) st1 k)) (k st).
Proof. reflexivity. Qed.

Lemma run_rep_00 ic r st k : run ic (Rep 0 (Some 0) r) st k = k st.
Proof. reflexivity. Qed.

Lemma run_rep_S0 ic m r st k : run ic (Rep (S m) (Some 0) r) st k = None.
Proof. reflexivity. Qed.

(** Exactly [n] code units of a class: they are there or the match fails. *)
Lemma run_rep_exact ic cl n st k :
  run ic (Rep n (Some n) (Cls cl)) st k =
  if (n <=? length (rest st)) && forallb (cls_match ic cl) (firstn n (rest st))
  then k (advance n st) else None.
Proof.
  revert st; induction n as [|n IH]; intros st.
  - rewrite run_rep_00, advance_0. reflexivity.
  - rewrite run_rep_SS, run_cls.
    destruct (rest st) as [|x xs] eqn:Hr; [reflexivity|].
    cbn [firstn forallb length].
    change (S n <=? S (length xs)) with (n <=? length xs).
    destruct (cls_match ic cl x).
    + rewrite IH. cbn [rest andb].

      destruct ((n <=? length xs) && forallb (cls_match ic cl) (firstn n xs));
        [|reflexivity].
      now rewrite (advance_S x xs st n Hr).
    + cbn [andb]. now rewrite andb_false_r.
Qed.

(** A greedy bounded repetition of a class before a continuation that cannot
    fail takes the longest run. *)
Lemma run_rep_greedy ic cl b st k :
  (forall st', k st' <> None) ->
  run ic (Rep 0 (Some b) (Cls cl)) st k =
  k (advance (length (take (cls_match ic cl) b (rest st))) st).
Proof.
  intros Hk. revert st; induction b as [|b IH]; intros st.
  - rewrite run_rep_00. simpl. now rewrite advance_0.
  - rewrite run_rep_0S, run_cls.
    destruct (rest st) as [|x xs] eqn:Hr; cbn [take length or_else].
    + now rewrite advance_0.
    + destruct (cls_match ic cl x); cbn [length or_else].
      * rewrite IH. cbn [rest]. rewrite (advance_S x xs st _ Hr).
        destruct (k _) eqn:E; [reflexivity|]. now apply Hk in E.
      * now rewrite advance_0.
Qed.

(** A pattern anchored by [^] matches at index 0 or not at all. *)
Lemma exec_from_bol_S ic r i s : exec_from ic (Bol ^^ r) (S i) s = None.
Proof.
  revert i; induction s as [|c s IH]; intros i; simpl; [reflexivity|].
  apply IH.
Qed.

Lemma match_anchored ic r s :
  match_ ic (Bol ^^ r) s =
  match run ic r {| pos := 0; rest := s; caps := [] |} Some with
  | Some st =>
      Some {| index := 0; whole := firstn (pos st - 0) s; groups := caps st |}
  | None => None
  end.
Proof.
  unfold match_. destruct s as [|c s]; simpl.
  - reflexivity.
  - destruct (run ic r _ Some); [reflexivity|]. apply exec_from_bol_S.
Qed.

End RegexFacts.

(** ** The shapes of the telegrams

    Each pattern of the decoders is described a second time, directly on the
    code units of the line, and shown to accept what the matcher accepts. *)

Module Shapes.
Import JS Regex RegexFacts Numbers Decoder.
Open Scope re_scope.

(** Exactly [n] code units, all of them satisfying [p]. *)
Definition all_n (p : char -> bool) (n : nat) (s : jsstring) : bool :=
  Nat.eqb (length s) n && forallb p s.

(** [L] is one of [letters], in either case. *)
Definition is_letter_of (letters : jsstring) (L : char) : bool :=
  existsb (fun a => N.eqb (canonicalize true a) (canonicalize true L)) letters.

(** A flag letter, at most one white-space code unit, five digits: the flag
    letter as written and the digits. *)
Definition flagged_line (letters line : jsstring) : option (char * jsstring) :=
  match line with
  | L :: r =>
      if is_letter_of letters L then
        match r with
        | w :: ds =>
            if isWhiteSpace w && all_n isDigit 5 ds then Some (L, ds)
            else if all_n isDigit 5 r then Some (L, r) else None
        | [] => None
        end
      else None
  | [] => None
  end.

(** The letter D in either case, then six digits: the digits. *)
Definition prefixed_line (line : jsstring) : option jsstring :=
  match line with
  | L :: ds =>
      if N.eqb (canonicalize true 68%N) (canonicalize true L) && all_n isDigit 6 ds
      then Some ds else None
  | [] => None
  end.

Definition is_sign (c : char) : bool := N.eqb c 43 || N.eqb c 45.
Definition is_separator (c : char) : bool := N.eqb c 46 || N.eqb c 44.

(** The fraction at the start of a text: a separator and 1 to 3 digits, as
    many as there are; nothing when they do not follow. *)
Definition fraction_at (s : jsstring) : jsstring :=
  match s with
  | sep :: r =>
      if is_separator sep then
        match take isDigit 3 r with
        | [] => []
        | fp => sep :: fp
        end
      else []
  | [] => []
  end.

(** The unsigned decimal at the start of a text: 1 to 6 digits, as many as
    there are, and the fraction that follows them. *)
Definition unsigned_at (s : jsstring) : option jsstring :=
  match take isDigit 6 s with
  | [] => None
  | ip => Some (ip ++ fraction_at (skipn (length ip) s))
  end.

(** The decimal with its optional sign at the start of a text. *)
Definition number_at (s : jsstring) : option jsstring :=
  match s with
  | c :: s' =>
      if is_sign c then option_map (cons c) (unsigned_at s') else unsigned_at s
  | [] => None
  end.

(** The first decimal of a text, with the index where it starts. *)
Fixpoint first_number (s : jsstring) : option (nat * jsstring) :=
  match number_at s with
  | Some n => Some (0, n)
  | None =>
      match s with
      | [] => None
      | _ :: s' =>
          match first_number s' with
          | Some (i, n) => Some (S i, n)
          | None => None
          end
      end
  end.

Lemma all_n_spec p n s :
  all_n p n s = (n <=? length s) && forallb p (firstn n s)
                && match skipn n s with [] => true | _ => false end.
Proof.
  unfold all_n.
  destruct (Nat.eqb_spec (length s) n) as [<-|Hne].
  - rewrite Nat.leb_refl, firstn_all, skipn_all. simpl.
    now rewrite andb_true_r.
  - simpl. destruct (Nat.leb_spec n (length s)) as [Hle|Hlt]; [|reflexivity].
    simpl. destruct (skipn n s) eqn:Hs; [|now rewrite andb_false_r].
    exfalso. apply (f_equal (@length _)) in Hs. rewrite length_skipn in Hs.
    simpl in Hs. lia.
Qed.

(** A capture of exactly [n] code units of a class that ends the line. *)
Lemma run_group_exact_eol ic i cl n st :
  run ic (Group i (Rep n (Some n) (Cls cl)) ^^ Eol) st Some =
  if all_n (cls_match ic cl) n (rest st)
  then Some {| pos := pos st + n; rest := [];
               caps := (i, rest st) :: caps st |}
  else None.
Proof.
  rewrite run_seq, run_group, run_rep_exact, all_n_spec.
  destruct ((n <=? length (rest st))
            && forallb (cls_match ic cl) (firstn n (rest st))) eqn:E;
    [|reflexivity].
  rewrite run_eol. cbn [rest pos caps advance andb].
  destruct (skipn n (rest st)) eqn:Hs; [|reflexivity].
  apply andb_prop in E as [Hle _]. apply Nat.leb_le in Hle.
  assert (Hlen : length (rest st) = n).
  { apply (f_equal (@length _)) in Hs. rewrite length_skipn in Hs.
    simpl in Hs. lia. }
  replace (pos st + n - pos st) with n by lia.
  rewrite <- Hlen at 2. now rewrite firstn_all.
Qed.

Lemma run_flagged letters s :
  run true (Group 1 (Cls (CSet letters)) ^^ Opt (Cls CSpace)
            ^^ Group 2 (Rep 5 (Some 5) (Cls CDigit)) ^^ Eol)
      {| pos := 0; rest := s; caps := [] |} Some =
  match flagged_line letters s with
  | Some (L, ds) =>
      Some {| pos := length s; rest := []; caps := [(2, ds); (1, [L])] |}
  | None => None
  end.
Proof.
  rewrite run_seq, run_group, run_cls. cbn [rest pos caps].
  destruct s as [|L r]; [reflexivity|].
  unfold flagged_line.
  change (cls_match true (CSet letters) L) with (is_letter_of letters L).
  destruct (is_letter_of letters L); [|reflexivity].
  rewrite run_seq, run_opt, run_cls. cbn [rest pos caps firstn Nat.sub].
  destruct r as [|w ds].
  - cbn [or_else]. rewrite run_group_exact_eol. reflexivity.
  - change (cls_match true CSpace w) with (isWhiteSpace w).
    rewrite !run_group_exact_eol. cbn [rest pos caps].
    change (cls_match true CDigit) with isDigit.
    destruct (isWhiteSpace w) eqn:Hw; cbn [andb].
    + destruct (all_n isDigit 5 ds) eqn:Hd; cbn [or_else].
      * unfold all_n in Hd. apply andb_prop in Hd as [Hl _].
        apply Nat.eqb_eq in Hl. cbn [length]. rewrite Hl. reflexivity.
      * destruct (all_n isDigit 5 (w :: ds)) eqn:Hd'; [|reflexivity].
        unfold all_n in Hd'. apply andb_prop in Hd' as [Hl _].
        apply Nat.eqb_eq in Hl. cbn [length] in *. rewrite Hl. reflexivity.
    + cbn [or_else].
      destruct (all_n isDigit 5 (w :: ds)) eqn:Hd'; [|reflexivity].
      unfold all_n in Hd'. apply andb_prop in Hd' as [Hl _].
      apply Nat.eqb_eq in Hl. cbn [length] in *. rewrite Hl. reflexivity.
Qed.

Lemma match_flagged letters s :
  match_ true (Bol ^^ Group 1 (Cls (CSet letters)) ^^ Opt (Cls CSpace)
               ^^ Group 2 (Rep 5 (Some 5) (Cls CDigit)) ^^ Eol) s =
  match flagged_line letters s with
  | Some (L, ds) =>
      Some {| index := 0; whole := s; groups := [(2, ds); (1, [L])] |}
  | None => None
  end.
Proof.
  rewrite match_anchored, run_flagged.
  destruct (flagged_line letters s) as [[L ds]|]; [|reflexivity].
  cbn [pos caps]. now rewrite Nat.sub_0_r, firstn_all.
Qed.

Lemma match_withFlag s :
  match_ true withFlagRegex s =
  match flagged_line (js "PNTBR") s with
  | Some (L, ds) =>
      Some {| index := 0; whole := s; groups := [(2, ds); (1, [L])] |}
  | None => None
  end.
Proof. apply match_flagged. Qed.

Lemma match_latorre5 s :
  match_ true latorre5Regex s =
  match flagged_line (js "PN TBR") s with
  | Some (L, ds) =>
      Some {| index := 0; whole := s; groups := [(2, ds); (1, [L])] |}
  | None => None
  end.
Proof. apply match_flagged. Qed.

Lemma match_only5 s :
  match_ false only5Regex s =
  if all_n isDigit 5 s
  then Some {| index := 0; whole := s; groups := [(1, s)] |}
  else None.
Proof.
  unfold only5Regex. rewrite match_anchored, run_group_exact_eol.
  cbn [rest pos caps]. change (cls_match false CDigit) with isDigit.
  destruct (all_n isDigit 5 s) eqn:E; [|reflexivity].
  unfold all_n in E. apply andb_prop in E as [Hl _]. apply Nat.eqb_eq in Hl.
  cbn [pos caps]. rewrite Nat.sub_0_r. cbn [Nat.add].
  rewrite <- Hl, firstn_all. reflexivity.
Qed.

Lemma match_laTorre s :
  match_ true laTorreRegex s =
  match prefixed_line s with
  | Some ds => Some {| index := 0; whole := s; groups := [(1, ds)] |}
  | None => None
  end.
Proof.
  unfold laTorreRegex. rewrite match_anchored, run_seq, run_cls.
  cbn [rest pos caps]. destruct s as [|L ds]; [reflexivity|].
  unfold prefixed_line.
  change (cls_match true (CChar 68%N) L)
    with (N.eqb (canonicalize true 68%N) (canonicalize true L)).
  destruct (N.eqb (canonicalize true 68%N) (canonicalize true L)); [|reflexivity].
  rewrite run_group_exact_eol. cbn [rest pos caps andb].
  change (cls_match true CDigit) with isDigit.
  destruct (all_n isDigit 6 ds) eqn:E; [|reflexivity].
  unfold all_n in E. apply andb_prop in E as [Hl _]. apply Nat.eqb_eq in Hl.
  cbn [pos caps]. rewrite Nat.sub_0_r.
  change (firstn (1 + 6) (L :: ds)) with (L :: firstn 6 ds).
  rewrite <- Hl, firstn_all. reflexivity.
Qed.

Lemma advance_advance a b st : advance a (advance b st) = advance (b + a) st.
Proof.
  unfold advance; simpl. rewrite skipn_skipn. f_equal; [lia|].
  f_equal. lia.
Qed.

Lemma or_else_total {A : Type} (x : option A) (y : option A) :
  y <> None -> or_else x y <> None.
Proof. destruct x; simpl; [discriminate | trivial]. Qed.

Lemma is_separator_cls c :
  cls_match false (CSet (js ".,")) c = is_separator c.
Proof.
  unfold is_separator.
  change (cls_match false (CSet (js ".,")) c)
    with (N.eqb 46 c || (N.eqb 44 c || false)).
  rewrite orb_false_r. now rewrite (N.eqb_sym 46 c), (N.eqb_sym 44 c).
Qed.

Lemma is_sign_cls c : cls_match false (CSet (js "+-")) c = is_sign c.
Proof.
  unfold is_sign.
  change (cls_match false (CSet (js "+-")) c)
    with (N.eqb 43 c || (N.eqb 45 c || false)).
  rewrite orb_false_r. now rewrite (N.eqb_sym 43 c), (N.eqb_sym 45 c).
Qed.

Lemma is_sign_not_digit c : is_sign c = true -> isDigit c = false.
Proof.
  unfold is_sign. intros H. apply orb_prop in H as [H|H];
    apply N.eqb_eq in H; subst; reflexivity.
Qed.

Lemma fraction_at_prefix s : firstn (length (fraction_at s)) s = fraction_at s.
Proof.
  destruct s as [|sep r]; [reflexivity|]. unfold fraction_at.
  destruct (is_separator sep); [|reflexivity].
  pose proof (take_prefix isDigit 3 r) as H.
  destruct (take isDigit 3 r) as [|d fp]; [reflexivity|].
  change (firstn (length (sep :: d :: fp)) (sep :: r))
    with (sep :: firstn (length (d :: fp)) r).
  now rewrite H.
Qed.

Lemma firstn_add_skipn {A : Type} (a b : nat) (l : list A) :
  firstn (a + b) l = firstn a l ++ firstn b (skipn a l).
Proof.
  revert l; induction a as [|a IH]; intros [|x l]; simpl;
    try reflexivity.
  - now rewrite firstn_nil.
  - now rewrite IH.
Qed.

Lemma unsigned_at_prefix s n :
  unsigned_at s = Some n -> firstn (length n) s = n.
Proof.
  unfold unsigned_at. pose proof (take_prefix isDigit 6 s) as Hip.
  set (ip := take isDigit 6 s) in *. clearbody ip.
  destruct ip as [|d ip]; [discriminate|]. intros H.
  assert (E : n = (d :: ip) ++ fraction_at (skipn (length (d :: ip)) s))
    by congruence.
  rewrite E, length_app, firstn_add_skipn, Hip.
  now rewrite fraction_at_prefix.
Qed.

Lemma number_at_prefix s n : number_at s = Some n -> firstn (length n) s = n.
Proof.
  destruct s as [|c s]; [discriminate|]. unfold number_at.
  destruct (is_sign c).
  - destruct (unsigned_at s) as [m|] eqn:E; [|discriminate].
    intros [= <-]. cbn [length firstn]. now rewrite (unsigned_at_prefix s m E).
  - apply unsigned_at_prefix.
Qed.

Definition fraction : re := Cls (CSet (js ".,")) ^^ Rep 1 (Some 3) (Cls CDigit).

Lemma run_fraction_opt st k :
  (forall st', k st' <> None) ->
  run false (Opt fraction) st k =
  k (advance (length (fraction_at (rest st))) st).
Proof.
  intros Hk. unfold fraction. rewrite run_opt, run_seq, run_cls.
  destruct (rest st) as [|sep r] eqn:Hr; cbn [fraction_at length or_else].
  - now rewrite advance_0.
  - rewrite is_separator_cls. destruct (is_separator sep); cbn [or_else].
    + rewrite run_rep_SS, run_cls. cbn [rest].
      destruct r as [|d r']; cbn [take length or_else].
      * now rewrite advance_0.
      * change (cls_match false CDigit d) with (isDigit d).
        destruct (isDigit d); cbn [length or_else].
        -- rewrite (run_rep_greedy false CDigit 2 _ k Hk). cbn [rest pos caps].
           change (cls_match false CDigit) with isDigit.
           set (f := length (take isDigit 2 r')).
           replace (advance f _) with (advance (S (S f)) st).
           ++ destruct (k _) eqn:E; [reflexivity | now apply Hk in E].
           ++ unfold advance. cbn [pos rest caps]. rewrite Hr.
              cbn [skipn]. f_equal. lia.
        -- now rewrite advance_0.
    + now rewrite advance_0.
Qed.

Lemma run_unsigned st k :
  (forall st', k st' <> None) ->
  run false (Rep 1 (Some 6) (Cls CDigit) ^^ Opt fraction) st k =
  match unsigned_at (rest st) with
  | Some n => k (advance (length n) st)
  | None => None
  end.
Proof.
  intros Hk. rewrite run_seq, run_rep_SS, run_cls. unfold unsigned_at.
  destruct (rest st) as [|d r] eqn:Hr; [reflexivity|].
  change (take isDigit 6 (d :: r))
    with (if isDigit d then d :: take isDigit 5 r else []).
  change (cls_match false CDigit d) with (isDigit d).
  destruct (isDigit d); [|reflexivity].
  rewrite (run_rep_greedy false CDigit 5 _
             (fun st2 => run false (Opt fraction) st2 k)).
  - rewrite (run_fraction_opt _ k Hk).
    change (cls_match false CDigit) with isDigit.
    set (t := take isDigit 5 r).
    rewrite advance_advance.
    change (length (d :: t)) with (S (length t)).
    change (skipn (S (length t)) (d :: r)) with (skipn (length t) r).
    change (rest (advance (length t)
                    {| pos := S (pos st); rest := r; caps := caps st |}))
      with (skipn (length t) r).
    change ((d :: t) ++ fraction_at (skipn (length t) r))
      with (d :: (t ++ fraction_at (skipn (length t) r))).
    change (length (d :: (t ++ fraction_at (skipn (length t) r))))
      with (S (length (t ++ fraction_at (skipn (length t) r)))).
    rewrite length_app. now rewrite (advance_S d r st _ Hr).
  - intros st'. rewrite run_opt. apply or_else_total, Hk.
Qed.

Lemma run_weight i s :
  run false weightRegex {| pos := i; rest := s; caps := [] |} Some =
  match number_at s with
  | Some n =>
      Some {| pos := i + length n; rest := skipn (length n) s;
              caps := [(1, n)] |}
  | None => None
  end.
Proof.
  unfold weightRegex. rewrite run_group, run_seq, run_opt, run_cls.
  cbn [rest pos caps]. fold fraction.
  set (kg := fun st1 : mstate =>
               Some {| pos := pos st1; rest := rest st1;
                       caps := (1, firstn (pos st1 - i) s) :: caps st1 |}).
  assert (Hk : forall st', kg st' <> None) by (intros st'; discriminate).
  destruct s as [|c s']; cbn [or_else number_at].
  - rewrite (run_unsigned _ kg Hk). reflexivity.
  - rewrite is_sign_cls. rewrite !(run_unsigned _ kg Hk). cbn [rest].
    destruct (is_sign c) eqn:Hc.
    + destruct (unsigned_at s') as [n|] eqn:Hn; cbn [or_else option_map].
      * unfold kg, advance. cbn [pos rest caps length skipn or_else].
        replace (S i + length n - i) with (S (length n)) by lia.
        cbn [firstn]. rewrite (unsigned_at_prefix s' n Hn).
        do 2 f_equal. lia.
      * unfold unsigned_at. cbn [take]. rewrite (is_sign_not_digit c Hc).
        reflexivity.
    + cbn [or_else].
      destruct (unsigned_at (c :: s')) as [n|] eqn:Hn; [|reflexivity].
      unfold kg, advance. cbn [pos rest caps].
      replace (i + length n - i) with (length n) by lia.
      now rewrite (unsigned_at_prefix (c :: s') n Hn).
Qed.

Lemma exec_from_weight i s :
  exec_from false weightRegex i s =
  match first_number s with
  | Some (j, n) => Some {| index := i + j; whole := n; groups := [(1, n)] |}
  | None => None
  end.
Proof.
  revert i; induction s as [|c s IH]; intros i.
  - reflexivity.
  - cbn [exec_from first_number]. rewrite run_weight.
    destruct (number_at (c :: s)) as [n|] eqn:Hn.
    + cbn [pos caps]. replace (i + length n - i) with (length n) by lia.
      rewrite (number_at_prefix (c :: s) n Hn), Nat.add_0_r. reflexivity.
    + rewrite IH. destruct (first_number s) as [[j n]|]; [|reflexivity].
      do 2 f_equal. lia.
Qed.

Lemma match_weight s :
  match_ false weightRegex s =
  match first_number s with
  | Some (j, n) => Some {| index := j; whole := n; groups := [(1, n)] |}
  | None => None
  end.
Proof. unfold match_. now rewrite exec_from_weight. Qed.

End Shapes.

(** ** Facts about trimming and about the numbers of digit strings *)

Module NumberFacts.
Import JS Regex RegexFacts Numbers Shapes.

Lemma isDigit_range c : isDigit c = true <-> (48 <= c <= 57)%N.
Proof.
  unfold isDigit. rewrite andb_true_iff, !N.leb_le. reflexivity.
Qed.

Lemma isDigit_not_ws c : isDigit c = true -> isWhiteSpace c = false.
Proof.
  intros H. apply isDigit_range in H.
  assert (E : (c = 48 \/ c = 49 \/ c = 50 \/ c = 51 \/ c = 52 \/ c = 53
               \/ c = 54 \/ c = 55 \/ c = 56 \/ c = 57)%N) by lia.
  repeat (destruct E as [-> | E]; [reflexivity|]). now subst.
Qed.

Lemma rev_last_cons {A : Type} (l : list A) (d : A) :
  l <> [] -> rev l = last l d :: rev (removelast l).
Proof.
  intros H. rewrite (app_removelast_last d H) at 1.
  now rewrite rev_app_distr.
Qed.

(** A line that neither starts nor ends with white space is its own trim. *)
Lemma trim_id c s :
  isWhiteSpace c = false -> isWhiteSpace (last (c :: s) c) = false ->
  trim (c :: s) = c :: s.
Proof.
  intros Hc Hl. unfold trim. cbn [dropWhile]. rewrite Hc.
  rewrite (rev_last_cons (c :: s) c) by discriminate.
  cbn [dropWhile]. rewrite Hl.
  rewrite <- (rev_last_cons (c :: s) c) by discriminate.
  apply rev_involutive.
Qed.

Lemma dropWhile_not_ws_head s c r :
  dropWhile isWhiteSpace s = c :: r -> isWhiteSpace c = false.
Proof.
  induction s as [|x s IH]; simpl; [discriminate|].
  destruct (isWhiteSpace x) eqn:E; [exact IH|]. now intros [= <- _].
Qed.

Lemma last_app_single {A : Type} (l : list A) (x d : A) : last (l ++ [x]) d = x.
Proof. apply last_last. Qed.

(** The value of a digit string grows by one decimal place per digit. *)
Lemma digits_value_snoc ds c :
  digits_value (ds ++ [c]) = (10 * digits_value ds + digit_val c)%Z.
Proof. unfold digits_value. now rewrite fold_left_app. Qed.

Lemma digit_val_range c : isDigit c = true -> (0 <= digit_val c <= 9)%Z.
Proof. intros H. apply isDigit_range in H. unfold digit_val. lia. Qed.

Lemma digits_value_bound ds :
  forallb isDigit ds = true ->
  (0 <= digits_value ds < 10 ^ Z.of_nat (length ds))%Z.
Proof.
  induction ds as [|c ds IH] using rev_ind; intros H.
  - simpl. unfold digits_value. simpl. lia.
  - rewrite forallb_app in H. apply andb_prop in H as [Hds Hc].
    simpl in Hc. rewrite andb_true_r in Hc.
    specialize (IH Hds). apply digit_val_range in Hc.
    rewrite digits_value_snoc, length_app. simpl length.
    rewrite Nat2Z.inj_add, Z.pow_add_r by lia.
    change (10 ^ Z.of_nat 1)%Z with 10%Z. lia.
Qed.

Lemma span_all p s : forallb p s = true -> span p s = (s, []).
Proof.
  induction s as [|c s IH]; simpl; [reflexivity|].
  intros H. apply andb_prop in H as [Hc Hs]. now rewrite Hc, (IH Hs).
Qed.

Lemma unsigned_literal_digits s :
  s <> [] -> forallb isDigit s = true ->
  unsigned_literal s = of_Z (digits_value s).
Proof.
  intros Hne H. unfold unsigned_literal. rewrite (span_all isDigit s H).
  destruct s; [contradiction | reflexivity].
Qed.

(** [Number] and [parseInt] of a run of digits: its value as an integer. *)
Lemma Number_digits s :
  s <> [] -> forallb isDigit s = true -> Number s = of_Z (digits_value s).
Proof.
  intros Hne H. pose proof (unsigned_literal_digits s Hne H) as Hu.
  destruct s as [|d ds]; [contradiction|].
  pose proof H as H'. cbn [forallb] in H'. apply andb_prop in H' as [Hd _].
  apply isDigit_range in Hd. unfold Number.
  destruct d as [|p]; [lia|].
  do 7 (destruct p as [p|p|]; try exact Hu; try lia).
Qed.

Lemma parseInt10_digits s :
  s <> [] -> forallb isDigit s = true ->
  parseInt10 s = of_Z (digits_value s).
Proof.
  intros Hne H. unfold parseInt10. rewrite (span_all isDigit s H).
  destruct s; [contradiction | reflexivity].
Qed.

(** [p] holds of [z], [z + 1], ..., [z + n - 1]. *)
Fixpoint check_from (n : nat) (z : Z) (p : Z -> bool) : bool :=
  match n with
  | O => true
  | S m => p z && check_from m (z + 1)%Z p
  end.

Lemma check_from_sound n z p :
  check_from n z p = true ->
  forall k, (z <= k < z + Z.of_nat n)%Z -> p k = true.
Proof.
  revert z; induction n as [|n IH]; intros z H k Hk; [lia|].
  simpl in H. apply andb_prop in H as [Hz Hn].
  destruct (Z.eq_dec k z) as [->|Hne]; [exact Hz|].
  apply (IH (z + 1)%Z Hn). lia.
Qed.

(** Every integer below a million is a finite number, and so is its
    opposite, by evaluation. *)
Lemma integers_finite :
  forall k, (0 <= k < 1000000)%Z ->
            isFinite (of_Z k) = true /\ isNaN (of_Z k) = false
            /\ isFinite (PrimFloat.opp (of_Z k)) = true.
Proof.
  assert (H : check_from (Z.to_nat 1000000) 0
                (fun z => isFinite (of_Z z) && negb (isNaN (of_Z z))
                          && isFinite (PrimFloat.opp (of_Z z))) = true)
    by (vm_compute; reflexivity).
  intros k Hk.
  pose proof (check_from_sound _ _ _ H k) as Hc.
  rewrite Z2Nat.id in Hc by lia. specialize (Hc Hk).
  apply andb_prop in Hc as [Hc Ho]. apply andb_prop in Hc as [Hf Hn].
  split; [exact Hf|]. split; [|exact Ho].
  now destruct (isNaN (of_Z k)).
Qed.

Lemma all_n_digits_finite n ds :
  n <= 6 -> all_n isDigit n ds = true ->
  isFinite (of_Z (digits_value ds)) = true
  /\ isNaN (of_Z (digits_value ds)) = false.
Proof.
  intros Hn H. unfold all_n in H. apply andb_prop in H as [Hl Hd].
  apply Nat.eqb_eq in Hl.
  cut (0 <= digits_value ds < 1000000)%Z.
  { intros Hr. destruct (integers_finite _ Hr) as (H1 & H2 & _). now split. }
  pose proof (digits_value_bound ds Hd) as Hb. rewrite Hl in Hb.
  assert (10 ^ Z.of_nat n <= 10 ^ 6)%Z by (apply Z.pow_le_mono_r; lia).
  change (10 ^ 6)%Z with 1000000%Z in *. lia.
Qed.

End NumberFacts.

(** ** The decoder in the words of the specification

    The format variants of a telegram, each described on the trimmed line,
    and the decoder that tries them in their priority order.  These definitions
    follow the specification; the parsers of [Decoder] follow the source. *)

Module TelegramSpec.
Import JS Regex RegexFacts Numbers Decoder Shapes.

Definition variant : Type := jsstring -> option ParseResult.

Section Variants.

Variable FACTOR : Factor.
Variable ASSUME_5DIGITS_IS : Assume.

(** Which factor bare digits get: the mode decides, and the assumption when
    the mode is [AUTO]. *)
Definition bare_is_kg (mode : Mode) : bool :=
  match mode, ASSUME_5DIGITS_IS with
  | KG5, _ => true
  | AUTO, KG => true
  | _, _ => false
  end.

(** Flagged fixed-digit: a status letter, at most one white-space code unit,
    exactly 5 digits; the digits as an integer times the factor for grams. *)
Definition flagged_variant : variant := fun line =>
  match flagged_line (js "PNTBR") line with
  | Some (L, ds) =>
      Some {| ok := true; raw := line;
              kg := Some (PrimFloat.mul (of_Z (digits_value ds))
                                        (FACTOR_GRAMS FACTOR));
              src := Some SRC_GRAMS5_P;
              flag := Some [canonicalize true L] |}
  | None => None
  end.

(** Bare fixed-digit: exactly 5 digits; the digits as an integer times the
    factor of the configured assumption. *)
Definition bare_variant (mode : Mode) : variant := fun line =>
  if all_n isDigit 5 line then
    Some (if bare_is_kg mode
          then {| ok := true; raw := line;
                  kg := Some (PrimFloat.mul (of_Z (digits_value line))
                                            (FACTOR_KG FACTOR));
                  src := Some SRC_KG5; flag := None |}
          else {| ok := true; raw := line;
                  kg := Some (PrimFloat.mul (of_Z (digits_value line))
                                            (FACTOR_GRAMS FACTOR));
                  src := Some SRC_GRAMS5; flag := None |})
  else None.

(** Generic decimal: the first decimal anywhere in the line, its comma read
    as a point; not a match when its value is not finite. *)
Definition generic_variant : variant := fun line =>
  match first_number line with
  | Some (_, n) =>
      let v := Number (replace (js ",") (js ".") n) in
      Some {| ok := isFinite v; raw := line; kg := Some v;
              src := Some SRC_GENERIC; flag := None |}
  | None => None
  end.

(** The first variant that matches decides; a line that matches none is
    ignored. *)
Fixpoint first_match (variants : list variant) (line : jsstring)
  : ParseResult :=
  match variants with
  | [] => no_match line
  | v :: vs =>
      match v line with
      | Some r => r
      | None => first_match vs line
      end
  end.

Definition decode (mode : Mode) (line : jsstring) : ParseResult :=
  first_match [flagged_variant; bare_variant mode; generic_variant] line.

End Variants.

End TelegramSpec.

Module DecoderFacts.
Import JS Regex RegexFacts Numbers Decoder Shapes NumberFacts TelegramSpec.

Lemma all_n_nonempty p n s : all_n p (S n) s = true -> s <> [].
Proof. destruct s; [discriminate | discriminate]. Qed.

Lemma all_n_forallb p n s : all_n p n s = true -> forallb p s = true.
Proof. unfold all_n. intros H. now apply andb_prop in H. Qed.

Lemma flagged_line_digits letters s L ds :
  flagged_line letters s = Some (L, ds) -> all_n isDigit 5 ds = true.
Proof.
  unfold flagged_line. destruct s as [|L' r]; [discriminate|].
  destruct (is_letter_of letters L'); [|discriminate].
  destruct r as [|w r']; [discriminate|].
  destruct (isWhiteSpace w && all_n isDigit 5 r') eqn:E.
  - intros [= _ <-]. now apply andb_prop in E.
  - destruct (all_n isDigit 5 (w :: r')) eqn:E'; [|discriminate].
    now intros [= _ <-].
Qed.

Lemma eq_mode_kg (A : Assume) mode :
  eq_mode mode KG5 || (eq_mode mode AUTO && eq_assume A KG)
  = bare_is_kg A mode.
Proof. destruct mode, A; reflexivity. Qed.

(** [parseWeight] returns the first decimal of the trimmed line, its first
    comma replaced by a point. *)
Lemma parseWeight_eq rawIn :
  parseWeight rawIn =
  match first_number (trim rawIn) with
  | Some (_, n) => Some (replace (js ",") (js ".") n)
  | None => None
  end.
Proof.
  unfold parseWeight. rewrite match_weight.
  destruct (first_number (trim rawIn)) as [[j n]|]; reflexivity.
Qed.

(** [parseLineByMode] is the decoder of the specification on the trimmed
    line. *)
Lemma parseLineByMode_eq FACTOR A rawIn mode :
  parseLineByMode FACTOR A rawIn mode = decode FACTOR A mode (trim rawIn).
Proof.
  unfold parseLineByMode, decode, first_match, flagged_variant, bare_variant,
    generic_variant.
  set (line := trim rawIn).
  rewrite match_withFlag.
  destruct (flagged_line (js "PNTBR") line) as [[L ds]|] eqn:Hf.
  - cbn [group groups assoc Nat.eqb].
    pose proof (flagged_line_digits _ _ _ _ Hf) as Hd.
    rewrite (Number_digits ds (all_n_nonempty _ _ _ Hd) (all_n_forallb _ _ _ Hd)).
    reflexivity.
  - rewrite match_only5.
    destruct (all_n isDigit 5 line) eqn:Hb.
    + cbn [group groups assoc Nat.eqb].
      rewrite (Number_digits line (all_n_nonempty _ _ _ Hb)
                 (all_n_forallb _ _ _ Hb)).
      rewrite eq_mode_kg. destruct (bare_is_kg A mode); reflexivity.
    + rewrite match_weight.
      destruct (first_number line) as [[j n]|]; reflexivity.
Qed.

End DecoderFacts.

(** ** The world of the asynchronous functions

    An asynchronous function is a computation over a world: the state of the
    component (what it shows, its refs), the clock, and the serial port.  It
    returns, throws, or stays pending on a promise that never settles. *)

Module Async.
Import JS.

(** A thrown value, for what the program reads of it: [e?.message ?? e]. *)
Record Err : Type := { message : jsstring }.

Inductive Res (A : Type) : Type :=
| Ok (a : A)
| Throw (e : Err)
| Pending.
Arguments Ok {A} a.
Arguments Throw {A} e.
Arguments Pending {A}.

(** [SerialOptions], as the program fills it. *)
Inductive Parity : Type := ParityNone | ParityEven | ParityOdd.

Record SerialOptions : Type := {
  baudRate : N;
  dataBits : N;
  parity : Parity;
  stopBits : N
}.

(** How a stream ends, [at] milliseconds after it was attached: it is closed,
    it fails, or nothing more ever comes. *)
Inductive StreamEnd : Type :=
| Closed (at_ : Z)
| Errored (at_ : Z) (e : Err)
| Silent.

(** What a stream delivers from the moment it is attached: its chunks, each
    with its arrival time in milliseconds after that moment, and its end. *)
Record Script (A : Type) : Type := {
  chunks : list (Z * A);
  ending : StreamEnd
}.
Arguments chunks {A} s.
Arguments ending {A} s.

(** The [SerialPort] of the Web Serial API, as far as the program uses it, over
    a device state [Dev].  [port_setSignals] is [None] for a port without the
    method.  [port_text] is what [port.readable], decoded as text, delivers to
    a new reader; [port_bytes] what it delivers as bytes.  [random_million] is
    [Math.floor(Math.random() * 1e6)]. *)
Class Port (Dev : Type) : Type := {
  reader_releaseLock : Dev -> Res unit * Dev;
  port_close : Dev -> Res unit * Dev;
  port_open : SerialOptions -> Dev -> Res unit * Dev;
  port_setSignals : option (Dev -> Res unit * Dev);
  port_text : Dev -> Res (Script jsstring) * Dev;
  port_bytes : Dev -> Res (Script (list N)) * Dev;
  port_write : list N -> Dev -> Res unit * Dev;
  random_million : Dev -> N * Dev
}.

(** The state the component shows. *)
Record UI : Type := {
  status : jsstring;
  active : bool;
  weight : jsstring;
  rawLine : jsstring;
  configLabel : jsstring;
  log : list jsstring
}.

Record World (Dev : Type) : Type := {
  ui : UI;
  readerRef : bool;       (* [readerRef.current] holds a reader *)
  now : Z;                (* [Date.now()] *)
  dev : Dev
}.
Arguments ui {Dev} w.
Arguments readerRef {Dev} w.
Arguments now {Dev} w.
Arguments dev {Dev} w.

Section Monad.

Context {Dev : Type}.

Definition M (A : Type) : Type := World Dev -> Res A * World Dev.

Definition ret {A : Type} (a : A) : M A := fun w => (Ok a, w).

Definition bind {A B : Type} (m : M A) (f : A -> M B) : M B :=
  fun w =>
    match m w with
    | (Ok a, w1) => f a w1
    | (Throw e, w1) => (Throw e, w1)
    | (Pending, w1) => (Pending, w1)
    end.

Definition throw {A : Type} (e : Err) : M A := fun w => (Throw e, w).

(** [try { m } catch (e) { h e }]: a pending computation is not caught. *)
Definition try_catch {A : Type} (m : M A) (h : Err -> M A) : M A :=
  fun w =>
    match m w with
    | (Throw e, w1) => h e w1
    | r => r
    end.

(** [try { m } finally { f }] *)
Definition try_finally {A : Type} (m : M A) (f : M unit) : M A :=
  fun w =>
    match m w with
    | (Ok a, w1) => bind f (fun _ => ret a) w1
    | (Throw e, w1) => bind f (fun _ => throw e) w1
    | (Pending, w1) => (Pending, w1)
    end.

(** [try { m } catch {}] *)
Definition ignore_errors (m : M unit) : M unit :=
  try_catch m (fun _ => ret tt).

Definition on_dev {A : Type} (op : Dev -> Res A * Dev) : M A :=
  fun w =>
    let (r, d) := op (dev w) in
    (r, {| ui := ui w; readerRef := readerRef w; now := now w; dev := d |}).

Definition set_ui (f : UI -> UI) : M unit :=
  fun w =>
    (Ok tt, {| ui := f (ui w); readerRef := readerRef w; now := now w;
               dev := dev w |}).

Definition Date_now : M Z := fun w => (Ok (now w), w).

(** The clock moves on to [t], if it is not there yet. *)
Definition wait_until (t : Z) : M unit :=
  fun w =>
    (Ok tt, {| ui := ui w; readerRef := readerRef w; now := Z.max (now w) t;
               dev := dev w |}).

(** [await new Promise(r => setTimeout(r, ms))] *)
Definition sleep (ms : Z) : M unit :=
  fun w =>
    (Ok tt, {| ui := ui w; readerRef := readerRef w; now := now w + ms;
               dev := dev w |}).

Definition setStatus (s : jsstring) : M unit :=
  set_ui (fun u => {| status := s; active := active u; weight := weight u;
                      rawLine := rawLine u; configLabel := configLabel u;
                      log := log u |}).

Definition setWeight (s : jsstring) : M unit :=
  set_ui (fun u => {| status := status u; active := active u; weight := s;
                      rawLine := rawLine u; configLabel := configLabel u;
                      log := log u |}).

Definition setRawLine (s : jsstring) : M unit :=
  set_ui (fun u => {| status := status u; active := active u;
                      weight := weight u; rawLine := s;
                      configLabel := configLabel u; log := log u |}).

(** [setLog(p => [line, ...p].slice(0, cap))] *)
Definition setLog (cap : nat) (line : jsstring) : M unit :=
  set_ui (fun u => {| status := status u; active := active u;
                      weight := weight u; rawLine := rawLine u;
                      configLabel := configLabel u;
                      log := firstn cap (line :: log u) |}).

End Monad.

Declare Scope async_scope.
Delimit Scope async_scope with async.
Notation "x <- m ;; k" := (bind m (fun x => k))
  (at level 61, m at next level, right associativity) : async_scope.
Notation "m ;; k" := (bind m (fun _ => k))
  (at level 61, right associativity) : async_scope.

End Async.

(** ** ProbeEngine: what the auto-detecting front ends share *)

Module Probe.
Import JS Regex Numbers Decoder LineFramer Async.
Open Scope async_scope.

Record Setup : Type := {
  setup_dataBits : N;
  setup_parity : Parity;
  setup_stopBits : N;
  setup_name : jsstring
}.

Record DetectedConfig : Type := {
  cfg_baudRate : N;
  cfg_dataBits : N;
  cfg_parity : Parity;
  cfg_stopBits : N;
  cfg_delimiter : jsstring;
  cfg_name : jsstring
}.

(** What [probeOnce] returns: [{ ok: true, sample, raw }] or [{ ok: false }]. *)
Record ProbeResult : Type := {
  probe_ok : bool;
  probe_sample : option jsstring;
  probe_raw : option jsstring
}.

Definition matched (sample raw : jsstring) : ProbeResult :=
  {| probe_ok := true; probe_sample := Some sample; probe_raw := Some raw |}.

Definition unmatched : ProbeResult :=
  {| probe_ok := false; probe_sample := None; probe_raw := None |}.

(** [x!] of a value that may be [undefined], shown as text. *)
Definition shown (x : option jsstring) : jsstring :=
  match x with Some s => s | None => js "undefined" end.

(** The lines a reader of [readable.pipeThrough(makeLineTransformer(d))] gets,
    each at the time of the chunk that completes it; [flush] runs when the
    stream is closed. *)
Fixpoint stream_lines (t : LineTransformer) (cs : list (Z * jsstring))
  (e : StreamEnd) : list (Z * jsstring) :=
  match cs with
  | [] =>
      match e with
      | Closed at_ => map (pair at_) (flush t)
      | _ => []
      end
  | (at_, c) :: cs' =>
      let (out, t1) := transform c t in
      map (pair at_) out ++ stream_lines t1 cs' e
  end.

Section Loop.

Context {Dev : Type} {P : Port Dev}.

(** The read loop of [probeOnce], over the lines still to come: [t0] is the
    time the reader was attached.

    [while (Date.now() < endAt)]: [await reader.read()] settles when the next
    line is there; [done] breaks; an empty trimmed line is skipped; the first
    line [parseWeight] accepts is returned.  After the loop, and before a
    match is returned, [reader.releaseLock()]. *)
Fixpoint probe_loop (endAt t0 : Z) (lines : list (Z * jsstring))
  (e : StreamEnd) : M (Dev := Dev) ProbeResult :=
  t <- Date_now ;;
  if (t <? endAt)%Z then
    match lines with
    | (at_, value) :: lines' =>
        wait_until (t0 + at_) ;;
        let raw := trim value in
        match raw with
        | [] => probe_loop endAt t0 lines' e
        | _ :: _ =>
            match parseWeight raw with
            | Some (c :: parsed) =>
                on_dev reader_releaseLock ;;
                ret (matched (c :: parsed) raw)
            | _ => probe_loop endAt t0 lines' e
            end
        end
    | [] =>
        match e with
        | Closed at_ =>
            wait_until (t0 + at_) ;;
            on_dev reader_releaseLock ;;
            ret unmatched
        | Errored at_ err => wait_until (t0 + at_) ;; throw err
        | Silent => fun w => (Pending, w)
        end
    end
  else
    on_dev reader_releaseLock ;;
    ret unmatched.

(** The three loops of [autoDetect], over a [probeOnce] and the lists of the
    front end.  [None] is [null]. *)
Section AutoDetect.

Variable probeOnce : DetectedConfig -> M (Dev := Dev) ProbeResult.
Variable BAUDS : list N.
Variable SETUPS : list Setup.
Variable DELIMS : list jsstring.

Definition delimiter_label (d : jsstring) : jsstring :=
  if JS.eqb d [CR] then js "CR"
  else if JS.eqb d [CR; LF] then js "CRLF" else js "LF".

Definition candidate (b : N) (s : Setup) (d : jsstring) : DetectedConfig :=
  {| cfg_baudRate := b; cfg_dataBits := setup_dataBits s;
     cfg_parity := setup_parity s; cfg_stopBits := 1;
     cfg_delimiter := d;
     cfg_name := decimal b ++ js " " ++ setup_name s ++ js " "
                 ++ delimiter_label d |}.

(** The body of the innermost loop: [Some cfg] when it returns [cfg] from
    [autoDetect], [None] when the loop goes on. *)
Definition try_candidate (cfg : DetectedConfig)
  : M (Dev := Dev) (option DetectedConfig) :=
  setStatus (js "Probando " ++ cfg_name cfg ++ [8230%N]) ;;
  r <- probeOnce cfg ;;
  if probe_ok r then
    setRawLine (shown (probe_raw r)) ;;
    setWeight (shown (probe_sample r)) ;;
    setLog 80 ([10004%N] ++ js " Detectado " ++ cfg_name cfg
               ++ js " | RAW='" ++ shown (probe_raw r)
               ++ js "' Peso=" ++ shown (probe_sample r)) ;;
    ret (Some cfg)
  else ret None.

Fixpoint for_delims (b : N) (s : Setup) (ds : list jsstring)
  : M (Dev := Dev) (option DetectedConfig) :=
  match ds with
  | [] => ret None
  | d :: ds' =>
      r <- try_candidate (candidate b s d) ;;
      match r with
      | Some cfg => ret (Some cfg)
      | None => for_delims b s ds'
      end
  end.

Fixpoint for_setups (b : N) (ss : list Setup)
  : M (Dev := Dev) (option DetectedConfig) :=
  match ss with
  | [] => ret None
  | s :: ss' =>
      r <- for_delims b s DELIMS ;;
      match r with
      | Some cfg => ret (Some cfg)
      | None => for_setups b ss'
      end
  end.

Fixpoint for_bauds (bs : list N) : M (Dev := Dev) (option DetectedConfig) :=
  match bs with
  | [] => ret None
  | b :: bs' =>
      r <- for_setups b SETUPS ;;
      match r with
      | Some cfg => ret (Some cfg)
      | None => for_bauds bs'
      end
  end.

Definition autoDetect : M (Dev := Dev) (option DetectedConfig) :=
  for_bauds BAUDS.

End AutoDetect.

End Loop.

End Probe.

(** ** The auto-connecting front end (test.tsx) *)

Module ScaleAutoDetectAuto.
Import JS Regex Numbers Decoder LineFramer Async Probe.
Open Scope async_scope.

Definition BAUDS : list N := [1200%N].
Definition SETUPS : list Setup :=
  [ {| setup_dataBits := 7; setup_parity := ParityNone; setup_stopBits := 1;
       setup_name := js "7N1" |};
    {| setup_dataBits := 8; setup_parity := ParityNone; setup_stopBits := 1;
       setup_name := js "8N1" |} ].
Definition DELIMS : list jsstring := [[CR]].
Definition PROBE_MS : Z := 1800.

Section Port.

Context {Dev : Type} {P : Port Dev}.

(** [readerRef.current?.releaseLock()] *)
Definition release_current_reader : M (Dev := Dev) unit :=
  fun w => if readerRef w then on_dev reader_releaseLock w else (Ok tt, w).

(** [if (port.setSignals) await port.setSignals({...})] *)
Definition raise_signals : M (Dev := Dev) unit :=
  match port_setSignals with
  | Some f => on_dev f
  | None => ret tt
  end.

(** [openWithConfig], with the cap of its log and the prefix of its log line
    (80 and "[openWithConfig error] " in test.tsx). *)
Definition openWithConfig_logging (cap : nat) (prefix : jsstring)
  (baudRate dataBits : N) (parity : Parity) (stopBits : N)
  : M (Dev := Dev) unit :=
  ignore_errors release_current_reader ;;
  ignore_errors (on_dev port_close) ;;
  sleep 60 ;;
  try_catch
    (on_dev (port_open {| baudRate := baudRate; dataBits := dataBits;
                          parity := parity; stopBits := stopBits |}) ;;
     raise_signals)
    (fun e =>
       let msg := message e in
       setLog cap (prefix ++ msg) ;;
       setStatus (js "Error abriendo puerto: " ++ msg) ;;
       throw e) ;;
  sleep 40.

Definition openWithConfig := openWithConfig_logging 80 (js "[openWithConfig error] ").

(** [probeOnce]: everything is inside [try]; the handler logs and returns
    [{ ok: false }]. *)
Definition probeOnce (cfg : DetectedConfig) : M (Dev := Dev) ProbeResult :=
  try_catch
    (openWithConfig (cfg_baudRate cfg) (cfg_dataBits cfg) (cfg_parity cfg)
                    (cfg_stopBits cfg) ;;
     text <- on_dev port_text ;;
     t0 <- Date_now ;;
     let lined :=
       stream_lines (makeLineTransformer (cfg_delimiter cfg))
                    (chunks text) (ending text) in
     let endAt := (t0 + PROBE_MS)%Z in
     probe_loop endAt t0 lined (ending text))
    (fun e =>
       setLog 80 (js "[probeOnce] fallo en " ++ cfg_name cfg ++ js ": "
                  ++ message e) ;;
       ret unmatched).

Definition autoDetect : M (Dev := Dev) (option DetectedConfig) :=
  Probe.autoDetect probeOnce BAUDS SETUPS DELIMS.

(** [new TextEncoder().encode(text)] for ASCII text, which the token is: every
    code unit below 128 is its own byte. *)
Definition TextEncoder_encode (text : jsstring) : list N := text.

Definition writeToken (text : jsstring) : M (Dev := Dev) unit :=
  on_dev (port_write (TextEncoder_encode text)).

(** The loop of [readSomeBytes], over the chunks still to come.  A read races
    a timer set to the time left, which ends at the deadline.  The read is the
    first of the two in the race: a chunk that is there by the time the timer
    is set for, that very millisecond included, wins; its bytes are kept, and
    the loop goes on after 5 ms.  Otherwise the timer wins with no value, and
    after the 5 ms the loop test fails. *)
Fixpoint read_loop (deadline t0 : Z) (acc : list N) (cs : list (Z * list N))
  (e : StreamEnd) : M (Dev := Dev) (list N) :=
  t <- Date_now ;;
  if (t <? deadline)%Z then
    let timeLeft := (deadline - t)%Z in
    let timeout_at := (t + Z.max 1 timeLeft)%Z in
    let timed_out := wait_until timeout_at ;; sleep 5 ;; ret acc in
    match cs with
    | (at_, value) :: cs' =>
        if (t0 + at_ <=? timeout_at)%Z then
          wait_until (t0 + at_) ;;
          sleep 5 ;;
          read_loop deadline t0 (acc ++ value) cs' e
        else timed_out
    | [] =>
        match e with
        | Closed at_ =>
            if (t0 + at_ <=? timeout_at)%Z
            then wait_until (t0 + at_) ;; ret acc
            else timed_out
        | Errored at_ err =>
            if (t0 + at_ <=? timeout_at)%Z
            then wait_until (t0 + at_) ;; throw err
            else timed_out
        | Silent => timed_out
        end
    end
  else ret acc.

Definition readSomeBytes (millis : Z) : M (Dev := Dev) (list N) :=
  bytes <- on_dev port_bytes ;;
  t0 <- Date_now ;;
  let deadline := (t0 + millis)%Z in
  try_finally (read_loop deadline t0 [] (chunks bytes) (ending bytes))
              (on_dev reader_releaseLock).

(** [b.toString(16).padStart(2, "0")] of a byte. *)
Definition hex_digit (n : N) : char :=
  if (n <? 10)%N then (48 + n)%N else (87 + n)%N.
Definition hex_byte (b : N) : jsstring :=
  [hex_digit (b / 16); hex_digit (b mod 16)].

(** Whether the token came back: [bytes.join(",").includes(enc.join(","))]. *)
Definition hayEco (bytes enc : list N) : bool :=
  includes (join (js ",") (map decimal bytes)) (join (js ",") (map decimal enc)).

Definition loopbackTest : M (Dev := Dev) bool :=
  openWithConfig 9600 8 ParityNone 1 ;;
  raise_signals ;;
  n <- on_dev (fun d => let (n, d1) := random_million d in (Ok n, d1)) ;;
  let token := js "LBK" ++ decimal n ++ [CR] in
  writeToken token ;;
  bytes <- readSomeBytes 250 ;;
  match bytes with
  | [] => ret false
  | _ :: _ =>
      let enc := TextEncoder_encode token in
      let eco := hayEco bytes enc in
      setLog 80 (js "Loopback RX HEX: " ++ join (js " ") (map hex_byte bytes)) ;;
      ret eco
  end.

End Port.

End ScaleAutoDetectAuto.

(** ** The auto-detecting front end with the wide parameter space
    (the first component of unnamed/part_002) *)

Module ScaleAutoDetectWide.
Import JS Regex Numbers Decoder LineFramer Async Probe.
Open Scope async_scope.

Definition BAUDS : list N := [1200; 2400; 4800; 9600; 19200]%N.
Definition SETUPS : list Setup :=
  [ {| setup_dataBits := 8; setup_parity := ParityNone; setup_stopBits := 1;
       setup_name := js "8N1" |};
    {| setup_dataBits := 7; setup_parity := ParityEven; setup_stopBits := 1;
       setup_name := js "7E1" |} ].
Definition DELIMS : list jsstring := [[CR]; [CR; LF]; [LF]].
Definition PROBE_MS : Z := 1800.

Section Port.

Context {Dev : Type} {P : Port Dev}.

Definition openWithConfig (baudRate dataBits : N) (parity : Parity)
  (stopBits : N) : M (Dev := Dev) unit :=
  ignore_errors ScaleAutoDetectAuto.release_current_reader ;;
  ignore_errors (on_dev port_close) ;;
  on_dev (port_open {| baudRate := baudRate; dataBits := dataBits;
                       parity := parity; stopBits := stopBits |}) ;;
  ScaleAutoDetectAuto.raise_signals.

Definition probeOnce (cfg : DetectedConfig) : M (Dev := Dev) ProbeResult :=
  try_catch
    (openWithConfig (cfg_baudRate cfg) (cfg_dataBits cfg) (cfg_parity cfg)
                    (cfg_stopBits cfg) ;;
     text <- on_dev port_text ;;
     t0 <- Date_now ;;
     let lined :=
       stream_lines (makeLineTransformer (cfg_delimiter cfg))
                    (chunks text) (ending text) in
     let endAt := (t0 + PROBE_MS)%Z in
     probe_loop endAt t0 lined (ending text))
    (fun _ => ret unmatched).

Definition autoDetect : M (Dev := Dev) (option DetectedConfig) :=
  Probe.autoDetect probeOnce BAUDS SETUPS DELIMS.

End Port.

End ScaleAutoDetectWide.

(** ** The front end with the repeated loopback (test2.tsx) *)

Module ScaleAuto.
Import JS Regex Numbers Decoder LineFramer Async Probe.
Open Scope async_scope.

Section Port.

Context {Dev : Type} {P : Port Dev}.

(** [openWithConfig] differs from the one of test.tsx by its log line only. *)
Definition openWithConfig :=
  ScaleAutoDetectAuto.openWithConfig_logging (Dev := Dev) 120
    (js "[openWithConfig] ").

(** One pass of the loop of [loopbackTest]: [Some true] when it returns from
    the function, [None] when the loop goes on.  [attempt] is [i + 1]. *)
Definition loopback_attempt (token : jsstring) (attempt : N)
  : M (Dev := Dev) (option bool) :=
  ScaleAutoDetectAuto.writeToken (token ++ [CR]) ;;
  bytes <- ScaleAutoDetectAuto.readSomeBytes 250 ;;
  r <- match bytes with
       | _ :: _ =>
           setLog 120 (js "[LOOPBACK RX HEX] "
                       ++ join (js " ") (map ScaleAutoDetectAuto.hex_byte bytes)) ;;
           let enc := ScaleAutoDetectAuto.TextEncoder_encode token in
           ret (ScaleAutoDetectAuto.hayEco bytes enc)
       | [] =>
           setLog 120 (js "[LOOPBACK] sin bytes en intento " ++ decimal attempt) ;;
           ret false
       end ;;
  if (r : bool) then ret (Some true)
  else sleep 80 ;; ret None.

Fixpoint loopback_attempts (token : jsstring) (attempts : list N)
  : M (Dev := Dev) bool :=
  match attempts with
  | [] => ret false
  | i :: rest =>
      r <- loopback_attempt token i ;;
      match r with
      | Some b => ret b
      | None => loopback_attempts token rest
      end
  end.

Definition loopbackTest : M (Dev := Dev) bool :=
  openWithConfig 9600 8 ParityNone 1 ;;
  ScaleAutoDetectAuto.raise_signals ;;
  n <- on_dev (fun d => let (n, d1) := random_million d in (Ok n, d1)) ;;
  let token := js "LBK" ++ decimal n in
  loopback_attempts token [1; 2; 3]%N.

End Port.

End ScaleAuto.

(** ** The La Torre display with watchdog and smoothing
    (the second component of test.tsx) *)

Module BalanzaLaTorre.
Import JS Regex Numbers.

Definition FRAME_TIMEOUT_MS : Z := 800.
Definition SMOOTH_WINDOW : nat := 3.

(** [parseLaTorre] of this component: [{ ok, kg? }]. *)
Record LaTorre : Type := {
  ok : bool;
  kg : option number
}.

Definition parseLaTorre (rawIn : jsstring) : LaTorre :=
  let raw := trim rawIn in
  match match_ true Decoder.laTorreRegex raw with
  | None => {| ok := false; kg := None |}
  | Some m =>
      match group 1 m with
      | Some m1 =>
          let grams := Number m1 in
          if negb (isFinite grams) then {| ok := false; kg := None |}
          else {| ok := true; kg := Some (PrimFloat.div grams 1000%float) |}
      | None => {| ok := false; kg := None |}
      end
  end.

(** The state of the component: what it shows and its refs.  [smoothRef] is the
    array [smoothRef.current] refers to; the read loop changes that array in
    place and the watchdog puts a new empty one there, and no step of the one
    runs between two steps of the other on the array. *)
Record State : Type := {
  connected : bool;
  displayKg : jsstring;
  lastSeenRef : Z;
  smoothRef : list number
}.

(** The state [connect] sets up before the read loop starts. *)
Definition connected_state : State :=
  {| connected := true; displayKg := js "0.000"; lastSeenRef := 0;
     smoothRef := [] |}.

(** [arr.reduce((a, b) => a + b, 0) / arr.length] *)
Definition average (arr : list number) : number :=
  PrimFloat.div (fold_left PrimFloat.add arr 0%float)
                (of_Z (Z.of_nat (length arr))).

(** [arr.push(kg); if (arr.length > SMOOTH_WINDOW) arr.shift();] *)
Definition push_shift (kg : number) (arr : list number) : list number :=
  let arr1 := arr ++ [kg] in
  if SMOOTH_WINDOW <? length arr1 then List.tl arr1 else arr1.

(** The body of the read loop for a line read at time [now]. *)
Definition on_line (now : Z) (value : jsstring) (st : State) : State :=
  let raw := trim value in
  match raw with
  | [] => st
  | _ :: _ =>
      let res := parseLaTorre raw in
      match ok res, kg res with
      | true, Some kg =>
          let arr := push_shift kg (smoothRef st) in
          let avg := average arr in
          {| connected := connected st; displayKg := toFixed3 avg;
             lastSeenRef := now; smoothRef := arr |}
      | _, _ => st
      end
  end.

(** Whether a poll of the watchdog at time [now] resets the display. *)
Definition watchdog_fires (now : Z) (st : State) : bool :=
  negb (lastSeenRef st =? 0)%Z && (FRAME_TIMEOUT_MS <? now - lastSeenRef st)%Z.

(** The callback of the watchdog's [setInterval], run at time [now]. *)
Definition watchdog_poll (now : Z) (st : State) : State :=
  if (lastSeenRef st =? 0)%Z then st
  else
    let elapsed := (now - lastSeenRef st)%Z in
    if (FRAME_TIMEOUT_MS <? elapsed)%Z then
      {| connected := connected st; displayKg := js "0.000";
         lastSeenRef := lastSeenRef st; smoothRef := [] |}
    else st.

(** What happens to a connected component: a line is read, or the watchdog
    polls. *)
Inductive Event : Type :=
| Line (now : Z) (value : jsstring)
| Poll (now : Z).

Definition step (st : State) (ev : Event) : State :=
  match ev with
  | Line now value => on_line now value st
  | Poll now => watchdog_poll now st
  end.

Definition run (evs : list Event) (st : State) : State :=
  fold_left step evs st.

(** The resets of the display that a run performs: one for each poll that
    finds the threshold exceeded. *)
Fixpoint resets (evs : list Event) (st : State) : nat :=
  match evs with
  | [] => 0
  | ev :: evs' =>
      (match ev with
       | Poll now => if watchdog_fires now st then 1 else 0
       | Line _ _ => 0
       end) + resets evs' (step st ev)
  end.

End BalanzaLaTorre.

(** * The properties *)

Import JS.

(** ** LineFramer *)

(** C1.  For every delimiter and every way of cutting a text into chunks (empty
    chunks included), the lines the transformer emits, [transform] on each
    chunk and [flush] at the end of the stream, are the lines of the whole
    text: every segment that a delimiter ends, in order, then the tail if it is
    not empty.  *)
Theorem LineFramer_chunk_independence :
  forall (D : jsstring) (chunks : list jsstring),
    LineFramer.pipeThrough chunks (LineFramer.makeLineTransformer D)
    = LineFramer.lines_of_text D (concat chunks).
Proof.
  intros D chunks. unfold LineFramer.pipeThrough, LineFramer.lines_of_text.
  destruct (LineFramer.fresh_stable D) as [Hs Ht].
  rewrite (LineFramer.feed_eq chunks (LineFramer.makeLineTransformer D) Hs Ht).
  cbn [LineFramer.makeLineTransformer LineFramer.delimiter LineFramer.buffer
       app].
  unfold LineFramer.flush, LineFramer.segs, LineFramer.tail.
  cbn [LineFramer.buffer].
  destruct (last (split D (concat chunks)) []); reflexivity.
Qed.

(** The lines of a text, joined again by the delimiter, are the text: the
    segments are what the delimiter separates. *)
Lemma split_join (c : char) (sep s : jsstring) :
  join (c :: sep) (split (c :: sep) s) = s.
Proof.
  unfold split. remember (length s) as n eqn:Hn.
  revert s Hn; induction n as [n IH] using lt_wf_ind; intros s Hn.
  rewrite split_from_eq.
  destruct (indexOf (c :: sep) s) as [i|] eqn:Hi; [|reflexivity].
  pose proof (indexOf_bound _ _ _ Hi) as Hb.
  set (s' := skipn (i + length (c :: sep)) s).
  assert (Hlt : length s' < n).
  { unfold s'. rewrite length_skipn. simpl in *. lia. }
  pose proof (IH _ Hlt s' eq_refl) as IHs.
  pose proof (split_from_nonempty c sep s') as Hne.
  destruct (split_from c sep s') as [|p ps] eqn:Hsp; [congruence|].
  change (join (c :: sep) (firstn i s :: p :: ps))
    with (firstn i s ++ (c :: sep) ++ join (c :: sep) (p :: ps)).
  rewrite IHs. unfold s'.
  assert (Hocc : startsWith (c :: sep) (skipn i s) = true).
  { clear - Hi. revert i Hi; induction s as [|x s IHs]; intros i;
      cbn [indexOf]; destruct (startsWith (c :: sep) _) eqn:E.
    - intros [= <-]. exact E.
    - discriminate.
    - intros [= <-]. exact E.
    - destruct (indexOf (c :: sep) s) as [j|]; [|discriminate].
      intros [= <-]. cbn [skipn]. now apply IHs. }
  apply startsWith_spec in Hocc as [r Hr].
  rewrite (Nat.add_comm i), <- skipn_skipn, Hr.
  rewrite skipn_app, skipn_all, Nat.sub_diag. cbn [skipn app].
  change (firstn i s ++ c :: sep ++ r) with (firstn i s ++ (c :: sep) ++ r).
  rewrite <- Hr. apply firstn_skipn.
Qed.

Example LineFramer_delimiter_across_chunks :
  LineFramer.pipeThrough [js "P 00"; js "120"; [CR]; [LF]; js "N 5"; [CR; LF; CR];
                          [LF]; js "tail"]
                         (LineFramer.makeLineTransformer [CR; LF])
  = [js "P 00120"; js "N 5"; []; js "tail"].
Proof. reflexivity. Qed.

(** ** TelegramDecoder *)

Module DecoderProps.
Import Regex RegexFacts Numbers Decoder Shapes NumberFacts TelegramSpec
       DecoderFacts.

(** One of the status letters P, N, T, B, R. *)
Definition is_status_letter (L : char) : bool := existsb (N.eqb L) (js "PNTBR").

Lemma status_letter_cases L :
  is_status_letter L = true ->
  (L = 80 \/ L = 78 \/ L = 84 \/ L = 66 \/ L = 82)%N.
Proof.
  unfold is_status_letter. cbn [js existsb char_of_ascii].
  rewrite !orb_true_iff, !N.eqb_eq. change (N_of_ascii "P") with 80%N.
  change (N_of_ascii "N") with 78%N. change (N_of_ascii "T") with 84%N.
  change (N_of_ascii "B") with 66%N. change (N_of_ascii "R") with 82%N.
  intuition discriminate.
Qed.

Lemma status_letter_facts L :
  is_status_letter L = true ->
  is_letter_of (js "PNTBR") L = true /\ is_letter_of (js "PN TBR") L = true
  /\ isWhiteSpace L = false /\ canonicalize true L = L.
Proof.
  intros H. apply status_letter_cases in H.
  repeat (destruct H as [-> | H]; [repeat split; reflexivity|]).
  subst; repeat split; reflexivity.
Qed.

Lemma forallb_last (p : char -> bool) (s : jsstring) (d : char) :
  s <> [] -> forallb p s = true -> p (last s d) = true.
Proof.
  intros Hne H. rewrite (app_removelast_last d Hne) in H.
  rewrite forallb_app in H. apply andb_prop in H as [_ H].
  simpl in H. now rewrite andb_true_r in H.
Qed.

(** A flagged line is its own trim, and has the flagged shape. *)
Lemma flagged_shape_facts L sp ds :
  is_status_letter L = true -> sp = [] \/ sp = js " " ->
  all_n isDigit 5 ds = true ->
  trim (L :: sp ++ ds) = L :: sp ++ ds
  /\ flagged_line (js "PNTBR") (L :: sp ++ ds) = Some (L, ds)
  /\ flagged_line (js "PN TBR") (L :: sp ++ ds) = Some (L, ds).
Proof.
  intros HL Hsp Hds.
  destruct (status_letter_facts L HL) as (H1 & H2 & HLws & _).
  pose proof (all_n_nonempty _ _ _ Hds) as Hne.
  pose proof (all_n_forallb _ _ _ Hds) as Hfa.
  assert (Hlast : isWhiteSpace (last (L :: sp ++ ds) L) = false).
  { apply isDigit_not_ws.
    change (L :: sp ++ ds) with (([L] ++ sp) ++ ds).
    rewrite (LineFramer.last_app_r _ ds L Hne).
    now apply forallb_last. }
  split; [now apply trim_id|].
  unfold flagged_line. rewrite H1, H2.
  destruct Hsp as [-> | ->].
  - cbn [app]. destruct ds as [|d ds']; [contradiction|].
    pose proof Hfa as Hd. cbn [forallb] in Hd. apply andb_prop in Hd as [Hd _].
    rewrite (isDigit_not_ws d Hd). cbn [andb]. rewrite Hds. split; reflexivity.
  - cbn [js app]. change (isWhiteSpace (char_of_ascii " ")) with true.
    cbn [andb]. rewrite Hds. split; reflexivity.
Qed.

End DecoderProps.

(** C6.  A status letter among P, N, T, B, R, at most one space and exactly 5
    digits decode as a flagged match whose value is the digits, read as an
    integer, times the factor for grams ([FACTOR.GRAMS] of [parseLineByMode],
    [SCALE_FACTOR] of [parseLatorre5]).  Exactly 5 bare digits decode to the
    digits times the factor of the configured assumption: [FACTOR.KG] when the
    mode is KG5, or AUTO with 5 digits assumed to be KG, [FACTOR.GRAMS]
    otherwise.  With the factors 0.001 and 1 of the file, "P 12345" and, as
    grams, "12345" give 12.345, and "12345" as KG gives 12345. *)
Theorem fixed_digit_values :
  forall (FACTOR : Decoder.Factor) (A : Decoder.Assume)
         (SCALE_FACTOR : Numbers.number) (mode : Decoder.Mode)
         (L : char) (sp ds : jsstring),
    DecoderProps.is_status_letter L = true ->
    sp = [] \/ sp = js " " ->
    Shapes.all_n Regex.isDigit 5 ds = true ->
    Decoder.parseLineByMode FACTOR A (L :: sp ++ ds) mode
    = {| Decoder.ok := true; Decoder.raw := L :: sp ++ ds;
         Decoder.kg := Some (PrimFloat.mul (Numbers.of_Z (Numbers.digits_value ds))
                                           (Decoder.FACTOR_GRAMS FACTOR));
         Decoder.src := Some Decoder.SRC_GRAMS5_P;
         Decoder.flag := Some [L] |}
    /\ (exists valueStr,
          Decoder.parseLatorre5 SCALE_FACTOR (L :: sp ++ ds)
          = Some {| Decoder.value :=
                      PrimFloat.mul (Numbers.of_Z (Numbers.digits_value ds))
                                    SCALE_FACTOR;
                    Decoder.valueStr := valueStr;
                    Decoder.source := js "L1001(" ++ [L] ++ js ")" |})
    /\ Decoder.parseLineByMode FACTOR A ds mode
       = (if TelegramSpec.bare_is_kg A mode
          then {| Decoder.ok := true; Decoder.raw := ds;
                  Decoder.kg := Some (PrimFloat.mul
                                        (Numbers.of_Z (Numbers.digits_value ds))
                                        (Decoder.FACTOR_KG FACTOR));
                  Decoder.src := Some Decoder.SRC_KG5; Decoder.flag := None |}
          else {| Decoder.ok := true; Decoder.raw := ds;
                  Decoder.kg := Some (PrimFloat.mul
                                        (Numbers.of_Z (Numbers.digits_value ds))
                                        (Decoder.FACTOR_GRAMS FACTOR));
                  Decoder.src := Some Decoder.SRC_GRAMS5; Decoder.flag := None |})
    /\ Decoder.kg (Decoder.parseLineByMode Decoder.FACTOR_file Decoder.GRAMS
                     (js "P 12345") Decoder.AUTO) = Some 12.345%float
    /\ Decoder.kg (Decoder.parseLineByMode Decoder.FACTOR_file Decoder.GRAMS
                     (js "12345") Decoder.AUTO) = Some 12.345%float
    /\ Decoder.kg (Decoder.parseLineByMode Decoder.FACTOR_file Decoder.KG
                     (js "12345") Decoder.AUTO) = Some 12345%float.
Proof.
  intros FACTOR A SF mode L sp ds HL Hsp Hds.
  destruct (DecoderProps.flagged_shape_facts L sp ds HL Hsp Hds)
    as (Htrim & Hf & Hf').
  destruct (DecoderProps.status_letter_facts L HL) as (_ & _ & _ & Hcanon).
  pose proof (DecoderFacts.all_n_nonempty _ _ _ Hds) as Hne.
  pose proof (DecoderFacts.all_n_forallb _ _ _ Hds) as Hfa.
  split; [|split; [|split]].
  - rewrite DecoderFacts.parseLineByMode_eq, Htrim.
    unfold TelegramSpec.decode, TelegramSpec.first_match,
      TelegramSpec.flagged_variant.
    rewrite Hf, Hcanon. reflexivity.
  - unfold Decoder.parseLatorre5. rewrite Htrim, Shapes.match_latorre5, Hf'.
    cbn [Regex.group Regex.groups Regex.assoc Nat.eqb].
    rewrite (NumberFacts.parseInt10_digits ds Hne Hfa).
    destruct (NumberFacts.all_n_digits_finite 5 ds) as [_ Hnan];
      [lia | exact Hds |].
    rewrite Hnan. eexists.
    unfold Regex.toUpperCase. cbn [map]. rewrite Hcanon. reflexivity.
  - rewrite DecoderFacts.parseLineByMode_eq.
    assert (Htrim5 : Regex.trim ds = ds).
    { destruct ds as [|d ds']; [contradiction|].
      pose proof Hfa as Hd. cbn [forallb] in Hd.
      apply andb_prop in Hd as [Hd _].
      apply NumberFacts.trim_id.
      - now apply NumberFacts.isDigit_not_ws.
      - apply NumberFacts.isDigit_not_ws.
        apply DecoderProps.forallb_last; [discriminate | exact Hfa]. }
    rewrite Htrim5.
    unfold TelegramSpec.decode, TelegramSpec.first_match,
      TelegramSpec.flagged_variant, TelegramSpec.bare_variant.
    assert (Hnf : Shapes.flagged_line (js "PNTBR") ds = None).
    { unfold Shapes.flagged_line. destruct ds as [|d r]; [reflexivity|].
      destruct (Shapes.is_letter_of (js "PNTBR") d); [|reflexivity].
      destruct r as [|w r']; [reflexivity|].
      unfold Shapes.all_n in *. cbn [length] in *.
      apply andb_prop in Hds as [Hl _]. apply Nat.eqb_eq in Hl.
      assert (E1 : Nat.eqb (length r') 5 = false) by (apply Nat.eqb_neq; lia).
      assert (E2 : Nat.eqb (S (length r')) 5 = false)
        by (apply Nat.eqb_neq; lia).
      rewrite E1, E2. cbn [andb]. now rewrite andb_false_r. }
    rewrite Hnf, Hds. destruct (TelegramSpec.bare_is_kg A mode); reflexivity.
  - repeat split; reflexivity.
Qed.

(** The flagged telegram "P 12345" and its 5 digits as a witness. *)
Lemma fixed_digit_values_witness :
  Decoder.parseLineByMode Decoder.FACTOR_file Decoder.GRAMS (js "P 12345")
                          Decoder.AUTO
  = {| Decoder.ok := true; Decoder.raw := js "P 12345";
       Decoder.kg := Some (PrimFloat.mul
                             (Numbers.of_Z (Numbers.digits_value (js "12345")))
                             0.001%float);
       Decoder.src := Some Decoder.SRC_GRAMS5_P;
       Decoder.flag := Some (js "P") |}.
Proof.
  exact (proj1 (fixed_digit_values Decoder.FACTOR_file Decoder.GRAMS
                  Decoder.SCALE_FACTOR_file Decoder.AUTO
                  80%N (js " ") (js "12345")
                  eq_refl (or_intror eq_refl) eq_refl)).
Defined.

(** The marker of the La Torre telegram in either case: D or d. *)
Lemma marker_either_case (L : char) :
  N.eqb (Regex.canonicalize true 68%N) (Regex.canonicalize true L) = true
  <-> (L = 68 \/ L = 100)%N.
Proof.
  change (Regex.canonicalize true 68%N) with 68%N.
  unfold Regex.canonicalize. cbn [andb].
  destruct ((97 <=? L)%N && (L <=? 122)%N) eqn:E; rewrite N.eqb_eq.
  - apply andb_prop in E as [E1 E2]. apply N.leb_le in E1, E2. lia.
  - apply andb_false_iff in E as [E|E]; apply N.leb_gt in E; lia.
Qed.

(** C7, as the code has it.  [parseLaTorre] accepts exactly the trimmed lines
    made of the letter D in either case (D or d) followed by exactly 6 digits,
    and returns the digits, read as an integer, divided by 1000; no scale
    factor takes part.  Every other line is rejected.  "D025500" decodes to
    25.5.  The same holds of the [parseLaTorre] of the display with the
    watchdog. *)
Theorem parseLaTorre_prefix_either_case :
  forall rawIn : jsstring,
    Decoder.parseLaTorre rawIn
    = match Shapes.prefixed_line (Regex.trim rawIn) with
      | Some ds =>
          {| Decoder.lt_ok := true; Decoder.lt_raw := Regex.trim rawIn;
             Decoder.lt_kg :=
               Some (PrimFloat.div (Numbers.of_Z (Numbers.digits_value ds))
                                   1000%float) |}
      | None =>
          {| Decoder.lt_ok := false; Decoder.lt_raw := Regex.trim rawIn;
             Decoder.lt_kg := None |}
      end
    /\ BalanzaLaTorre.parseLaTorre rawIn
       = match Shapes.prefixed_line (Regex.trim rawIn) with
         | Some ds =>
             {| BalanzaLaTorre.ok := true;
                BalanzaLaTorre.kg :=
                  Some (PrimFloat.div (Numbers.of_Z (Numbers.digits_value ds))
                                      1000%float) |}
         | None => {| BalanzaLaTorre.ok := false; BalanzaLaTorre.kg := None |}
         end
    /\ (forall ds, Shapes.prefixed_line (Regex.trim rawIn) = Some ds <->
                   exists L, Regex.trim rawIn = L :: ds
                             /\ (L = 68 \/ L = 100)%N
                             /\ Shapes.all_n Regex.isDigit 6 ds = true)
    /\ Decoder.parseLaTorre (js "D025500")
       = {| Decoder.lt_ok := true; Decoder.lt_raw := js "D025500";
            Decoder.lt_kg := Some 25.5%float |}.
Proof.
  intros rawIn.
  assert (Hnum : forall ds, Shapes.prefixed_line (Regex.trim rawIn) = Some ds ->
                   Numbers.Number ds = Numbers.of_Z (Numbers.digits_value ds)
                   /\ Numbers.isFinite (Numbers.Number ds) = true).
  { intros ds H. unfold Shapes.prefixed_line in H.
    destruct (Regex.trim rawIn) as [|L r]; [discriminate|].
    destruct (N.eqb _ _ && Shapes.all_n Regex.isDigit 6 r) eqn:E;
      [|discriminate].
    injection H as <-. apply andb_prop in E as [_ E].
    rewrite (NumberFacts.Number_digits r
               (DecoderFacts.all_n_nonempty _ _ _ E)
               (DecoderFacts.all_n_forallb _ _ _ E)).
    split; [reflexivity|].
    now apply (NumberFacts.all_n_digits_finite 6 r). }
  split; [|split; [|split]].
  - unfold Decoder.parseLaTorre. rewrite Shapes.match_laTorre.
    destruct (Shapes.prefixed_line (Regex.trim rawIn)) as [ds|] eqn:Hp;
      [|reflexivity].
    cbn [Regex.group Regex.groups Regex.assoc Nat.eqb].
    destruct (Hnum ds eq_refl) as [Hn Hf]. rewrite Hf, Hn. reflexivity.
  - unfold BalanzaLaTorre.parseLaTorre. rewrite Shapes.match_laTorre.
    destruct (Shapes.prefixed_line (Regex.trim rawIn)) as [ds|] eqn:Hp;
      [|reflexivity].
    cbn [Regex.group Regex.groups Regex.assoc Nat.eqb].
    destruct (Hnum ds eq_refl) as [Hn Hf]. rewrite Hf, Hn. reflexivity.
  - intros ds. unfold Shapes.prefixed_line.
    destruct (Regex.trim rawIn) as [|L r].
    + split; [discriminate | intros (L & H & _); discriminate].
    + split.
      * destruct (N.eqb _ _ && Shapes.all_n Regex.isDigit 6 r) eqn:E;
          [|discriminate].
        intros [= <-]. apply andb_prop in E as [E1 E2].
        exists L. split; [reflexivity|]. split; [|exact E2].
        now apply marker_either_case.
      * intros (L' & [= <- <-] & HL & Hd).
        apply marker_either_case in HL. now rewrite HL, Hd.
  - reflexivity.
Qed.

(** C7, as the claim has it, fails: the line "d025500" does not start with the
    letter D, and is decoded all the same. *)
Lemma parseLaTorre_accepts_lower_case_marker :
  Regex.trim (js "d025500") = js "d025500"
  /\ (forall ds, js "d025500" <> 68%N :: ds)
  /\ Decoder.parseLaTorre (js "d025500")
     = {| Decoder.lt_ok := true; Decoder.lt_raw := js "d025500";
          Decoder.lt_kg := Some 25.5%float |}.
Proof.
  split; [reflexivity|]. split; [|reflexivity].
  intros ds H. discriminate H.
Qed.


(** ** The generic decimal on runs that exceed its bounds *)

Module GenericProps.
Import Regex RegexFacts Numbers Decoder Shapes NumberFacts TelegramSpec
       DecoderFacts.

Definition no_digit (s : jsstring) : bool :=
  forallb (fun c => negb (isDigit c)) s.

(** No sign, or one sign. *)
Definition is_opt_sign (sgn : jsstring) : bool :=
  match sgn with
  | [] => true
  | [c] => is_sign c
  | _ => false
  end.

Definition starts_without_digit (s : jsstring) : bool :=
  match s with
  | [] => true
  | c :: _ => negb (isDigit c)
  end.

Lemma take_all p n a b :
  forallb p a = true -> n <= length a -> take p n (a ++ b) = firstn n a.
Proof.
  revert a; induction n as [|n IH]; intros a H Hl; [reflexivity|].
  destruct a as [|x a]; [simpl in Hl; lia|].
  cbn [app take firstn forallb length] in *.
  apply andb_prop in H as [Hx Ha]. rewrite Hx. f_equal.
  apply IH; [exact Ha | lia].
Qed.

Lemma take_stop p n a b :
  forallb p a = true -> length a <= n ->
  match b with [] => true | c :: _ => negb (p c) end = true ->
  take p n (a ++ b) = a.
Proof.
  revert a; induction n as [|n IH]; intros a H Hl Hb.
  - destruct a; [reflexivity | simpl in Hl; lia].
  - destruct a as [|x a].
    + cbn [app]. destruct b as [|c b]; [reflexivity|].
      apply negb_true_iff in Hb. cbn [take]. now rewrite Hb.
    + cbn [app take forallb length] in *.
      apply andb_prop in H as [Hx Ha]. rewrite Hx. f_equal.
      apply IH; [exact Ha | lia | exact Hb].
Qed.

Lemma digit_not_separator c : isDigit c = true -> is_separator c = false.
Proof.
  intros H. apply isDigit_range in H. unfold is_separator.
  apply orb_false_iff. split; apply N.eqb_neq; lia.
Qed.

Lemma digit_not_sign c : isDigit c = true -> is_sign c = false.
Proof.
  intros H. destruct (is_sign c) eqn:E; [|reflexivity].
  apply is_sign_not_digit in E. congruence.
Qed.

Lemma separator_not_digit c : is_separator c = true -> isDigit c = false.
Proof.
  intros H. destruct (isDigit c) eqn:E; [|reflexivity].
  apply digit_not_separator in E. congruence.
Qed.

(** More than 6 digits: the first 6 are taken, and no fraction, a digit
    following them. *)
Lemma unsigned_at_long ds rest :
  forallb isDigit ds = true -> 6 < length ds ->
  unsigned_at (ds ++ rest) = Some (firstn 6 ds).
Proof.
  intros Hd Hl. unfold unsigned_at.
  rewrite (take_all isDigit 6 ds rest Hd) by lia.
  assert (Hlen : length (firstn 6 ds) = 6) by (rewrite length_firstn; lia).
  destruct (firstn 6 ds) as [|x ip] eqn:Hf; [discriminate|].
  rewrite Hlen, skipn_app.
  replace (6 - length ds) with 0 by lia. rewrite skipn_O.
  assert (Hs : forallb isDigit (skipn 6 ds) = true).
  { rewrite <- (firstn_skipn 6 ds) in Hd. rewrite forallb_app in Hd.
    now apply andb_prop in Hd. }
  destruct (skipn 6 ds) as [|y r] eqn:Hsk.
  - apply (f_equal (@length _)) in Hsk. rewrite length_skipn in Hsk.
    simpl in Hsk. lia.
  - cbn [forallb] in Hs. apply andb_prop in Hs as [Hy _].
    cbn [app fraction_at]. rewrite (digit_not_separator y Hy).
    now rewrite app_nil_r.
Qed.

(** 1 to 6 digits, a separator and more than 3 digits: the fraction is cut
    after its third digit. *)
Lemma unsigned_at_fraction ip sep fp rest :
  ip <> [] -> forallb isDigit ip = true -> length ip <= 6 ->
  is_separator sep = true -> forallb isDigit fp = true -> 3 < length fp ->
  unsigned_at (ip ++ sep :: fp ++ rest) = Some (ip ++ sep :: firstn 3 fp).
Proof.
  intros Hne Hip Hl Hsep Hfp Hlf. unfold unsigned_at.
  rewrite (take_stop isDigit 6 ip (sep :: fp ++ rest) Hip Hl)
    by (cbn; now rewrite (separator_not_digit sep Hsep)).
  destruct ip as [|x ip']; [contradiction|].
  rewrite skipn_app, skipn_all, Nat.sub_diag. cbn [app skipn fraction_at].
  rewrite Hsep, (take_all isDigit 3 fp rest Hfp) by lia.
  destruct (firstn 3 fp) as [|y r] eqn:Hf; [|reflexivity].
  apply (f_equal (@length _)) in Hf. rewrite length_firstn in Hf.
  cbn [length] in Hf. lia.
Qed.

Lemma unsigned_at_starts_with_digit s n :
  unsigned_at s = Some n -> exists d r, s = d :: r /\ isDigit d = true.
Proof.
  unfold unsigned_at. destruct s as [|d r]; [discriminate|].
  cbn [take]. destruct (isDigit d) eqn:E; [|discriminate].
  intros _. now exists d, r.
Qed.

Lemma number_at_signed sgn u n :
  is_opt_sign sgn = true -> unsigned_at u = Some n ->
  number_at (sgn ++ u) = Some (sgn ++ n).
Proof.
  intros Hs Hu. destruct sgn as [|c [|c' sgn']]; [| |discriminate].
  - cbn [app].
    destruct (unsigned_at_starts_with_digit u n Hu) as (d & r & -> & Hd).
    unfold number_at. now rewrite (digit_not_sign d Hd).
  - cbn [app is_opt_sign] in *. unfold number_at. rewrite Hs, Hu. reflexivity.
Qed.

Lemma number_at_no_start c s :
  isDigit c = false ->
  (is_sign c = true -> starts_without_digit s = true) ->
  number_at (c :: s) = None.
Proof.
  intros Hc Hs. unfold number_at.
  assert (Hu : unsigned_at (c :: s) = None).
  { unfold unsigned_at. cbn [take]. now rewrite Hc. }
  destruct (is_sign c); [|exact Hu].
  specialize (Hs eq_refl). unfold unsigned_at.
  destruct s as [|d r]; [reflexivity|].
  cbn in Hs. apply negb_true_iff in Hs. cbn [take]. now rewrite Hs.
Qed.

(** The first decimal of a line is found after a prefix that holds no digit
    and does not end with a sign before a digit. *)
Lemma first_number_skip pre body n :
  no_digit pre = true ->
  (is_sign (last pre 0%N) = true -> starts_without_digit body = true) ->
  number_at body = Some n ->
  first_number (pre ++ body) = Some (length pre, n).
Proof.
  intros Hpre Hlast Hn. induction pre as [|c pre IH].
  - cbn [app length]. destruct body as [|b body']; [discriminate|].
    cbn [first_number]. now rewrite Hn.
  - cbn [no_digit forallb] in Hpre. apply andb_prop in Hpre as [Hc Hpre].
    apply negb_true_iff in Hc.
    change ((c :: pre) ++ body) with (c :: (pre ++ body)).
    cbn [first_number].
    rewrite number_at_no_start; [| exact Hc |].
    + rewrite IH; [reflexivity | exact Hpre |].
      destruct pre as [|x pre']; [discriminate | exact Hlast].
    + intros Hsign. destruct pre as [|x pre'].
      * cbn [app]. apply Hlast. exact Hsign.
      * cbn [app starts_without_digit]. cbn [no_digit forallb] in Hpre.
        now apply andb_prop in Hpre.
Qed.

Definition no_comma (s : jsstring) : bool :=
  forallb (fun c => negb (N.eqb 44 c)) s.

Lemma indexOf_comma_cons (c : char) (s : jsstring) :
  indexOf (js ",") (c :: s)
  = if N.eqb 44 c then Some 0 else option_map S (indexOf (js ",") s).
Proof.
  cbn [indexOf]. replace (startsWith (js ",") (c :: s)) with (N.eqb 44 c).
  - reflexivity.
  - cbn [js startsWith]. now rewrite andb_true_r.
Qed.

Lemma indexOf_comma_none (s : jsstring) :
  no_comma s = true -> indexOf (js ",") s = None.
Proof.
  induction s as [|c s IH]; [reflexivity|].
  cbn [no_comma forallb]. intros H. apply andb_prop in H as [Hc Hs].
  apply negb_true_iff in Hc.
  rewrite indexOf_comma_cons, Hc. now rewrite (IH Hs).
Qed.

Lemma indexOf_comma_first (a s : jsstring) (c : char) :
  no_comma a = true -> c = 44%N ->
  indexOf (js ",") (a ++ c :: s) = Some (length a).
Proof.
  intros Ha Hc. induction a as [|x a IH].
  - cbn [app]. rewrite indexOf_comma_cons. subst c. reflexivity.
  - cbn [no_comma forallb] in Ha. apply andb_prop in Ha as [Hx Ha].
    apply negb_true_iff in Hx.
    change ((x :: a) ++ c :: s) with (x :: (a ++ c :: s)).
    rewrite indexOf_comma_cons, Hx. now rewrite (IH Ha).
Qed.

(** The separator of a decimal becomes a point. *)
Lemma replace_separator a sep b :
  no_comma a = true -> no_comma b = true -> is_separator sep = true ->
  replace (js ",") (js ".") (a ++ sep :: b) = a ++ 46%N :: b.
Proof.
  intros Ha Hb Hsep. unfold replace, is_separator in *.
  apply orb_prop in Hsep as [H|H]; apply N.eqb_eq in H.
  - rewrite indexOf_comma_none; [now rewrite H|].
    unfold no_comma. rewrite forallb_app.
    apply andb_true_intro; split; [exact Ha|].
    cbn [forallb]. apply andb_true_intro; split; [|exact Hb].
    rewrite H. reflexivity.
  - rewrite (indexOf_comma_first a b sep Ha H).
    rewrite firstn_app, firstn_all, Nat.sub_diag, firstn_O, app_nil_r.
    rewrite skipn_app, skipn_all2 by (cbn; lia).
    replace (length a + length (js ",") - length a) with 1 by (cbn; lia).
    reflexivity.
Qed.

Lemma digits_no_comma s : forallb isDigit s = true -> no_comma s = true.
Proof.
  unfold no_comma. induction s as [|c s IH]; [reflexivity|].
  cbn [forallb]. intros H. apply andb_prop in H as [Hc Hs].
  rewrite (IH Hs), andb_true_r. apply negb_true_iff, N.eqb_neq.
  apply isDigit_range in Hc. lia.
Qed.

Lemma opt_sign_no_comma sgn : is_opt_sign sgn = true -> no_comma sgn = true.
Proof.
  destruct sgn as [|c [|c' s]]; [reflexivity| |discriminate].
  cbn [is_opt_sign no_comma forallb]. unfold is_sign. intros H.
  rewrite andb_true_r. apply negb_true_iff, N.eqb_neq.
  apply orb_prop in H as [H|H]; apply N.eqb_eq in H; lia.
Qed.

Lemma Number_signed_digits sgn ds :
  is_opt_sign sgn = true -> ds <> [] -> forallb isDigit ds = true ->
  length ds <= 6 ->
  isFinite (Number (sgn ++ ds)) = true.
Proof.
  intros Hs Hne Hd Hl.
  assert (Hr : (0 <= digits_value ds < 1000000)%Z).
  { pose proof (digits_value_bound ds Hd) as Hb.
    assert (10 ^ Z.of_nat (length ds) <= 10 ^ 6)%Z
      by (apply Z.pow_le_mono_r; lia).
    change (10 ^ 6)%Z with 1000000%Z in *. lia. }
  destruct (integers_finite _ Hr) as (Hf & _ & Ho).
  pose proof (unsigned_literal_digits ds Hne Hd) as Hu.
  destruct sgn as [|c [|c' s]]; [| |discriminate].
  - cbn [app]. now rewrite (Number_digits ds Hne Hd).
  - cbn [is_opt_sign] in Hs. unfold is_sign in Hs.
    apply orb_prop in Hs as [H|H]; apply N.eqb_eq in H; subst c;
      cbn [app Number]; now rewrite Hu.
  Qed.

(** An upper-case ASCII letter of a pattern matches itself and its lower-case
    letter under the [i] flag. *)
Lemma canonicalize_letter (a L : char) :
  (65 <= a <= 90)%N ->
  N.eqb (canonicalize true a) (canonicalize true L) = true
  <-> (L = a \/ L = a + 32)%N.
Proof.
  intros Ha. unfold canonicalize. cbn [andb].
  replace ((97 <=? a)%N && (a <=? 122)%N) with false
    by (symmetry; apply andb_false_iff; left; apply N.leb_gt; lia).
  destruct ((97 <=? L)%N && (L <=? 122)%N) eqn:E; rewrite N.eqb_eq.
  - apply andb_prop in E as [E1 E2]. apply N.leb_le in E1, E2. lia.
  - apply andb_false_iff in E as [E|E]; apply N.leb_gt in E; lia.
Qed.

Lemma status_letter_of_not_digit L :
  is_letter_of (js "PNTBR") L = true ->
  isDigit L = false /\ is_separator L = false.
Proof.
  unfold is_letter_of. cbn [js existsb]. rewrite !orb_true_iff.
  intros H.
  assert (HL : (L = 80 \/ L = 112 \/ L = 78 \/ L = 110 \/ L = 84 \/ L = 116
                \/ L = 66 \/ L = 98 \/ L = 82 \/ L = 114)%N).
  { repeat (destruct H as [H|H];
            [apply canonicalize_letter in H; [cbn in H; lia | cbn; lia]|]).
    discriminate. }
  repeat (destruct HL as [-> | HL]; [split; reflexivity|]).
  subst; split; reflexivity.
Qed.

Lemma flagged_line_members letters s L ds :
  flagged_line letters s = Some (L, ds) ->
  (length s <= 7
   /\ exists r, s = L :: r /\ is_letter_of letters L = true)
  /\ forall c, In c s ->
       is_letter_of letters c = true \/ isWhiteSpace c = true
       \/ isDigit c = true.
Proof.
  unfold flagged_line. destruct s as [|L' r]; [discriminate|].
  destruct (is_letter_of letters L') eqn:HL; [|discriminate].
  destruct r as [|w r']; [discriminate|].
  destruct (isWhiteSpace w && all_n isDigit 5 r') eqn:E.
  - intros [= <- <-]. apply andb_prop in E as [Hw Hd].
    pose proof (all_n_forallb _ _ _ Hd) as Hfa.
    unfold all_n in Hd. apply andb_prop in Hd as [Hl _].
    apply Nat.eqb_eq in Hl. split.
    + split; [cbn [length]; lia|]. now exists (w :: r').
    + intros c [<- | [<- | Hc]]; [now left | now right; left |].
      right; right. rewrite forallb_forall in Hfa. now apply Hfa.
  - destruct (all_n isDigit 5 (w :: r')) eqn:Hd; [|discriminate].
    intros [= <- <-].
    pose proof (all_n_forallb _ _ _ Hd) as Hfa.
    unfold all_n in Hd. apply andb_prop in Hd as [Hl _].
    apply Nat.eqb_eq in Hl. split.
    + split; [cbn [length] in *; lia|]. now exists (w :: r').
    + intros c [<- | Hc]; [now left|].
      right; right. rewrite forallb_forall in Hfa. now apply Hfa.
Qed.

(** A line with a run of more than 6 digits has neither fixed-digit shape. *)
Lemma long_run_not_fixed pre sgn ds rest :
  forallb isDigit ds = true -> 6 < length ds ->
  flagged_line (js "PNTBR") (pre ++ sgn ++ ds ++ rest) = None
  /\ all_n isDigit 5 (pre ++ sgn ++ ds ++ rest) = false.
Proof.
  intros Hd Hl. split.
  - destruct (flagged_line _ _) as [[L x]|] eqn:Hf; [|reflexivity].
    exfalso. apply flagged_line_members in Hf as [[Hlen (r & Hs & HL)] _].
    rewrite !length_app in Hlen.
    destruct pre as [|p pre']; [|cbn [length] in Hlen; lia].
    destruct sgn as [|g sgn']; [|cbn [length] in Hlen; lia].
    destruct ds as [|d ds']; [cbn [length] in Hl; lia|].
    cbn [app] in Hs. injection Hs as -> _.
    cbn [forallb] in Hd. apply andb_prop in Hd as [Hd _].
    apply status_letter_of_not_digit in HL as [HL _]. congruence.
  - unfold all_n. apply andb_false_iff. left. apply Nat.eqb_neq.
    rewrite !length_app. lia.
Qed.

(** A line with a separator has neither fixed-digit shape. *)
Lemma separator_not_fixed a sep b :
  is_separator sep = true ->
  flagged_line (js "PNTBR") (a ++ sep :: b) = None
  /\ all_n isDigit 5 (a ++ sep :: b) = false.
Proof.
  intros Hsep.
  assert (Hnd : isDigit sep = false) by now apply separator_not_digit.
  assert (Hws : isWhiteSpace sep = false).
  { unfold is_separator in Hsep.
    apply orb_prop in Hsep as [H|H]; apply N.eqb_eq in H; subst; reflexivity. }
  split.
  - destruct (flagged_line _ _) as [[L x]|] eqn:Hf; [|reflexivity].
    exfalso. apply flagged_line_members in Hf as [_ Hall].
    destruct (Hall sep) as [H | [H | H]]; try congruence.
    + apply in_or_app. right. now left.
    + apply status_letter_of_not_digit in H as [_ H]. congruence.
  - unfold all_n. apply andb_false_iff. right.
    rewrite forallb_app. cbn [forallb]. rewrite Hnd. cbn [andb].
    apply andb_false_r.
Qed.

End GenericProps.

(** C10.  A first numeric run that exceeds the bounds of the generic pattern
    is not rejected, it is cut.  When the run has more than 6 digits,
    [parseWeight] returns its optional sign and its first 6 digits, and
    [parseLineByMode] decodes the line as the generic number of that text.
    When 1 to 6 digits are followed by a separator and more than 3 digits,
    [parseWeight] returns the digits, a point and the first 3 digits of the
    fraction, which is the text [parseLineByMode] takes the number of.  The
    run is what follows a prefix that holds no digit and, when the run has no
    sign, does not end with one.  "1234567" yields 123456 and "12.34567"
    yields 12.345. *)
Theorem generic_fallback_truncates :
  (forall (rawIn pre sgn ds rest : jsstring)
          (FACTOR : Decoder.Factor) (A : Decoder.Assume) (mode : Decoder.Mode),
      Regex.trim rawIn = pre ++ sgn ++ ds ++ rest ->
      GenericProps.no_digit pre = true ->
      GenericProps.is_opt_sign sgn = true ->
      (sgn = [] -> Shapes.is_sign (last pre 0%N) = false) ->
      forallb Regex.isDigit ds = true -> 6 < length ds ->
      Decoder.parseWeight rawIn = Some (sgn ++ firstn 6 ds)
      /\ Decoder.parseLineByMode FACTOR A rawIn mode
         = {| Decoder.ok := true; Decoder.raw := Regex.trim rawIn;
              Decoder.kg := Some (Numbers.Number (sgn ++ firstn 6 ds));
              Decoder.src := Some Decoder.SRC_GENERIC;
              Decoder.flag := None |})
  /\ (forall (rawIn pre sgn ip fp rest : jsstring) (sep : char)
             (FACTOR : Decoder.Factor) (A : Decoder.Assume)
             (mode : Decoder.Mode),
      Regex.trim rawIn = pre ++ sgn ++ ip ++ sep :: fp ++ rest ->
      GenericProps.no_digit pre = true ->
      GenericProps.is_opt_sign sgn = true ->
      (sgn = [] -> Shapes.is_sign (last pre 0%N) = false) ->
      ip <> [] -> forallb Regex.isDigit ip = true -> length ip <= 6 ->
      Shapes.is_separator sep = true ->
      forallb Regex.isDigit fp = true -> 3 < length fp ->
      Decoder.parseWeight rawIn = Some (sgn ++ ip ++ 46%N :: firstn 3 fp)
      /\ Decoder.src (Decoder.parseLineByMode FACTOR A rawIn mode)
         = Some Decoder.SRC_GENERIC
      /\ Decoder.kg (Decoder.parseLineByMode FACTOR A rawIn mode)
         = Some (Numbers.Number (sgn ++ ip ++ 46%N :: firstn 3 fp)))
  /\ Decoder.parseWeight (js "1234567") = Some (js "123456")
  /\ Decoder.parseWeight (js "12.34567") = Some (js "12.345")
  /\ Decoder.parseLineByMode Decoder.FACTOR_file Decoder.GRAMS
                             (js "1234567") Decoder.AUTO
     = {| Decoder.ok := true; Decoder.raw := js "1234567";
          Decoder.kg := Some 123456%float;
          Decoder.src := Some Decoder.SRC_GENERIC; Decoder.flag := None |}
  /\ Decoder.parseLineByMode Decoder.FACTOR_file Decoder.GRAMS
                             (js "12.34567") Decoder.AUTO
     = {| Decoder.ok := true; Decoder.raw := js "12.34567";
          Decoder.kg := Some 12.345%float;
          Decoder.src := Some Decoder.SRC_GENERIC; Decoder.flag := None |}.
Proof.
  split; [|split; [|repeat split; reflexivity]].
  - intros rawIn pre sgn ds rest FACTOR A mode Htrim Hpre Hsgn Hlast Hd Hl.
    assert (Hn : Shapes.number_at (sgn ++ ds ++ rest) = Some (sgn ++ firstn 6 ds)).
    { apply GenericProps.number_at_signed; [exact Hsgn|].
      now apply GenericProps.unsigned_at_long. }
    assert (Hfirst : Shapes.first_number (Regex.trim rawIn)
                     = Some (length pre, sgn ++ firstn 6 ds)).
    { rewrite Htrim. apply GenericProps.first_number_skip; [exact Hpre | | exact Hn].
      intros Hs. destruct sgn as [|g sgn'].
      - rewrite (Hlast eq_refl) in Hs. discriminate.
      - destruct sgn' as [|g' sgn'']; [|discriminate].
        cbn [app GenericProps.starts_without_digit].
        cbn [GenericProps.is_opt_sign] in Hsgn.
        now rewrite (Shapes.is_sign_not_digit g Hsgn). }
    assert (Hrep : Regex.replace (js ",") (js ".") (sgn ++ firstn 6 ds)
                   = sgn ++ firstn 6 ds).
    { unfold Regex.replace. rewrite GenericProps.indexOf_comma_none; [reflexivity|].
      unfold GenericProps.no_comma. rewrite forallb_app.
      apply andb_true_intro; split.
      - now apply GenericProps.opt_sign_no_comma.
      - apply GenericProps.digits_no_comma.
        rewrite <- (firstn_skipn 6 ds), forallb_app in Hd.
        now apply andb_prop in Hd. }
    split.
    + rewrite DecoderFacts.parseWeight_eq, Hfirst, Hrep. reflexivity.
    + rewrite DecoderFacts.parseLineByMode_eq.
      unfold TelegramSpec.decode, TelegramSpec.first_match,
        TelegramSpec.flagged_variant, TelegramSpec.bare_variant,
        TelegramSpec.generic_variant.
      destruct (GenericProps.long_run_not_fixed pre sgn ds rest Hd Hl)
        as [Hf Hb].
      rewrite <- Htrim in Hf, Hb. rewrite Hf, Hb, Hfirst, Hrep.
      rewrite GenericProps.Number_signed_digits; [reflexivity | exact Hsgn | | |].
      * intros E. apply (f_equal (@length _)) in E.
        rewrite length_firstn in E. cbn [length] in E. lia.
      * rewrite <- (firstn_skipn 6 ds), forallb_app in Hd.
        now apply andb_prop in Hd.
      * rewrite length_firstn. lia.
  - intros rawIn pre sgn ip fp rest sep FACTOR A mode Htrim Hpre Hsgn Hlast
           Hne Hip Hl Hsep Hfp Hlf.
    assert (Hn : Shapes.number_at (sgn ++ ip ++ sep :: fp ++ rest)
                 = Some (sgn ++ ip ++ sep :: firstn 3 fp)).
    { apply GenericProps.number_at_signed; [exact Hsgn|].
      now apply GenericProps.unsigned_at_fraction. }
    assert (Hfirst : Shapes.first_number (Regex.trim rawIn)
                     = Some (length pre, sgn ++ ip ++ sep :: firstn 3 fp)).
    { rewrite Htrim. apply GenericProps.first_number_skip; [exact Hpre | | exact Hn].
      intros Hs. destruct sgn as [|g sgn'].
      - rewrite (Hlast eq_refl) in Hs. discriminate.
      - destruct sgn' as [|g' sgn'']; [|discriminate].
        cbn [app GenericProps.starts_without_digit].
        cbn [GenericProps.is_opt_sign] in Hsgn.
        now rewrite (Shapes.is_sign_not_digit g Hsgn). }
    assert (Hrep : Regex.replace (js ",") (js ".")
                     (sgn ++ ip ++ sep :: firstn 3 fp)
                   = sgn ++ ip ++ 46%N :: firstn 3 fp).
    { rewrite !app_assoc. apply GenericProps.replace_separator; [| |exact Hsep].
      - unfold GenericProps.no_comma. rewrite forallb_app.
        apply andb_true_intro; split.
        + now apply GenericProps.opt_sign_no_comma.
        + now apply GenericProps.digits_no_comma.
      - apply GenericProps.digits_no_comma.
        rewrite <- (firstn_skipn 3 fp), forallb_app in Hfp.
        now apply andb_prop in Hfp. }
    split; [rewrite DecoderFacts.parseWeight_eq, Hfirst, Hrep; reflexivity|].
    rewrite DecoderFacts.parseLineByMode_eq.
    unfold TelegramSpec.decode, TelegramSpec.first_match,
      TelegramSpec.flagged_variant, TelegramSpec.bare_variant,
      TelegramSpec.generic_variant.
    destruct (GenericProps.separator_not_fixed ((pre ++ sgn) ++ ip)
                sep (fp ++ rest) Hsep) as [Hf Hb].
    rewrite <- !app_assoc in Hf, Hb. rewrite <- Htrim in Hf, Hb.
    rewrite Hf, Hb, Hfirst, Hrep. split; reflexivity.
Qed.

(** The runs "+1234567 kg" after "W:" and "0012,34567" as witnesses. *)
Lemma generic_fallback_truncates_witness :
  Decoder.parseWeight (js " W:+1234567 kg") = Some (js "+123456")
  /\ Decoder.parseWeight (js "0012,34567") = Some (js "0012.345").
Proof.
  split.
  - refine (proj1 (proj1 generic_fallback_truncates
                     (js " W:+1234567 kg") (js "W:") (js "+") (js "1234567")
                     (js " kg") Decoder.FACTOR_file Decoder.GRAMS Decoder.AUTO
                     _ _ _ _ _ _)).
    + reflexivity.
    + reflexivity.
    + reflexivity.
    + intros H; discriminate H.
    + reflexivity.
    + cbn; lia.
  - refine (proj1 (proj1 (proj2 generic_fallback_truncates)
                     (js "0012,34567") [] [] (js "0012") (js "34567") []
                     44%N Decoder.FACTOR_file Decoder.GRAMS Decoder.AUTO
                     _ _ _ _ _ _ _ _ _ _)).
    + reflexivity.
    + reflexivity.
    + reflexivity.
    + intros _; reflexivity.
    + discriminate.
    + reflexivity.
    + cbn; lia.
    + reflexivity.
    + reflexivity.
    + cbn; lia.
Defined.

(** ** ReadSession: smoothing window and idle watchdog *)

Module DisplayProps.
Import Regex Numbers BalanzaLaTorre.

(** The last [n] elements of a list. *)
Definition lastn {A : Type} (n : nat) (l : list A) : list A :=
  skipn (length l - n) l.

(** The value a line decodes to, if it does: what the read loop pushes. *)
Definition decoded_value (value : jsstring) : option number :=
  match trim value with
  | [] => None
  | raw =>
      match ok (parseLaTorre raw), kg (parseLaTorre raw) with
      | true, Some k => Some k
      | _, _ => None
      end
  end.

(** The values decoded from the lines read, in arrival order. *)
Fixpoint decoded (lines : list (Z * jsstring)) : list number :=
  match lines with
  | [] => []
  | (_, value) :: lines' =>
      match decoded_value value with
      | Some k => k :: decoded lines'
      | None => decoded lines'
      end
  end.

Definition read_events (lines : list (Z * jsstring)) : list Event :=
  map (fun l => Line (fst l) (snd l)) lines.

Lemma on_line_eq now value st :
  on_line now value st =
  match decoded_value value with
  | Some k =>
      {| connected := connected st;
         displayKg := toFixed3 (average (push_shift k (smoothRef st)));
         lastSeenRef := now;
         smoothRef := push_shift k (smoothRef st) |}
  | None => st
  end.
Proof.
  unfold on_line, decoded_value.
  destruct (trim value) as [|c r]; [reflexivity|].
  destruct (ok (parseLaTorre (c :: r))), (kg (parseLaTorre (c :: r)));
    reflexivity.
Qed.

Lemma skipn_S_tl {A : Type} (k : nat) (l : list A) :
  skipn (S k) l = List.tl (skipn k l).
Proof.
  revert l; induction k as [|k IH]; intros l.
  - destruct l as [|x l]; [reflexivity|]. cbn [skipn List.tl].
    destruct l; reflexivity.
  - destruct l as [|x l]; [reflexivity|].
    change (skipn (S (S k)) (x :: l)) with (skipn (S k) l).
    change (skipn (S k) (x :: l)) with (skipn k l). apply IH.
Qed.

(** One push keeps the window the last values, at most [SMOOTH_WINDOW] of
    them. *)
Lemma push_shift_lastn (vs : list number) (v : number) :
  push_shift v (lastn (Nat.min SMOOTH_WINDOW (length vs)) vs)
  = lastn (Nat.min SMOOTH_WINDOW (length (vs ++ [v]))) (vs ++ [v]).
Proof.
  unfold push_shift, lastn, SMOOTH_WINDOW. rewrite !length_app.
  rewrite length_skipn. cbn [length].
  destruct (Nat.le_gt_cases 3 (length vs)) as [Hge|Hlt].
  - replace (length vs - Nat.min 3 (length vs)) with (length vs - 3) by lia.
    replace (length vs + 1 - Nat.min 3 (length vs + 1))
      with (S (length vs - 3)) by lia.
    replace (3 <? length vs - (length vs - 3) + 1) with true
      by (symmetry; apply Nat.ltb_lt; lia).
    rewrite skipn_S_tl, skipn_app.
    replace (length vs - 3 - length vs) with 0 by lia. reflexivity.
  - replace (length vs - Nat.min 3 (length vs)) with 0 by lia.
    replace (length vs + 1 - Nat.min 3 (length vs + 1)) with 0 by lia.
    replace (3 <? length vs - 0 + 1) with false
      by (symmetry; apply Nat.ltb_ge; lia).
    reflexivity.
Qed.

Lemma lastn_length {A : Type} (n : nat) (l : list A) :
  length (lastn n l) = Nat.min n (length l).
Proof. unfold lastn. rewrite length_skipn. lia. Qed.

(** What the window and the display are after the values [vs] were decoded. *)
Definition settled (vs : list number) (st : State) : Prop :=
  smoothRef st = lastn (Nat.min SMOOTH_WINDOW (length vs)) vs
  /\ displayKg st = match vs with
                    | [] => js "0.000"
                    | _ :: _ => toFixed3 (average (smoothRef st))
                    end.

Lemma run_settled lines : forall vs st,
  settled vs st -> settled (vs ++ decoded lines) (run (read_events lines) st).
Proof.
  induction lines as [|[t value] lines IH]; intros vs st Hst.
  - cbn [decoded read_events map run fold_left]. now rewrite app_nil_r.
  - cbn [decoded read_events map run fold_left step fst snd].
    rewrite on_line_eq.
    destruct (decoded_value value) as [k|]; [|now apply IH].
    change (vs ++ k :: decoded lines) with (vs ++ [k] ++ decoded lines).
    rewrite app_assoc. apply IH.
    destruct Hst as [Hw _]. unfold settled. cbn [smoothRef displayKg].
    rewrite Hw, push_shift_lastn. split; [reflexivity|].
    destruct (vs ++ [k]) eqn:E; [|reflexivity].
    now apply app_eq_nil in E as [_ E].
Qed.

End DisplayProps.

(** What the window holds when the watchdog runs as well. *)
Module WindowProps.
Import JS Regex Numbers BalanzaLaTorre DisplayProps.

(** The values a run decodes, in arrival order. *)
Fixpoint decoded_events (evs : list Event) : list number :=
  match evs with
  | [] => []
  | Line _ value :: evs' =>
      match decoded_value value with
      | Some k => k :: decoded_events evs'
      | None => decoded_events evs'
      end
  | Poll _ :: evs' => decoded_events evs'
  end.

(** The values decoded since the watchdog last emptied the window, after the
    values [vs] and the events [evs] from the state [st]. *)
Fixpoint since_reset (evs : list Event) (st : State) (vs : list number)
  : list number :=
  match evs with
  | [] => vs
  | ev :: evs' =>
      since_reset evs' (step st ev)
        (match ev with
         | Line _ value =>
             match decoded_value value with
             | Some k => vs ++ [k]
             | None => vs
             end
         | Poll now => if watchdog_fires now st then [] else vs
         end)
  end.

Lemma watchdog_poll_eq now st :
  watchdog_poll now st
  = if watchdog_fires now st
    then {| connected := connected st; displayKg := js "0.000";
            lastSeenRef := lastSeenRef st; smoothRef := [] |}
    else st.
Proof.
  unfold watchdog_poll, watchdog_fires.
  destruct (lastSeenRef st =? 0)%Z; [reflexivity|]. cbn [negb andb].
  now destruct (FRAME_TIMEOUT_MS <? now - lastSeenRef st)%Z.
Qed.

Lemma run_events_settled evs : forall vs st,
  settled vs st -> settled (since_reset evs st vs) (run evs st).
Proof.
  induction evs as [|[t value | t] evs IH]; intros vs st Hst; [exact Hst| |].
  - cbn [since_reset run fold_left step]. rewrite on_line_eq.
    destruct (decoded_value value) as [k|]; [|now apply IH].
    apply IH. destruct Hst as [Hw _]. unfold settled.
    cbn [smoothRef displayKg]. rewrite Hw, push_shift_lastn.
    split; [reflexivity|].
    destruct (vs ++ [k]) eqn:E; [|reflexivity].
    now apply app_eq_nil in E as [_ E].
  - cbn [since_reset run fold_left step]. rewrite watchdog_poll_eq.
    destruct (watchdog_fires t st); [|now apply IH].
    apply IH. split; reflexivity.
Qed.

Lemma since_reset_quiet evs : forall st vs,
  resets evs st = 0 -> since_reset evs st vs = vs ++ decoded_events evs.
Proof.
  induction evs as [|[t value | t] evs IH]; intros st vs Hq.
  - cbn [since_reset decoded_events]. now rewrite app_nil_r.
  - cbn [since_reset decoded_events resets] in *.
    rewrite (IH _ _ Hq).
    destruct (decoded_value value) as [k|]; [|reflexivity].
    now rewrite <- app_assoc.
  - cbn [since_reset decoded_events resets] in *.
    destruct (watchdog_fires t st); [discriminate Hq|].
    now apply IH.
Qed.

End WindowProps.

(** C9, as the code has it.  Whatever the read loop reads and whenever the
    watchdog polls after [connect], the smoothing window holds at most
    [SMOOTH_WINDOW] = 3 values; they are the last min(3, k) values decoded, in
    arrival order, where k counts the values decoded since the watchdog last
    emptied the window (all the values decoded, when it never did); and the
    display shows the arithmetic mean of the values in the window, to 3
    decimals, and "0.000" while the window is empty.  From any window, a push
    leaves at most 3 values when there were at most 3. *)
Theorem smoothing_window_bounded_fifo :
  forall evs : list BalanzaLaTorre.Event,
    let vs := WindowProps.since_reset evs BalanzaLaTorre.connected_state [] in
    let st := BalanzaLaTorre.run evs BalanzaLaTorre.connected_state in
    length (BalanzaLaTorre.smoothRef st) <= BalanzaLaTorre.SMOOTH_WINDOW
    /\ BalanzaLaTorre.smoothRef st
       = DisplayProps.lastn (Nat.min BalanzaLaTorre.SMOOTH_WINDOW (length vs)) vs
    /\ BalanzaLaTorre.displayKg st
       = match vs with
         | [] => js "0.000"
         | _ :: _ =>
             Numbers.toFixed3
               (PrimFloat.div
                  (fold_left PrimFloat.add (BalanzaLaTorre.smoothRef st) 0%float)
                  (Numbers.of_Z (Z.of_nat (length (BalanzaLaTorre.smoothRef st)))))
         end
    /\ (BalanzaLaTorre.resets evs BalanzaLaTorre.connected_state = 0 ->
        vs = WindowProps.decoded_events evs)
    /\ (forall (arr : list Numbers.number) (kg : Numbers.number),
          length arr <= BalanzaLaTorre.SMOOTH_WINDOW ->
          length (BalanzaLaTorre.push_shift kg arr)
          <= BalanzaLaTorre.SMOOTH_WINDOW).
Proof.
  intros evs vs st.
  assert (H : DisplayProps.settled vs st).
  { apply (WindowProps.run_events_settled evs [] BalanzaLaTorre.connected_state).
    split; reflexivity. }
  destruct H as [Hw Hd].
  split; [|split; [exact Hw|split; [exact Hd|split]]].
  - rewrite Hw, DisplayProps.lastn_length. lia.
  - intros Hq. subst vs.
    now rewrite (WindowProps.since_reset_quiet evs _ [] Hq).
  - intros arr kg Hl. unfold BalanzaLaTorre.push_shift.
    destruct (BalanzaLaTorre.SMOOTH_WINDOW <? length (arr ++ [kg])) eqn:E.
    + destruct arr as [|x arr]; cbn [app List.tl length] in *.
      * unfold BalanzaLaTorre.SMOOTH_WINDOW. lia.
      * rewrite length_app. cbn [length]. lia.
    + apply Nat.ltb_ge in E. exact E.
Qed.

(** C9, as the claim has it, fails: after telegrams at 1000, 1100 and 1200 ms
    the poll at 2040 ms finds the threshold of 800 ms exceeded and empties the
    window, so after the telegram at 2100 ms the window holds that one value,
    not the last three of the four values decoded. *)
Lemma smoothing_window_emptied_by_watchdog :
  let evs := [BalanzaLaTorre.Line 1000 (js "D001000");
              BalanzaLaTorre.Line 1100 (js "D001001");
              BalanzaLaTorre.Line 1200 (js "D001002");
              BalanzaLaTorre.Poll 2040;
              BalanzaLaTorre.Line 2100 (js "D001003")] in
  let st := BalanzaLaTorre.run evs BalanzaLaTorre.connected_state in
  let vs := WindowProps.decoded_events evs in
  vs = [1; 1.001; 1.002; 1.003]%float
  /\ DisplayProps.lastn (Nat.min BalanzaLaTorre.SMOOTH_WINDOW (length vs)) vs
     = [1.001; 1.002; 1.003]%float
  /\ BalanzaLaTorre.smoothRef st = [1.003]%float
  /\ BalanzaLaTorre.displayKg st = js "1.003"
  /\ BalanzaLaTorre.smoothRef st
     <> DisplayProps.lastn (Nat.min BalanzaLaTorre.SMOOTH_WINDOW (length vs)) vs.
Proof.
  cbv zeta. repeat split; try reflexivity.
  vm_compute. discriminate.
Qed.

Example smoothing_of_four_telegrams :
  let st := BalanzaLaTorre.run
              (DisplayProps.read_events
                 [(1000, js "D001000"); (1200, js "D001001"); (1400, js "noise");
                  (1600, js "D001002"); (1800, js "D001006")]%Z)
              BalanzaLaTorre.connected_state in
  BalanzaLaTorre.smoothRef st = [1.001; 1.002; 1.006]%float
  /\ BalanzaLaTorre.displayKg st = js "1.003"
  /\ BalanzaLaTorre.lastSeenRef st = 1800%Z.
Proof. repeat split; reflexivity. Qed.

(** C3, as the code has it.  Once the time since the last telegram exceeds the
    threshold, every poll of the watchdog puts "0.000" on the display and
    empties the smoothing window: the reset is performed at each poll of the
    idle period, and after the first one it changes nothing. *)
Theorem watchdog_resets_at_every_poll :
  forall (st : BalanzaLaTorre.State) (polls : list Z),
    BalanzaLaTorre.lastSeenRef st <> 0%Z ->
    polls <> [] ->
    Forall (fun t => (BalanzaLaTorre.FRAME_TIMEOUT_MS
                      < t - BalanzaLaTorre.lastSeenRef st)%Z) polls ->
    let evs := map BalanzaLaTorre.Poll polls in
    let st' := BalanzaLaTorre.run evs st in
    BalanzaLaTorre.displayKg st' = js "0.000"
    /\ BalanzaLaTorre.smoothRef st' = []
    /\ BalanzaLaTorre.lastSeenRef st' = BalanzaLaTorre.lastSeenRef st
    /\ st' = BalanzaLaTorre.watchdog_poll (hd 0%Z polls) st
    /\ BalanzaLaTorre.resets evs st = length polls.
Proof.
  intros st polls Hseen Hne Hall evs st'.
  assert (Hfire : forall t s,
             BalanzaLaTorre.lastSeenRef s = BalanzaLaTorre.lastSeenRef st ->
             (BalanzaLaTorre.FRAME_TIMEOUT_MS
              < t - BalanzaLaTorre.lastSeenRef st)%Z ->
             BalanzaLaTorre.watchdog_fires t s = true
             /\ BalanzaLaTorre.watchdog_poll t s
                = {| BalanzaLaTorre.connected := BalanzaLaTorre.connected s;
                     BalanzaLaTorre.displayKg := js "0.000";
                     BalanzaLaTorre.lastSeenRef := BalanzaLaTorre.lastSeenRef st;
                     BalanzaLaTorre.smoothRef := [] |}).
  { intros t s Hs Ht.
    unfold BalanzaLaTorre.watchdog_fires, BalanzaLaTorre.watchdog_poll.
    rewrite Hs. apply Z.eqb_neq in Hseen. rewrite Hseen.
    apply Z.ltb_lt in Ht. rewrite Ht. split; reflexivity. }
  assert (Hrun : forall ps s,
             BalanzaLaTorre.lastSeenRef s = BalanzaLaTorre.lastSeenRef st ->
             BalanzaLaTorre.displayKg s = js "0.000" ->
             BalanzaLaTorre.smoothRef s = [] ->
             Forall (fun t => (BalanzaLaTorre.FRAME_TIMEOUT_MS
                               < t - BalanzaLaTorre.lastSeenRef st)%Z) ps ->
             BalanzaLaTorre.run (map BalanzaLaTorre.Poll ps) s = s
             /\ BalanzaLaTorre.resets (map BalanzaLaTorre.Poll ps) s
                = length ps).
  { induction ps as [|t ps IH]; intros s Hs Hd Hw Hps; [now split|].
    inversion Hps as [|? ? Ht Hps']; subst.
    destruct (Hfire t s Hs Ht) as [Hf Hp].
    assert (Hsame : BalanzaLaTorre.watchdog_poll t s = s).
    { rewrite Hp. destruct s; cbn in *. now subst. }
    cbn [map BalanzaLaTorre.run fold_left BalanzaLaTorre.resets
         BalanzaLaTorre.step].
    rewrite Hf, Hsame.
    destruct (IH s Hs Hd Hw Hps') as [IH1 IH2].
    split; [exact IH1|]. rewrite IH2. reflexivity. }
  destruct polls as [|t ps]; [contradiction|].
  inversion Hall as [|? ? Ht Hps]; subst.
  destruct (Hfire t st eq_refl Ht) as [Hf Hp].
  subst evs st'.
  cbn [map BalanzaLaTorre.run fold_left BalanzaLaTorre.resets
       BalanzaLaTorre.step hd].
  rewrite Hf.
  destruct (Hrun ps (BalanzaLaTorre.watchdog_poll t st)) as [H1 H2];
    try (rewrite Hp; reflexivity); try exact Hps.
  fold (BalanzaLaTorre.run (map BalanzaLaTorre.Poll ps)
          (BalanzaLaTorre.watchdog_poll t st)).
  rewrite H1, H2, Hp. cbn. repeat split; reflexivity.
Qed.

(** Three polls after a telegram at 1000 ms as a witness. *)
Lemma watchdog_resets_at_every_poll_witness :
  BalanzaLaTorre.resets
    (map BalanzaLaTorre.Poll [1900; 2020; 2140]%Z)
    (BalanzaLaTorre.run [BalanzaLaTorre.Line 1000 (js "D025500")]
                        BalanzaLaTorre.connected_state)
  = 3.
Proof.
  refine (proj2 (proj2 (proj2 (proj2
            (watchdog_resets_at_every_poll
               (BalanzaLaTorre.run [BalanzaLaTorre.Line 1000 (js "D025500")]
                                   BalanzaLaTorre.connected_state)
               [1900; 2020; 2140]%Z _ _ _))))).
  - intros H; discriminate H.
  - intros H; discriminate H.
  - repeat constructor.
Defined.

(** C3, as the claim has it, fails: after a telegram at 1000 ms the polls at
    1900 ms and at 2020 ms both find the threshold of 800 ms exceeded, and the
    display is reset twice in the one idle period. *)
Lemma watchdog_resets_twice_in_one_idle_period :
  BalanzaLaTorre.watchdog_fires 1900
    (BalanzaLaTorre.run [BalanzaLaTorre.Line 1000 (js "D025500")]
                        BalanzaLaTorre.connected_state) = true
  /\ BalanzaLaTorre.watchdog_fires 2020
       (BalanzaLaTorre.run [BalanzaLaTorre.Line 1000 (js "D025500");
                            BalanzaLaTorre.Poll 1900]
                           BalanzaLaTorre.connected_state) = true
  /\ BalanzaLaTorre.resets
       [BalanzaLaTorre.Poll 1900; BalanzaLaTorre.Poll 2020]
       (BalanzaLaTorre.run [BalanzaLaTorre.Line 1000 (js "D025500")]
                           BalanzaLaTorre.connected_state) = 2.
Proof. repeat split; reflexivity. Qed.

(** ** ParameterSpace and ProbeEngine *)

Module ProbeProps.
Import Async Probe.
Open Scope async_scope.

Lemma Parity_eq_dec (a b : Parity) : {a = b} + {a <> b}.
Proof. decide equality. Defined.

Lemma DetectedConfig_eq_dec (a b : DetectedConfig) : {a = b} + {a <> b}.
Proof.
  decide equality; try apply N.eq_dec; try apply Parity_eq_dec;
    apply (list_eq_dec N.eq_dec).
Defined.

(** An element of a list has a first occurrence. *)
Lemma first_occurrence (c : DetectedConfig) (l : list DetectedConfig) :
  In c l -> exists pre post, l = pre ++ c :: post /\ ~ In c pre.
Proof.
  induction l as [|x l IH]; [contradiction|]. intros Hin.
  destruct (DetectedConfig_eq_dec x c) as [->|Hne].
  - exists [], l. split; [reflexivity | intros []].
  - destruct Hin as [->|Hin]; [contradiction|].
    destruct (IH Hin) as (pre & post & -> & Hnot).
    exists (x :: pre), post. split; [reflexivity|].
    intros [H|H]; [contradiction | now apply Hnot].
Qed.

Section Scan.

Context {Dev : Type} {P : Port Dev}.
Variable probeOnce : DetectedConfig -> M (Dev := Dev) ProbeResult.
Variable BAUDS : list N.
Variable SETUPS : list Setup.
Variable DELIMS : list JS.jsstring.

(** The parameter space in its order: baud rates outermost, then the framing
    presets, the delimiters innermost. *)
Definition candidates : list DetectedConfig :=
  flat_map (fun b =>
    flat_map (fun s => map (candidate b s) DELIMS) SETUPS) BAUDS.

(** The search in the words of the specification: the candidates are probed
    in order, and the first one whose probe matches is returned. *)
Fixpoint scan (cs : list DetectedConfig)
  : M (Dev := Dev) (option DetectedConfig) :=
  match cs with
  | [] => ret None
  | c :: cs' =>
      r <- try_candidate probeOnce c ;;
      match r with
      | Some cfg => ret (Some cfg)
      | None => scan cs'
      end
  end.

(** The probe of [c] returns without a match, whatever the world. *)
Definition probe_misses (c : DetectedConfig) : Prop :=
  forall w, exists r w', probeOnce c w = (Ok r, w') /\ probe_ok r = false.

(** The probe of [c] returns a decoded sample, whatever the world. *)
Definition probe_matches (c : DetectedConfig) : Prop :=
  forall w, exists sample raw w',
    probeOnce c w = (Ok (matched sample raw), w').

Lemma scan_app l1 l2 w :
  scan (l1 ++ l2) w =
  (r <- scan l1 ;;
   match r with
   | Some cfg => ret (Some cfg)
   | None => scan l2
   end) w.
Proof.
  revert w; induction l1 as [|c l1 IH]; intros w.
  - reflexivity.
  - cbn [app scan]. unfold bind in *.
    destruct (try_candidate probeOnce c w) as [[[cfg|]|e|] w1];
      try reflexivity.
    apply IH.
Qed.

Lemma for_delims_scan b s ds w :
  for_delims probeOnce b s ds w = scan (map (candidate b s) ds) w.
Proof.
  revert w; induction ds as [|d ds IH]; intros w; [reflexivity|].
  cbn [for_delims map scan]. unfold bind.
  destruct (try_candidate probeOnce (candidate b s d) w) as [[[cfg|]|e|] w1];
    try reflexivity.
  apply IH.
Qed.

Lemma for_setups_scan b ss w :
  for_setups probeOnce DELIMS b ss w
  = scan (flat_map (fun s => map (candidate b s) DELIMS) ss) w.
Proof.
  revert w; induction ss as [|s ss IH]; intros w; [reflexivity|].
  cbn [for_setups flat_map]. rewrite scan_app. unfold bind.
  rewrite for_delims_scan.
  destruct (scan (map (candidate b s) DELIMS) w) as [[[cfg|]|e|] w1];
    try reflexivity.
  apply IH.
Qed.

Lemma for_bauds_scan bs w :
  for_bauds probeOnce SETUPS DELIMS bs w
  = scan (flat_map (fun b =>
            flat_map (fun s => map (candidate b s) DELIMS) SETUPS) bs) w.
Proof.
  revert w; induction bs as [|b bs IH]; intros w; [reflexivity|].
  cbn [for_bauds flat_map]. rewrite scan_app. unfold bind.
  rewrite for_setups_scan.
  destruct (scan (flat_map (fun s => map (candidate b s) DELIMS) SETUPS) w)
    as [[[cfg|]|e|] w1]; try reflexivity.
  apply IH.
Qed.

Lemma autoDetect_scan w :
  autoDetect probeOnce BAUDS SETUPS DELIMS w = scan candidates w.
Proof. apply for_bauds_scan. Qed.

Lemma try_candidate_miss c :
  probe_misses c -> forall w, exists w', try_candidate probeOnce c w = (Ok None, w').
Proof.
  intros Hc w. unfold try_candidate, bind, setStatus, set_ui.
  match goal with |- context [probeOnce c ?w0] =>
    destruct (Hc w0) as (r & w1 & Hp & Hok) end.
  rewrite Hp, Hok. eexists. reflexivity.
Qed.

Lemma try_candidate_match c :
  probe_matches c ->
  forall w, exists w0 sample raw w1 w',
    probeOnce c w0 = (Ok (matched sample raw), w1)
    /\ try_candidate probeOnce c w = (Ok (Some c), w')
    /\ weight (ui w') = sample /\ rawLine (ui w') = raw.
Proof.
  intros Hc w. unfold try_candidate, bind, setStatus, set_ui.
  match goal with |- context [probeOnce c ?w0] =>
    destruct (Hc w0) as (sample & raw & w1 & Hp); exists w0 end.
  exists sample, raw, w1. rewrite Hp. cbn [probe_ok matched].
  eexists. split; [reflexivity|]. split; [reflexivity|].
  split; reflexivity.
Qed.

Lemma scan_none cs :
  (forall c, In c cs -> probe_misses c) ->
  forall w, exists w', scan cs w = (Ok None, w').
Proof.
  induction cs as [|c cs IH]; intros Hall w.
  - eexists. reflexivity.
  - cbn [scan]. unfold bind.
    destruct (try_candidate_miss c (Hall c (or_introl eq_refl)) w) as [w1 H1].
    rewrite H1. apply IH. intros c' Hc'. apply Hall. now right.
Qed.

Lemma scan_first_match pre c post :
  (forall c', In c' pre -> probe_misses c') -> probe_matches c ->
  forall w, exists w0 sample raw w1 w',
    probeOnce c w0 = (Ok (matched sample raw), w1)
    /\ scan (pre ++ c :: post) w = (Ok (Some c), w')
    /\ weight (ui w') = sample /\ rawLine (ui w') = raw.
Proof.
  intros Hpre Hc w. rewrite scan_app. unfold bind.
  destruct (scan_none pre Hpre w) as [wp Hp]. rewrite Hp.
  cbn [scan]. unfold bind.
  destruct (try_candidate_match c Hc wp)
    as (w0 & sample & raw & w1 & w' & Hprobe & Htry & Hw & Hr).
  exists w0, sample, raw, w1, w'. rewrite Htry. now repeat split.
Qed.

End Scan.

End ProbeProps.

(** ** A simulated channel

    A port without state of its own: it accepts the options [accepts] says,
    delivers the text [emits] to every reader of lines and the bytes [echoes]
    to every reader of bytes, and [dice] is what the random number is. *)

Module Simulated.
Import Async.

Definition rejected : Err := {| message := js "Failed to open serial port." |}.

Definition port (accepts : SerialOptions -> bool) (emits : Script jsstring)
  (echoes : Script (list N)) (dice : N) : Port unit :=
  {| reader_releaseLock := fun d => (Ok tt, d);
     port_close := fun d => (Ok tt, d);
     port_open := fun o d =>
       if accepts o then (Ok tt, d) else (Throw rejected, d);
     port_setSignals := Some (fun d => (Ok tt, d));
     port_text := fun d => (Ok emits, d);
     port_bytes := fun d => (Ok echoes, d);
     port_write := fun _ d => (Ok tt, d);
     random_million := fun d => (dice, d) |}.

(** The world when the page is loaded. *)
Definition start : World unit :=
  {| ui := {| status := js "Inicializando" ++ [8230%N]; active := false;
              weight := js "-"; rawLine := js "-"; configLabel := js "-";
              log := [] |};
     readerRef := false; now := 0; dev := tt |}.

(** A scale that answers at 8 data bits only, with a telegram in two chunks. *)
Definition scale_8N1 : Port unit :=
  port (fun o => N.eqb (dataBits o) 8)
       {| chunks := [(50, js "P 00"); (70, js "120" ++ [CR])]%Z;
          ending := Silent |}
       {| chunks := []; ending := Silent |} 0.

(** A port that rejects every configuration. *)
Definition closed_port : Port unit :=
  port (fun _ => false) {| chunks := []; ending := Silent |}
       {| chunks := []; ending := Silent |} 0.

(** A line that returns the token "LBK1" with its first byte and its
    terminator damaged: 176 for 76, 130 for 13. *)
Definition noisy_loop : Port unit :=
  port (fun _ => true) {| chunks := []; ending := Silent |}
       {| chunks := [(10, [176; 66; 75; 49; 130]%N)]%Z; ending := Silent |} 1.

End Simulated.

Module SimulatedProps.
Import Async Probe Simulated.
Open Scope async_scope.

Section Port.

Variable accepts : SerialOptions -> bool.
Variable emits : Script jsstring.
Variable echoes : Script (list N).
Variable dice : N.

Let sim : Port unit := port accepts emits echoes dice.

(** Accepted options: the port is open 100 ms later, nothing else changed. *)
Lemma open_accepted cap prefix b d p s u rr n :
  accepts {| baudRate := b; dataBits := d; parity := p; stopBits := s |} = true ->
  ScaleAutoDetectAuto.openWithConfig_logging (P := sim) cap prefix b d p s
    {| ui := u; readerRef := rr; now := n; dev := tt |}
  = (Ok tt, {| ui := u; readerRef := rr; now := n + 60 + 40; dev := tt |}).
Proof.
  intros H.
  unfold ScaleAutoDetectAuto.openWithConfig_logging, ignore_errors, try_catch,
    bind, ScaleAutoDetectAuto.release_current_reader,
    ScaleAutoDetectAuto.raise_signals, on_dev, sleep, ret.
  cbn [sim port reader_releaseLock port_close port_open port_setSignals
       ui readerRef now dev].
  rewrite H. destruct rr; reflexivity.
Qed.

(** Rejected options: [openWithConfig] throws what the port threw. *)
Lemma open_rejected cap prefix b d p s w :
  accepts {| baudRate := b; dataBits := d; parity := p; stopBits := s |} = false ->
  exists w1,
    ScaleAutoDetectAuto.openWithConfig_logging (P := sim) cap prefix b d p s w
    = (Throw rejected, w1).
Proof.
  intros H. destruct w as [u rr n []].
  unfold ScaleAutoDetectAuto.openWithConfig_logging, ignore_errors, try_catch,
    bind, ScaleAutoDetectAuto.release_current_reader,
    ScaleAutoDetectAuto.raise_signals, on_dev, sleep, ret, throw, setLog,
    setStatus, set_ui.
  cbn [sim port reader_releaseLock port_close port_open port_setSignals
       ui readerRef now dev].
  rewrite H. destruct rr; eexists; reflexivity.
Qed.

End Port.

End SimulatedProps.

Module ScaleAutoDetectAutoProps.
Import Async Probe ScaleAutoDetectAuto.
Open Scope async_scope.

Section Port.

Context {Dev : Type} {P : Port Dev}.

(** What [probeOnce] logs when it catches [e]. *)
Definition caught (cfg : DetectedConfig) (e : Err) (w : World Dev) : World Dev :=
  snd (setLog 80 (js "[probeOnce] fallo en " ++ cfg_name cfg ++ js ": "
                  ++ message e) w).

Lemma probeOnce_open_failure cfg w e w1 :
  openWithConfig (cfg_baudRate cfg) (cfg_dataBits cfg) (cfg_parity cfg)
                 (cfg_stopBits cfg) w = (Throw e, w1) ->
  probeOnce cfg w = (Ok unmatched, caught cfg e w1).
Proof.
  intros H. unfold probeOnce, try_catch, bind. rewrite H. reflexivity.
Qed.


End Port.

End ScaleAutoDetectAutoProps.

(** The order of the search, for probes that return.  [autoDetect] is the
    search over the parameter space in its order, baud rates outermost,
    framing presets next, delimiters innermost, each list in its declared
    order: it probes the candidates one after the other and returns the first
    one whose probe returns a decoded sample, which it puts on the display.
    So, when the probes before a candidate return without a match and its own
    probe matches, that candidate is returned; when exactly one candidate
    matches and the probes of the others return, that one is returned; and
    when every probe returns without a match, [null] is returned.  Nothing is
    said here of a probe that does not return.  The lists of the wide front
    end give 30 candidates, from "1200 8N1 CR" to "19200 7E1 LF". *)
Theorem autoDetect_returns_first_match :
  forall (Dev : Type) (P : Async.Port Dev)
         (probeOnce : Probe.DetectedConfig -> Async.M (Dev := Dev) Probe.ProbeResult)
         (BAUDS : list N) (SETUPS : list Probe.Setup) (DELIMS : list jsstring),
    let cands := ProbeProps.candidates BAUDS SETUPS DELIMS in
    let detect := Probe.autoDetect probeOnce BAUDS SETUPS DELIMS in
    (forall w, detect w = ProbeProps.scan probeOnce cands w)
    /\ (forall pre c post,
          cands = pre ++ c :: post ->
          (forall c', In c' pre -> ProbeProps.probe_misses probeOnce c') ->
          ProbeProps.probe_matches probeOnce c ->
          forall w, exists w0 sample raw w1 w',
            probeOnce c w0 = (Async.Ok (Probe.matched sample raw), w1)
            /\ detect w = (Async.Ok (Some c), w')
            /\ Async.weight (Async.ui w') = sample
            /\ Async.rawLine (Async.ui w') = raw)
    /\ (forall Cstar,
          In Cstar cands ->
          (forall c, In c cands -> c <> Cstar ->
                     ProbeProps.probe_misses probeOnce c) ->
          ProbeProps.probe_matches probeOnce Cstar ->
          forall w, exists w0 sample raw w1 w',
            probeOnce Cstar w0 = (Async.Ok (Probe.matched sample raw), w1)
            /\ detect w = (Async.Ok (Some Cstar), w')
            /\ Async.weight (Async.ui w') = sample
            /\ Async.rawLine (Async.ui w') = raw)
    /\ ((forall c, In c cands -> ProbeProps.probe_misses probeOnce c) ->
        forall w, exists w', detect w = (Async.Ok None, w'))
    /\ map Probe.cfg_name
           (ProbeProps.candidates ScaleAutoDetectWide.BAUDS
              ScaleAutoDetectWide.SETUPS ScaleAutoDetectWide.DELIMS)
       = map js
           [ "1200 8N1 CR"; "1200 8N1 CRLF"; "1200 8N1 LF";
             "1200 7E1 CR"; "1200 7E1 CRLF"; "1200 7E1 LF";
             "2400 8N1 CR"; "2400 8N1 CRLF"; "2400 8N1 LF";
             "2400 7E1 CR"; "2400 7E1 CRLF"; "2400 7E1 LF";
             "4800 8N1 CR"; "4800 8N1 CRLF"; "4800 8N1 LF";
             "4800 7E1 CR"; "4800 7E1 CRLF"; "4800 7E1 LF";
             "9600 8N1 CR"; "9600 8N1 CRLF"; "9600 8N1 LF";
             "9600 7E1 CR"; "9600 7E1 CRLF"; "9600 7E1 LF";
             "19200 8N1 CR"; "19200 8N1 CRLF"; "19200 8N1 LF";
             "19200 7E1 CR"; "19200 7E1 CRLF"; "19200 7E1 LF" ]%string.
Proof.
  intros Dev P probeOnce BAUDS SETUPS DELIMS cands detect.
  assert (Hscan : forall w, detect w = ProbeProps.scan probeOnce cands w)
    by (intros w; apply ProbeProps.autoDetect_scan).
  assert (Hfirst : forall pre c post,
            cands = pre ++ c :: post ->
            (forall c', In c' pre -> ProbeProps.probe_misses probeOnce c') ->
            ProbeProps.probe_matches probeOnce c ->
            forall w, exists w0 sample raw w1 w',
              probeOnce c w0 = (Async.Ok (Probe.matched sample raw), w1)
              /\ detect w = (Async.Ok (Some c), w')
              /\ Async.weight (Async.ui w') = sample
              /\ Async.rawLine (Async.ui w') = raw).
  { intros pre c post Hc Hpre Hm w. rewrite Hscan, Hc.
    now apply ProbeProps.scan_first_match. }
  split; [exact Hscan|]. split; [exact Hfirst|]. split; [|split].
  - intros Cstar Hin Hothers Hm w.
    destruct (ProbeProps.first_occurrence Cstar cands Hin)
      as (pre & post & Hc & Hnot).
    apply (Hfirst pre Cstar post Hc); [|exact Hm].
    intros c' Hc'. apply Hothers.
    + rewrite Hc. apply in_or_app. now left.
    + intros ->. contradiction.
  - intros Hall w. rewrite Hscan. now apply ProbeProps.scan_none.
  - reflexivity.
Qed.

Module AutoDetectExample.
Import Async Probe.

(** The candidate the simulated scale answers to. *)
Definition Cstar : DetectedConfig :=
  candidate 1200 {| setup_dataBits := 8; setup_parity := ParityNone;
                    setup_stopBits := 1; setup_name := js "8N1" |} [CR].

Lemma scale_8N1_matches :
  ProbeProps.probe_matches
    (ScaleAutoDetectAuto.probeOnce (P := Simulated.scale_8N1)) Cstar.
Proof.
  intros [u rr n []].
  unfold ScaleAutoDetectAuto.probeOnce, ScaleAutoDetectAuto.openWithConfig,
    try_catch, bind, Simulated.scale_8N1.
  rewrite SimulatedProps.open_accepted by reflexivity.
  unfold on_dev, Date_now.
  cbn [port_text Simulated.port dev ui readerRef now chunks ending Cstar
       candidate cfg_delimiter].
  set (lined := stream_lines _ _ _). vm_compute in lined. subst lined.
  unfold ScaleAutoDetectAuto.PROBE_MS.
  cbn [probe_loop]. unfold bind, Date_now, wait_until, on_dev, ret.
  cbn [now ui readerRef dev].
  replace (n + 60 + 40 <? n + 60 + 40 + 1800)%Z with true
    by (symmetry; apply Z.ltb_lt; lia).
  set (raw := Regex.trim _). vm_compute in raw. subst raw.
  set (pw := Decoder.parseWeight _). vm_compute in pw. subst pw.
  cbn [reader_releaseLock Simulated.port matched].
  do 3 eexists. reflexivity.
Qed.

Lemma scale_8N1_others_miss :
  forall c,
    In c (ProbeProps.candidates ScaleAutoDetectAuto.BAUDS
            ScaleAutoDetectAuto.SETUPS ScaleAutoDetectAuto.DELIMS) ->
    c <> Cstar ->
    ProbeProps.probe_misses
      (ScaleAutoDetectAuto.probeOnce (P := Simulated.scale_8N1)) c.
Proof.
  intros c [<- | [<- | []]] Hne; [|now contradiction Hne].
  intros w.
  destruct (SimulatedProps.open_rejected
              (fun o => N.eqb (dataBits o) 8)
              {| chunks := [(50, js "P 00"); (70, js "120" ++ [CR])]%Z;
                 ending := Silent |}
              {| chunks := []; ending := Silent |} 0
              80 (js "[openWithConfig error] ") 1200 7 ParityNone 1 w eq_refl)
    as [w1 Hopen].
  exists unmatched. eexists. split; [|reflexivity].
  apply (ScaleAutoDetectAutoProps.probeOnce_open_failure
           (P := Simulated.scale_8N1) _ w Simulated.rejected w1).
  exact Hopen.
Qed.

End AutoDetectExample.

(** The simulated scale that answers at 8N1 only, as a witness: the search
    over the lists of test.tsx returns "1200 8N1 CR" and shows the sample. *)
Lemma autoDetect_returns_first_match_witness :
  exists w',
    ScaleAutoDetectAuto.autoDetect (P := Simulated.scale_8N1) Simulated.start
    = (Async.Ok (Some AutoDetectExample.Cstar), w')
    /\ Async.weight (Async.ui w') = js "00120"
    /\ Async.rawLine (Async.ui w') = js "P 00120".
Proof.
  destruct (proj1 (proj2 (proj2
              (autoDetect_returns_first_match unit Simulated.scale_8N1
                 (ScaleAutoDetectAuto.probeOnce (P := Simulated.scale_8N1))
                 ScaleAutoDetectAuto.BAUDS ScaleAutoDetectAuto.SETUPS
                 ScaleAutoDetectAuto.DELIMS)))
              AutoDetectExample.Cstar
              (or_intror (or_introl eq_refl))
              AutoDetectExample.scale_8N1_others_miss
              AutoDetectExample.scale_8N1_matches
              Simulated.start)
    as (w0 & sample & raw & w1 & w' & _ & Hdetect & _ & _).
  exists w'. split; [exact Hdetect|].
  assert (E : w' = snd (ScaleAutoDetectAuto.autoDetect
                          (P := Simulated.scale_8N1) Simulated.start)).
  { unfold ScaleAutoDetectAuto.autoDetect. now rewrite Hdetect. }
  rewrite E. split; vm_compute; reflexivity.
Defined.

Module SearchProps.
Import Async Probe.

Section Search.

Context {Dev : Type} {P : Port Dev}.
Variable probeOnce : DetectedConfig -> M (Dev := Dev) ProbeResult.

Hypothesis probe_catches : forall cfg w e w', probeOnce cfg w <> (Throw e, w').




End Search.

End SearchProps.



Module LoopbackProps.
Import Numbers.

(** The claim's words: [enc] occurs in [bytes] as a contiguous run. *)
Definition contiguous (enc bytes : list N) : Prop :=
  exists pre post, bytes = pre ++ enc ++ post.

Lemma join_app sep (a b : list jsstring) :
  a <> [] -> b <> [] -> join sep (a ++ b) = join sep a ++ sep ++ join sep b.
Proof.
  intros Ha Hb. induction a as [|x a IH]; [now contradiction Ha|].
  destruct a as [|y a].
  - destruct b as [|z b]; [now contradiction Hb|]. reflexivity.
  - change (join sep ((x :: y :: a) ++ b))
      with (x ++ sep ++ join sep ((y :: a) ++ b)).
    rewrite IH by discriminate.
    change (join sep (x :: y :: a)) with (x ++ sep ++ join sep (y :: a)).
    now rewrite <- !app_assoc.
Qed.

Lemma join_infix sep (pre mid post : list jsstring) :
  exists A B, join sep (pre ++ mid ++ post) = A ++ join sep mid ++ B.
Proof.
  destruct mid as [|m mid].
  - exists (join sep (pre ++ post)), []. cbn [app join]. now rewrite app_nil_r.
  - destruct pre as [|p pre], post as [|q post].
    + exists [], []. now rewrite !app_nil_r.
    + exists [], (sep ++ join sep (q :: post)).
      cbn [app]. change (m :: mid ++ q :: post) with ((m :: mid) ++ q :: post).
      now rewrite join_app by discriminate.
    + exists (join sep (p :: pre) ++ sep), [].
      rewrite !app_nil_r, join_app by discriminate.
      now rewrite <- app_assoc.
    + exists (join sep (p :: pre) ++ sep), (sep ++ join sep (q :: post)).
      rewrite join_app; [|discriminate|discriminate].
      rewrite join_app by discriminate.
      now rewrite <- !app_assoc.
Qed.

Lemma includes_infix (a t b : jsstring) : includes (a ++ t ++ b) t = true.
Proof.
  unfold includes. induction a as [|c a IH].
  - cbn [app]. assert (H : startsWith t (t ++ b) = true)
      by (apply startsWith_spec; now exists b).
    destruct (t ++ b) as [|x r]; cbn [indexOf]; now rewrite H.
  - cbn [app indexOf].
    destruct (startsWith t (c :: a ++ t ++ b)); [reflexivity|].
    destruct (indexOf t (a ++ t ++ b)); [reflexivity | discriminate].
Qed.

(** The comparison of the joined decimal texts finds every run of bytes that
    is there. *)
Lemma hayEco_of_contiguous bytes enc :
  contiguous enc bytes -> ScaleAutoDetectAuto.hayEco bytes enc = true.
Proof.
  intros (pre & post & ->). unfold ScaleAutoDetectAuto.hayEco.
  rewrite !map_app.
  destruct (join_infix (js ",") (map decimal pre) (map decimal enc)
              (map decimal post)) as (A & B & ->).
  apply includes_infix.
Qed.

End LoopbackProps.

(** C2.  The loopback test compares the decimal texts of the two byte
    sequences, [bytes.join(",").includes(enc.join(","))].  A token that came
    back as a contiguous run of bytes is always found.  The converse fails: on
    a line that returns 176 66 75 49 130 for the token "LBK1" the joined text
    "176,66,75,49,130" contains "76,66,75,49,13" (and "76,66,75,49"), so both
    loopback tests return true although the bytes of the token are not among
    the bytes read. *)
Theorem loopback_compares_decimal_text :
  (forall bytes enc,
      LoopbackProps.contiguous enc bytes ->
      ScaleAutoDetectAuto.hayEco bytes enc = true)
  /\ (let enc := ScaleAutoDetectAuto.TextEncoder_encode (js "LBK1" ++ [CR]) in
      let bytes := [176; 66; 75; 49; 130]%N in
      fst (ScaleAutoDetectAuto.loopbackTest (P := Simulated.noisy_loop)
             Simulated.start) = Async.Ok true
      /\ ScaleAutoDetectAuto.hayEco bytes enc = true
      /\ ~ LoopbackProps.contiguous enc bytes)
  /\ (let enc := ScaleAutoDetectAuto.TextEncoder_encode (js "LBK1") in
      let bytes := [176; 66; 75; 49; 130]%N in
      fst (ScaleAuto.loopbackTest (P := Simulated.noisy_loop)
             Simulated.start) = Async.Ok true
      /\ ScaleAutoDetectAuto.hayEco bytes enc = true
      /\ ~ LoopbackProps.contiguous enc bytes).
Proof.
  split; [exact LoopbackProps.hayEco_of_contiguous|].
  split; cbv zeta.
  - split; [vm_compute; reflexivity|]. split; [vm_compute; reflexivity|].
    intros (pre & post & H).
    destruct pre as [|a pre]; [discriminate H|].
    apply (f_equal (@length N)) in H. rewrite !length_app in H.
    set (l := length (ScaleAutoDetectAuto.TextEncoder_encode _)) in H.
    vm_compute in l. subst l. cbn [length] in H. lia.
  - split; [vm_compute; reflexivity|]. split; [vm_compute; reflexivity|].
    intros (pre & post & H).
    destruct pre as [|a [|b pre]].
    + discriminate H.
    + discriminate H.
    + apply (f_equal (@length N)) in H. rewrite !length_app in H.
      set (l := length (ScaleAutoDetectAuto.TextEncoder_encode _)) in H.
      vm_compute in l. subst l. cbn [length] in H. lia.
Qed.

(** On a channel that accepts the parameters, sends nothing and stays open,
    [probeOnce] does not settle: [await reader.read()] is not raced against
    the clock, so the bound [PROBE_MS] is only looked at between two lines.
    The probe is still pending at the time the reader was attached. *)
Theorem probeOnce_pending_on_silent_channel :
  forall echoes dice cfg u rr n,
    ScaleAutoDetectAuto.probeOnce
      (P := Simulated.port (fun _ => true)
              {| Async.chunks := []; Async.ending := Async.Silent |}
              echoes dice)
      cfg {| Async.ui := u; Async.readerRef := rr; Async.now := n;
             Async.dev := tt |}
    = (Async.Pending,
       {| Async.ui := u; Async.readerRef := rr; Async.now := n + 60 + 40;
          Async.dev := tt |}).
Proof.
  intros echoes dice cfg u rr n.
  unfold ScaleAutoDetectAuto.probeOnce, ScaleAutoDetectAuto.openWithConfig,
    Async.try_catch, Async.bind.
  rewrite SimulatedProps.open_accepted by reflexivity.
  unfold Async.on_dev, Async.Date_now.
  cbn [Async.port_text Simulated.port Async.dev Async.ui Async.readerRef
       Async.now Async.chunks Async.ending Probe.stream_lines].
  unfold ScaleAutoDetectAuto.PROBE_MS.
  cbn [Probe.probe_loop].
  unfold Async.bind, Async.Date_now, Async.wait_until, Async.on_dev, Async.ret.
  cbn [Async.now Async.ui Async.readerRef Async.dev].
  replace (n + 60 + 40 <? n + 60 + 40 + 1800)%Z with true
    by (symmetry; apply Z.ltb_lt; lia).
  reflexivity.
Qed.

(** * Further properties of the code *)

(** ** [makeLineTransformer] *)

Module FramerProps.
Import LineFramer.

(** Before its first occurrence in a text, a separator does not occur. *)
Lemma firstn_free (sep s : jsstring) (i : nat) :
  sep <> [] -> indexOf sep s = Some i -> indexOf sep (firstn i s) = None.
Proof.
  intros Hne Hi.
  destruct (indexOf sep (firstn i s)) as [j|] eqn:Hj; [|reflexivity].
  exfalso. pose proof (indexOf_bound _ _ _ Hj) as Hb.
  pose proof (indexOf_app _ _ (skipn i s) _ Hj) as Happ.
  rewrite firstn_skipn, Hi in Happ. injection Happ as ->.
  rewrite length_firstn in Hb.
  destruct sep as [|c sep]; [now contradiction Hne|]. cbn [length] in Hb. lia.
Qed.

Lemma split_from_free c sep s :
  Forall (fun p => indexOf (c :: sep) p = None) (split_from c sep s).
Proof.
  remember (length s) as n eqn:Hn. revert s Hn.
  induction n as [n IH] using lt_wf_ind; intros s Hn.
  rewrite split_from_eq.
  destruct (indexOf (c :: sep) s) as [i|] eqn:Hi.
  - constructor; [apply firstn_free; [discriminate | exact Hi]|].
    pose proof (indexOf_bound _ _ _ Hi) as Hb.
    apply (IH (length (skipn (i + length (c :: sep)) s))); [|reflexivity].
    rewrite length_skipn. cbn [length] in *. lia.
  - constructor; [exact Hi | constructor].
Qed.

(** What the transformer has emitted and what it holds after any chunks. *)
Lemma feed_fresh D chunks :
  feed chunks (makeLineTransformer D)
  = (segs D (concat chunks),
     {| delimiter := D; buffer := tail D (concat chunks) |}).
Proof.
  destruct (fresh_stable D) as [Hs Ht].
  now rewrite (feed_eq chunks (makeLineTransformer D) Hs Ht).
Qed.

Lemma removelast_map {A B : Type} (f : A -> B) (l : list A) :
  removelast (map f l) = map f (removelast l).
Proof.
  induction l as [|a [|b l] IH]; [reflexivity | reflexivity|].
  change (removelast (map f (a :: b :: l)))
    with (f a :: removelast (map f (b :: l))).
  now rewrite IH.
Qed.

End FramerProps.

(** The framer drops nothing but delimiters.  For a non-empty delimiter and
    any chunks, the lines enqueued by [transform] followed by what is left in
    the buffer, joined again by the delimiter, are the text received; and when
    the stream ends on an unterminated tail, so are the lines of the whole
    stream, [flush] included. *)
Theorem LineFramer_loses_only_delimiters :
  forall (c : char) (sep : jsstring) (chunks : list jsstring),
    let D := c :: sep in
    let fed := LineFramer.feed chunks (LineFramer.makeLineTransformer D) in
    join D (fst fed ++ [LineFramer.buffer (snd fed)]) = concat chunks
    /\ (LineFramer.buffer (snd fed) <> [] ->
        join D (LineFramer.pipeThrough chunks (LineFramer.makeLineTransformer D))
        = concat chunks).
Proof.
  intros c sep chunks D fed.
  assert (H : join D (fst fed ++ [LineFramer.buffer (snd fed)]) = concat chunks).
  { unfold fed. rewrite FramerProps.feed_fresh. cbn [fst snd LineFramer.buffer].
    rewrite <- (LineFramer.split_segs_tail D (concat chunks)
                  (split_nonempty_sep c sep (concat chunks))).
    apply split_join. }
  split; [exact H|].
  intros Hne. unfold LineFramer.pipeThrough. fold fed.
  destruct fed as [out t1]. cbn [fst snd] in *.
  unfold LineFramer.flush. destruct (LineFramer.buffer t1); [now contradiction Hne|].
  exact H.
Qed.

(** A stream that ends on text after its last delimiter, as a witness. *)
Lemma LineFramer_loses_only_delimiters_witness :
  join [CR] (LineFramer.pipeThrough [js "P 00"; js "120" ++ [CR] ++ js "N 5"]
               (LineFramer.makeLineTransformer [CR]))
  = concat [js "P 00"; js "120" ++ [CR] ++ js "N 5"].
Proof.
  refine (proj2 (LineFramer_loses_only_delimiters CR []
                   [js "P 00"; js "120" ++ [CR] ++ js "N 5"]) _).
  vm_compute. discriminate.
Defined.

(** No line the framer emits holds the delimiter, and neither does the text
    it keeps in its buffer: for a non-empty delimiter, [includes] finds it in
    none of them. *)
Theorem LineFramer_lines_hold_no_delimiter :
  forall (c : char) (sep : jsstring) (chunks : list jsstring),
    let D := c :: sep in
    let fed := LineFramer.feed chunks (LineFramer.makeLineTransformer D) in
    Forall (fun line => includes line D = false)
           (LineFramer.pipeThrough chunks (LineFramer.makeLineTransformer D))
    /\ includes (LineFramer.buffer (snd fed)) D = false.
Proof.
  intros c sep chunks D fed.
  pose proof (FramerProps.split_from_free c sep (concat chunks)) as Hfree.
  change (split_from c sep (concat chunks)) with (split D (concat chunks)) in Hfree.
  rewrite (LineFramer.split_segs_tail D (concat chunks)
             (split_nonempty_sep c sep (concat chunks))) in Hfree.
  apply Forall_app in Hfree as [Hsegs Htail].
  apply Forall_inv in Htail.
  assert (Hinc : forall p, indexOf D p = None -> includes p D = false)
    by (intros p Hp; unfold includes; now rewrite Hp).
  unfold LineFramer.pipeThrough. fold fed. unfold fed.
  rewrite FramerProps.feed_fresh. cbn [fst snd LineFramer.buffer].
  split; [|now apply Hinc].
  apply Forall_app. split.
  - eapply Forall_impl; [|exact Hsegs]. exact Hinc.
  - unfold LineFramer.flush. cbn [LineFramer.buffer].
    destruct (LineFramer.tail D (concat chunks)) eqn:E; constructor;
      [now apply Hinc | constructor].
Qed.

(** The edge of the empty delimiter: [split] then cuts between all code
    units, so every code unit of the stream becomes a line of its own; the
    last one received waits in the buffer for the next chunk or for [flush]. *)
Theorem LineFramer_empty_delimiter :
  forall chunks : list jsstring,
    let fed := LineFramer.feed chunks (LineFramer.makeLineTransformer []) in
    LineFramer.pipeThrough chunks (LineFramer.makeLineTransformer [])
    = map (fun c => [c]) (concat chunks)
    /\ fst fed = map (fun c => [c]) (removelast (concat chunks))
    /\ LineFramer.buffer (snd fed)
       = match concat chunks with
         | [] => []
         | _ :: _ => [last (concat chunks) 0%N]
         end.
Proof.
  intros chunks fed. unfold LineFramer.pipeThrough. fold fed. unfold fed.
  rewrite FramerProps.feed_fresh. cbn [fst snd LineFramer.buffer].
  unfold LineFramer.flush, LineFramer.segs, LineFramer.tail. cbn [split LineFramer.buffer].
  set (text := concat chunks). clearbody text.
  rewrite FramerProps.removelast_map.
  destruct text as [|a text] using rev_ind; [repeat split; reflexivity|].
  clear IHtext. rewrite map_app, removelast_last. cbn [map].
  rewrite !last_last.
  destruct (text ++ [a]) eqn:E; [now destruct text|].
  repeat split; reflexivity.
Qed.

(** ** The decoders and [trim] *)

Module TrimProps.
Import Regex RegexFacts Numbers Decoder Shapes NumberFacts GenericProps.

Lemma dropWhile_app_all p (a s : jsstring) :
  forallb p a = true -> dropWhile p (a ++ s) = dropWhile p s.
Proof.
  induction a as [|x a IH]; [reflexivity|]. cbn [forallb app dropWhile].
  intros H. apply andb_prop in H as [Hx Ha]. rewrite Hx. now apply IH.
Qed.

Lemma dropWhile_app_stop p (s b : jsstring) c r :
  dropWhile p s = c :: r -> dropWhile p (s ++ b) = (c :: r) ++ b.
Proof.
  induction s as [|x s IH]; [discriminate|]. cbn [dropWhile app].
  destruct (p x); [exact IH|]. now intros [= <- <-].
Qed.

Lemma dropWhile_nil_all p (s : jsstring) :
  dropWhile p s = [] -> forallb p s = true.
Proof.
  induction s as [|x s IH]; [reflexivity|]. cbn [dropWhile forallb].
  destruct (p x); [exact IH | discriminate].
Qed.

Lemma dropWhile_all_nil p (s : jsstring) :
  forallb p s = true -> dropWhile p s = [].
Proof.
  intros H. rewrite <- (app_nil_r s). now rewrite dropWhile_app_all.
Qed.

Lemma dropWhile_decompose p (s : jsstring) :
  exists a, s = a ++ dropWhile p s /\ forallb p a = true.
Proof.
  induction s as [|x s (a & Ha & Hp)]; [now exists []|].
  cbn [dropWhile]. destruct (p x) eqn:E; [|now exists []].
  exists (x :: a). cbn [app forallb]. rewrite E, Hp.
  split; [now f_equal | reflexivity].
Qed.

Lemma forallb_rev {A : Type} (p : A -> bool) (l : list A) :
  forallb p (rev l) = forallb p l.
Proof.
  induction l as [|x l IH]; [reflexivity|]. cbn [rev forallb].
  rewrite forallb_app, IH. cbn [forallb]. now rewrite andb_true_r, andb_comm.
Qed.

(** White space around a text is what [trim] removes. *)
Lemma trim_pad (a s b : jsstring) :
  forallb isWhiteSpace a = true -> forallb isWhiteSpace b = true ->
  trim (a ++ s ++ b) = trim s.
Proof.
  intros Ha Hb. unfold trim. rewrite (dropWhile_app_all _ a _ Ha).
  destruct (dropWhile isWhiteSpace s) as [|c r] eqn:E.
  - apply dropWhile_nil_all in E.
    rewrite (dropWhile_app_all _ s b E), (dropWhile_all_nil _ b Hb).
    reflexivity.
  - rewrite (dropWhile_app_stop _ s b c r E), rev_app_distr.
    rewrite dropWhile_app_all by now rewrite forallb_rev.
    reflexivity.
Qed.

(** A text is its trim between two runs of white space. *)
Lemma trim_decompose (s : jsstring) :
  exists a b, s = a ++ trim s ++ b
              /\ forallb isWhiteSpace a = true
              /\ forallb isWhiteSpace b = true.
Proof.
  destruct (dropWhile_decompose isWhiteSpace s) as (a & Ha & Hpa).
  destruct (dropWhile_decompose isWhiteSpace (rev (dropWhile isWhiteSpace s)))
    as (b & Hb & Hpb).
  exists a, (rev b). unfold trim. split; [|split].
  - rewrite <- rev_app_distr, <- Hb, rev_involutive. exact Ha.
  - exact Hpa.
  - now rewrite forallb_rev.
Qed.

Lemma trim_trim (s : jsstring) : trim (trim s) = trim s.
Proof.
  destruct (trim_decompose s) as (a & b & Hs & Ha & Hb).
  rewrite Hs at 2. now rewrite trim_pad.
Qed.

Lemma ws_no_digit (a : jsstring) :
  forallb isWhiteSpace a = true -> no_digit a = true.
Proof.
  unfold no_digit. induction a as [|c a IH]; [reflexivity|].
  cbn [forallb]. intros H. apply andb_prop in H as [Hc Ha].
  rewrite (IH Ha), andb_true_r.
  destruct (isDigit c) eqn:E; [|reflexivity].
  apply isDigit_not_ws in E. congruence.
Qed.

Lemma no_digit_trim (s : jsstring) : no_digit (trim s) = no_digit s.
Proof.
  destruct (trim_decompose s) as (a & b & Hs & Ha & Hb).
  rewrite Hs at 2. unfold no_digit. rewrite !forallb_app.
  fold (no_digit a). fold (no_digit b).
  now rewrite (ws_no_digit a Ha), (ws_no_digit b Hb), andb_true_r.
Qed.

(** The trim of a text does not start with white space. *)
Lemma trim_head (s : jsstring) c r :
  trim s = c :: r -> isWhiteSpace c = false.
Proof.
  intros H. pose proof (trim_trim s) as Ht. rewrite H in Ht.
  unfold trim in Ht.
  destruct (isWhiteSpace c) eqn:E; [|reflexivity]. exfalso.
  cbn [dropWhile] in Ht. rewrite E in Ht.
  destruct (trim_decompose r) as (a & b & Hr & Ha & Hb).
  fold (trim r) in Ht.
  apply (f_equal (@length char)) in Ht. cbn [length] in Ht.
  apply (f_equal (@length char)) in Hr. rewrite !length_app in Hr. lia.
Qed.

End TrimProps.

(** Every decoder reads its line through [trim], so white space around a line
    changes no result: [parseWeight], [parseLineByMode], [parseLatorre5],
    [parseGeneric] and both [parseLaTorre] return on the padded line what they
    return on the line.  This is what makes a line feed left over by the
    delimiter "\r" harmless. *)
Theorem decoders_ignore_surrounding_white_space :
  forall (FACTOR : Decoder.Factor) (A : Decoder.Assume)
         (SCALE_FACTOR : Numbers.number) (mode : Decoder.Mode)
         (a line b : jsstring),
    forallb Regex.isWhiteSpace a = true ->
    forallb Regex.isWhiteSpace b = true ->
    Decoder.parseWeight (a ++ line ++ b) = Decoder.parseWeight line
    /\ Decoder.parseLineByMode FACTOR A (a ++ line ++ b) mode
       = Decoder.parseLineByMode FACTOR A line mode
    /\ Decoder.parseLatorre5 SCALE_FACTOR (a ++ line ++ b)
       = Decoder.parseLatorre5 SCALE_FACTOR line
    /\ Decoder.parseGeneric (a ++ line ++ b) = Decoder.parseGeneric line
    /\ Decoder.parseLaTorre (a ++ line ++ b) = Decoder.parseLaTorre line
    /\ BalanzaLaTorre.parseLaTorre (a ++ line ++ b)
       = BalanzaLaTorre.parseLaTorre line.
Proof.
  intros FACTOR A SCALE_FACTOR mode a line b Ha Hb.
  pose proof (TrimProps.trim_pad a line b Ha Hb) as Ht.
  unfold Decoder.parseWeight, Decoder.parseLineByMode, Decoder.parseLatorre5,
    Decoder.parseGeneric, Decoder.parseLaTorre, BalanzaLaTorre.parseLaTorre.
  rewrite Ht. repeat split; reflexivity.
Qed.

(** A telegram between a line feed and a carriage return, as a witness. *)
Lemma decoders_ignore_surrounding_white_space_witness :
  Decoder.parseWeight ([LF] ++ js "P 00120" ++ [CR])
  = Decoder.parseWeight (js "P 00120").
Proof.
  exact (proj1 (decoders_ignore_surrounding_white_space
                  Decoder.FACTOR_file Decoder.GRAMS Decoder.SCALE_FACTOR_file
                  Decoder.AUTO [LF] (js "P 00120") [CR] eq_refl eq_refl)).
Defined.

Module DecoderShape.
Import Regex RegexFacts Numbers Decoder Shapes NumberFacts TelegramSpec
       DecoderFacts GenericProps DecoderProps.

Lemma no_digit_starts (s : jsstring) :
  no_digit s = true -> starts_without_digit s = true.
Proof.
  destruct s as [|c s]; [reflexivity|]. unfold no_digit. cbn [forallb].
  intros H. now apply andb_prop in H.
Qed.

(** The generic pattern finds a decimal exactly in the texts that hold a
    digit. *)
Lemma first_number_none (s : jsstring) :
  first_number s = None <-> no_digit s = true.
Proof.
  induction s as [|c s IH]; [split; reflexivity|].
  cbn [first_number]. split.
  - destruct (number_at (c :: s)) eqn:Hn; [discriminate|].
    destruct (first_number s) as [[i n]|] eqn:Hf; [discriminate|]. intros _.
    unfold no_digit. cbn [forallb]. fold (no_digit s).
    rewrite (proj1 IH eq_refl), andb_true_r.
    destruct (isDigit c) eqn:Hd; [exfalso | reflexivity].
    unfold number_at in Hn. rewrite (digit_not_sign c Hd) in Hn.
    unfold unsigned_at in Hn. cbn [take] in Hn. rewrite Hd in Hn.
    discriminate.
  - unfold no_digit. cbn [forallb]. fold (no_digit s). intros H.
    apply andb_prop in H as [Hc Hs].
    rewrite number_at_no_start.
    + now rewrite (proj2 IH Hs).
    + now destruct (isDigit c).
    + intros _. now apply no_digit_starts.
Qed.

Lemma all_n_has_digit n (s : jsstring) :
  all_n isDigit (S n) s = true -> no_digit s = false.
Proof.
  intros H. pose proof (all_n_forallb _ _ _ H) as Hf.
  destruct s as [|d s]; [discriminate|].
  cbn [forallb] in Hf. apply andb_prop in Hf as [Hd _].
  unfold no_digit. cbn [forallb]. now rewrite Hd.
Qed.

Lemma no_digit_app (a b : jsstring) :
  no_digit (a ++ b) = no_digit a && no_digit b.
Proof. apply forallb_app. Qed.

Lemma flagged_line_has_digit letters (s : jsstring) L ds :
  flagged_line letters s = Some (L, ds) -> no_digit s = false.
Proof.
  unfold flagged_line. destruct s as [|L0 r]; [discriminate|].
  destruct (is_letter_of letters L0); [|discriminate].
  destruct r as [|w ds0]; [discriminate|].
  change (L0 :: w :: ds0) with ([L0] ++ w :: ds0).
  destruct (isWhiteSpace w && all_n isDigit 5 ds0) eqn:E.
  - intros _. apply andb_prop in E as [_ E].
    change ([L0] ++ w :: ds0) with ([L0; w] ++ ds0).
    rewrite no_digit_app, (all_n_has_digit _ _ E). apply andb_false_r.
  - destruct (all_n isDigit 5 (w :: ds0)) eqn:E'; [|discriminate]. intros _.
    rewrite no_digit_app, (all_n_has_digit _ _ E'). apply andb_false_r.
Qed.

Lemma prefixed_line_has_digit (s ds : jsstring) :
  prefixed_line s = Some ds -> no_digit s = false.
Proof.
  unfold prefixed_line. destruct s as [|L r]; [discriminate|].
  destruct (N.eqb (canonicalize true 68%N) (canonicalize true L)
            && all_n isDigit 6 r) eqn:E; [|discriminate]. intros _.
  apply andb_prop in E as [_ E].
  change (L :: r) with ([L] ++ r).
  rewrite no_digit_app, (all_n_has_digit _ _ E). apply andb_false_r.
Qed.

End DecoderShape.

(** [parseWeight] returns [null] exactly for the lines that hold no decimal
    digit: one digit anywhere is enough for a sample.  A line without a digit
    is rejected by every other decoder as well: [parseLineByMode] returns
    [{ ok: false, raw }], [parseLatorre5] and [parseGeneric] return [null],
    and both [parseLaTorre] return [ok: false]. *)
Theorem lines_without_digits_are_rejected :
  forall (FACTOR : Decoder.Factor) (A : Decoder.Assume)
         (SCALE_FACTOR : Numbers.number) (mode : Decoder.Mode)
         (line : jsstring),
    let no_digit := forallb (fun c => negb (Regex.isDigit c)) line in
    (Decoder.parseWeight line = None <-> no_digit = true)
    /\ (no_digit = true ->
        Decoder.parseLineByMode FACTOR A line mode
        = Decoder.no_match (Regex.trim line)
        /\ Decoder.parseLatorre5 SCALE_FACTOR line = None
        /\ Decoder.parseGeneric line = None
        /\ Decoder.lt_ok (Decoder.parseLaTorre line) = false
        /\ BalanzaLaTorre.ok (BalanzaLaTorre.parseLaTorre line) = false).
Proof.
  intros FACTOR A SCALE_FACTOR mode line no_digit.
  change no_digit with (GenericProps.no_digit line). clear no_digit.
  rewrite <- (TrimProps.no_digit_trim line).
  split.
  - rewrite DecoderFacts.parseWeight_eq.
    rewrite <- DecoderShape.first_number_none.
    destruct (Shapes.first_number (Regex.trim line)) as [[j n]|];
      split; intros H; try reflexivity; discriminate.
  - intros Hs. set (s := Regex.trim line) in *.
    assert (Hflag : forall letters, Shapes.flagged_line letters s = None).
    { intros letters.
      destruct (Shapes.flagged_line letters s) as [[L ds]|] eqn:E;
        [|reflexivity].
      apply DecoderShape.flagged_line_has_digit in E. congruence. }
    assert (Hbare : Shapes.all_n Regex.isDigit 5 s = false).
    { destruct (Shapes.all_n Regex.isDigit 5 s) eqn:E; [|reflexivity].
      apply DecoderShape.all_n_has_digit in E. congruence. }
    assert (Hgen : Shapes.first_number s = None)
      by now apply DecoderShape.first_number_none.
    assert (Hpre : Shapes.prefixed_line s = None).
    { destruct (Shapes.prefixed_line s) eqn:E; [|reflexivity].
      apply DecoderShape.prefixed_line_has_digit in E. congruence. }
    split; [|split; [|split; [|split]]].
    + rewrite DecoderFacts.parseLineByMode_eq. fold s.
      unfold TelegramSpec.decode, TelegramSpec.first_match,
        TelegramSpec.flagged_variant, TelegramSpec.bare_variant,
        TelegramSpec.generic_variant.
      now rewrite Hflag, Hbare, Hgen.
    + unfold Decoder.parseLatorre5. fold s.
      now rewrite Shapes.match_latorre5, Hflag.
    + unfold Decoder.parseGeneric, Decoder.genericNumberRegex. fold s.
      now rewrite Shapes.match_weight, Hgen.
    + unfold Decoder.parseLaTorre. fold s.
      now rewrite Shapes.match_laTorre, Hpre.
    + unfold BalanzaLaTorre.parseLaTorre. fold s.
      now rewrite Shapes.match_laTorre, Hpre.
Qed.

Module SampleShape.
Import Regex RegexFacts Numbers Decoder Shapes NumberFacts TelegramSpec
       DecoderFacts GenericProps.

(** The text of a decimal: an optional sign, 1 to 6 digits, and either
    nothing or [sep] and 1 to 3 digits. *)
Definition decimal_text (sep : char) (sgn ip fp : jsstring) : jsstring :=
  sgn ++ ip ++ match fp with [] => [] | _ :: _ => sep :: fp end.

Definition decimal_parts (sgn ip fp : jsstring) : Prop :=
  (sgn = [] \/ sgn = js "+" \/ sgn = js "-")
  /\ forallb isDigit ip = true /\ 1 <= length ip <= 6
  /\ forallb isDigit fp = true /\ length fp <= 3.

Lemma unsigned_at_shape (s u : jsstring) :
  unsigned_at s = Some u ->
  exists sep ip fp,
    u = decimal_text sep [] ip fp /\ decimal_parts [] ip fp
    /\ (fp <> [] -> is_separator sep = true).
Proof.
  unfold unsigned_at.
  pose proof (take_forallb isDigit 6 s) as Hd.
  pose proof (take_length_le isDigit 6 s) as Hl.
  destruct (take isDigit 6 s) as [|d ip] eqn:E; [discriminate|].
  intros H. set (r := skipn (length (d :: ip)) s) in H. clearbody r.
  assert (Hu : u = (d :: ip) ++ fraction_at r) by congruence.
  clear H. subst u.
  unfold fraction_at. destruct r as [|sep r].
  { exists 46%N, (d :: ip), []. unfold decimal_text, decimal_parts.
    cbn [app length] in *. repeat split; auto; lia. }
  destruct (is_separator sep) eqn:Hs.
  - pose proof (take_forallb isDigit 3 r) as Hd3.
    pose proof (take_length_le isDigit 3 r) as Hl3.
    destruct (take isDigit 3 r) as [|f fp] eqn:E3.
    + exists 46%N, (d :: ip), []. unfold decimal_text, decimal_parts.
      cbn [app length] in *. repeat split; auto; lia.
    + exists sep, (d :: ip), (f :: fp). unfold decimal_text, decimal_parts.
      cbn [app length] in *. repeat split; auto; lia.
  - exists 46%N, (d :: ip), []. unfold decimal_text, decimal_parts.
    cbn [app length] in *. repeat split; auto; lia.
Qed.

Lemma number_at_shape (s n : jsstring) :
  number_at s = Some n ->
  exists sep sgn ip fp,
    n = decimal_text sep sgn ip fp /\ decimal_parts sgn ip fp
    /\ (fp <> [] -> is_separator sep = true).
Proof.
  unfold number_at. destruct s as [|c s]; [discriminate|].
  destruct (is_sign c) eqn:Hc.
  - destruct (unsigned_at s) as [u|] eqn:Hu; [|discriminate].
    intros [= <-].
    destruct (unsigned_at_shape s u Hu)
      as (sep & ip & fp & -> & (_ & Hip & Hl & Hfp & Hl3) & Hsep).
    exists sep, [c], ip, fp. unfold decimal_text, decimal_parts.
    repeat split; auto; try lia.
    unfold is_sign in Hc. apply orb_prop in Hc as [Hc | Hc];
      apply N.eqb_eq in Hc; subst c; auto.
  - intros Hu.
    destruct (unsigned_at_shape _ _ Hu) as (sep & ip & fp & -> & Hp & Hsep).
    now exists sep, [], ip, fp.
Qed.

Lemma first_number_at (s : jsstring) j n :
  first_number s = Some (j, n) -> exists s', number_at s' = Some n.
Proof.
  revert j; induction s as [|c s IH]; intros j; cbn [first_number].
  - destruct (number_at []) eqn:E; [|discriminate].
    intros [= _ <-]. now exists [].
  - destruct (number_at (c :: s)) eqn:E.
    + intros [= _ <-]. now exists (c :: s).
    + destruct (first_number s) as [[i m]|]; [|discriminate].
      intros [= _ <-]. now apply (IH i).
Qed.

Lemma sign_no_comma (sgn : jsstring) :
  sgn = [] \/ sgn = js "+" \/ sgn = js "-" -> no_comma sgn = true.
Proof. intros [-> | [-> | ->]]; reflexivity. Qed.

Lemma no_comma_app (a b : jsstring) :
  no_comma (a ++ b) = no_comma a && no_comma b.
Proof. apply forallb_app. Qed.

End SampleShape.

(** What [parseWeight] returns is always the text of a decimal: an optional
    sign, 1 to 6 digits and, if a fraction follows, a point and 1 to 3 digits.
    It is never empty (so the test [if (parsed)] of the read loops never drops
    a match) and it holds no comma: a decimal comma of the line has become a
    point. *)
Theorem parseWeight_sample_shape :
  forall line sample : jsstring,
    Decoder.parseWeight line = Some sample ->
    exists sgn ip fp : jsstring,
      sample = sgn ++ ip ++ match fp with [] => [] | _ :: _ => 46%N :: fp end
      /\ (sgn = [] \/ sgn = js "+" \/ sgn = js "-")
      /\ forallb Regex.isDigit ip = true /\ 1 <= length ip <= 6
      /\ forallb Regex.isDigit fp = true /\ length fp <= 3
      /\ includes sample (js ",") = false.
Proof.
  intros line sample. rewrite DecoderFacts.parseWeight_eq.
  destruct (Shapes.first_number (Regex.trim line)) as [[j n]|] eqn:Hf;
    [|discriminate].
  intros [= <-].
  destruct (SampleShape.first_number_at _ _ _ Hf) as (s' & Hn).
  destruct (SampleShape.number_at_shape _ _ Hn)
    as (sep & sgn & ip & fp & -> & (Hsgn & Hip & Hl & Hfp & Hl3) & Hsep).
  exists sgn, ip, fp.
  pose proof (SampleShape.sign_no_comma sgn Hsgn) as Hc1.
  pose proof (GenericProps.digits_no_comma ip Hip) as Hc2.
  pose proof (GenericProps.digits_no_comma fp Hfp) as Hc3.
  assert (Hinc : forall t, GenericProps.no_comma t = true ->
                           includes t (js ",") = false).
  { intros t Ht. unfold includes.
    now rewrite (GenericProps.indexOf_comma_none t Ht). }
  unfold SampleShape.decimal_text.
  set (sample := Regex.replace _ _ _).
  destruct fp as [|f fp].
  - assert (Hnc : GenericProps.no_comma (sgn ++ ip ++ []) = true)
      by now rewrite !SampleShape.no_comma_app, Hc1, Hc2.
    assert (Hs : sample = sgn ++ ip ++ []).
    { unfold sample.
      change (Regex.replace (js ",") (js ".") (sgn ++ ip ++ [])
              = sgn ++ ip ++ []).
      unfold Regex.replace.
      now rewrite (GenericProps.indexOf_comma_none _ Hnc). }
    clearbody sample. subst sample.
    repeat split; auto; lia.
  - assert (Hs : sample = sgn ++ ip ++ 46%N :: f :: fp).
    { unfold sample. rewrite !app_assoc.
      apply GenericProps.replace_separator;
        [ now rewrite SampleShape.no_comma_app, Hc1, Hc2
        | exact Hc3 | apply Hsep; discriminate ]. }
    clearbody sample. subst sample.
    repeat split; auto; try lia.
    apply Hinc. rewrite !SampleShape.no_comma_app, Hc1, Hc2.
    change (46%N :: f :: fp) with ([46%N] ++ f :: fp).
    now rewrite SampleShape.no_comma_app, Hc3.
Qed.

(** A line with a decimal comma, as a witness. *)
Lemma parseWeight_sample_shape_witness :
  exists sgn ip fp : jsstring,
    js "-12.5" = sgn ++ ip ++ match fp with [] => [] | _ :: _ => 46%N :: fp end
    /\ (sgn = [] \/ sgn = js "+" \/ sgn = js "-")
    /\ forallb Regex.isDigit ip = true /\ 1 <= length ip <= 6
    /\ forallb Regex.isDigit fp = true /\ length fp <= 3
    /\ includes (js "-12.5") (js ",") = false.
Proof.
  apply (parseWeight_sample_shape (js "N -12,5 kg") (js "-12.5")).
  vm_compute. reflexivity.
Defined.

Module StatusCodes.
Import Regex RegexFacts Numbers Decoder Shapes NumberFacts TelegramSpec
       DecoderFacts GenericProps DecoderProps.

(** A letter accepted by the class [[PNTBR]] under the [i] flag is, in upper
    case, one of the five status letters. *)
Lemma letter_upper_case L :
  is_letter_of (js "PNTBR") L = true ->
  is_status_letter (canonicalize true L) = true.
Proof.
  unfold is_letter_of. cbn [js existsb]. rewrite !orb_true_iff.
  intros H.
  assert (HL : (L = 80 \/ L = 112 \/ L = 78 \/ L = 110 \/ L = 84 \/ L = 116
                \/ L = 66 \/ L = 98 \/ L = 82 \/ L = 114)%N).
  { repeat (destruct H as [H|H];
            [apply canonicalize_letter in H; [cbn in H; lia | cbn; lia]|]).
    discriminate. }
  repeat (destruct HL as [-> | HL]; [reflexivity|]).
  subst; reflexivity.
Qed.

(** The space of the class [[PN TBR]] never matches: [trim] has removed the
    white space a line could start with. *)
Lemma space_not_first L :
  isWhiteSpace L = false ->
  N.eqb (canonicalize true 32%N) (canonicalize true L) = false.
Proof.
  intros Hws. apply N.eqb_neq. intros H.
  unfold canonicalize in H. cbn [andb] in H.
  change ((97 <=? 32)%N && (32 <=? 122)%N) with false in H.
  destruct ((97 <=? L)%N && (L <=? 122)%N) eqn:E.
  - apply andb_prop in E as [E1 E2]. apply N.leb_le in E1. lia.
  - subst L. discriminate.
Qed.

Lemma flagged_space_dead (s : jsstring) :
  match s with [] => True | L :: _ => isWhiteSpace L = false end ->
  flagged_line (js "PN TBR") s = flagged_line (js "PNTBR") s.
Proof.
  destruct s as [|L r]; [reflexivity|]. intros Hws.
  unfold flagged_line.
  replace (is_letter_of (js "PN TBR") L) with (is_letter_of (js "PNTBR") L);
    [reflexivity|].
  unfold is_letter_of. cbn [js existsb].
  change (char_of_ascii " ") with 32%N.
  rewrite (space_not_first L Hws). cbn [orb]. reflexivity.
Qed.

Lemma trim_starts (line : jsstring) :
  match trim line with [] => True | L :: _ => isWhiteSpace L = false end.
Proof.
  destruct (trim line) as [|L r] eqn:E; [exact I|].
  exact (TrimProps.trim_head line L r E).
Qed.

End StatusCodes.

(** The class [[PN TBR]] of [parseLatorre5] lists a space, but a trimmed line
    never starts with one: whatever [parseLatorre5] accepts carries one of the
    letters P, N, T, B, R, in upper case, in its source "L1001(x)".  It
    accepts exactly the lines [parseLineByMode] decodes as flagged, and that
    decoder reports the same letter as its flag. *)
Theorem parseLatorre5_status_codes :
  forall (FACTOR : Decoder.Factor) (A : Decoder.Assume)
         (SCALE_FACTOR : Numbers.number) (mode : Decoder.Mode)
         (line : jsstring),
    match Decoder.parseLatorre5 SCALE_FACTOR line with
    | Some r =>
        exists L : char,
          DecoderProps.is_status_letter L = true
          /\ Decoder.source r = js "L1001(" ++ [L] ++ js ")"
          /\ Decoder.src (Decoder.parseLineByMode FACTOR A line mode)
             = Some Decoder.SRC_GRAMS5_P
          /\ Decoder.flag (Decoder.parseLineByMode FACTOR A line mode)
             = Some [L]
    | None =>
        Decoder.src (Decoder.parseLineByMode FACTOR A line mode)
        <> Some Decoder.SRC_GRAMS5_P
    end.
Proof.
  intros FACTOR A SCALE_FACTOR mode line.
  rewrite DecoderFacts.parseLineByMode_eq.
  unfold Decoder.parseLatorre5. rewrite Shapes.match_latorre5.
  rewrite (StatusCodes.flagged_space_dead _ (StatusCodes.trim_starts line)).
  set (s := Regex.trim line).
  unfold TelegramSpec.decode, TelegramSpec.first_match,
    TelegramSpec.flagged_variant.
  destruct (Shapes.flagged_line (js "PNTBR") s) as [[L ds]|] eqn:Hf.
  - pose proof (DecoderFacts.flagged_line_digits _ _ _ _ Hf) as Hd.
    destruct (GenericProps.flagged_line_members _ _ _ _ Hf)
      as [(_ & r & _ & HL) _].
    cbn [Regex.group Regex.groups Regex.assoc Nat.eqb].
    rewrite (NumberFacts.parseInt10_digits ds
               (DecoderFacts.all_n_nonempty _ _ _ Hd)
               (DecoderFacts.all_n_forallb _ _ _ Hd)).
    destruct (NumberFacts.all_n_digits_finite 5 ds) as [_ Hnan];
      [lia | exact Hd |].
    rewrite Hnan. cbn [Decoder.source Decoder.src Decoder.flag].
    exists (Regex.canonicalize true L).
    repeat split; [now apply StatusCodes.letter_upper_case].
  - unfold TelegramSpec.bare_variant, TelegramSpec.generic_variant.
    destruct (Shapes.all_n Regex.isDigit 5 s).
    + destruct (TelegramSpec.bare_is_kg A mode); discriminate.
    + destruct (Shapes.first_number s) as [[j n]|]; discriminate.
Qed.

(** ** The La Torre display: watchdog and read loop *)

Module WatchdogProps.
Import Regex Numbers BalanzaLaTorre.

Definition is_line (ev : Event) : bool :=
  match ev with Line _ _ => true | Poll _ => false end.

Lemma quiet_poll now st : watchdog_fires now st = false -> watchdog_poll now st = st.
Proof.
  unfold watchdog_fires, watchdog_poll.
  destruct (lastSeenRef st =? 0)%Z; [reflexivity|]. cbn [negb andb].
  now intros ->.
Qed.

(** A line that is no telegram changes nothing. *)
Lemma ignored_line now value st :
  ok (parseLaTorre value) = false -> on_line now value st = st.
Proof.
  intros H. unfold on_line.
  destruct (trim value) as [|c r] eqn:E; [reflexivity|].
  assert (Hp : parseLaTorre (c :: r) = parseLaTorre value).
  { unfold parseLaTorre. now rewrite <- E, TrimProps.trim_trim. }
  rewrite Hp, H. reflexivity.
Qed.

End WatchdogProps.

(** While the telegrams keep coming the watchdog is not seen: a run in which
    no poll finds the threshold of 800 ms exceeded ends in the state of the
    same run without its polls, so display, window and time stamp are those
    the lines alone produce. *)
Theorem watchdog_transparent_while_telegrams_flow :
  forall (evs : list BalanzaLaTorre.Event) (st : BalanzaLaTorre.State),
    BalanzaLaTorre.resets evs st = 0 ->
    BalanzaLaTorre.run evs st
    = BalanzaLaTorre.run (filter WatchdogProps.is_line evs) st.
Proof.
  induction evs as [|ev evs IH]; intros st H; [reflexivity|].
  cbn [BalanzaLaTorre.resets] in H.
  apply Nat.eq_add_0 in H as [Hev Hrest].
  unfold BalanzaLaTorre.run in *. cbn [fold_left filter].
  destruct ev as [now value | now]; cbn [WatchdogProps.is_line fold_left].
  - now apply IH.
  - cbn [BalanzaLaTorre.step] in *.
    destruct (BalanzaLaTorre.watchdog_fires now st) eqn:E; [discriminate|].
    rewrite (WatchdogProps.quiet_poll now st E) in *. now apply IH.
Qed.

(** Telegrams every 300 ms under polls every 120 ms, as a witness. *)
Lemma watchdog_transparent_while_telegrams_flow_witness :
  BalanzaLaTorre.run
    [BalanzaLaTorre.Line 1000 (js "D025500"); BalanzaLaTorre.Poll 1120;
     BalanzaLaTorre.Poll 1240; BalanzaLaTorre.Line 1300 (js "D025510");
     BalanzaLaTorre.Poll 1360] BalanzaLaTorre.connected_state
  = BalanzaLaTorre.run
      (filter WatchdogProps.is_line
         [BalanzaLaTorre.Line 1000 (js "D025500"); BalanzaLaTorre.Poll 1120;
          BalanzaLaTorre.Poll 1240; BalanzaLaTorre.Line 1300 (js "D025510");
          BalanzaLaTorre.Poll 1360]) BalanzaLaTorre.connected_state.
Proof.
  apply watchdog_transparent_while_telegrams_flow. vm_compute. reflexivity.
Defined.

(** Before the first telegram nothing moves.  From a state whose time stamp
    is still 0, as [connect] leaves it, lines that are no telegram and polls
    of the watchdog at any time leave the state as it is: the watchdog performs
    no reset, and the display keeps showing what [connect] put there. *)
Theorem display_idle_until_first_telegram :
  forall (evs : list BalanzaLaTorre.Event) (st : BalanzaLaTorre.State),
    BalanzaLaTorre.lastSeenRef st = 0%Z ->
    (forall now value,
        In (BalanzaLaTorre.Line now value) evs ->
        BalanzaLaTorre.ok (BalanzaLaTorre.parseLaTorre value) = false) ->
    BalanzaLaTorre.run evs st = st /\ BalanzaLaTorre.resets evs st = 0.
Proof.
  induction evs as [|ev evs IH]; intros st Hseen Hlines; [now split|].
  assert (Hstep : BalanzaLaTorre.step st ev = st
                  /\ match ev with
                     | BalanzaLaTorre.Poll now =>
                         BalanzaLaTorre.watchdog_fires now st = false
                     | BalanzaLaTorre.Line _ _ => True
                     end).
  { destruct ev as [now value | now]; cbn [BalanzaLaTorre.step].
    - split; [|exact I]. apply WatchdogProps.ignored_line.
      apply (Hlines now). now left.
    - assert (E : BalanzaLaTorre.watchdog_fires now st = false)
        by (unfold BalanzaLaTorre.watchdog_fires; now rewrite Hseen).
      split; [now apply WatchdogProps.quiet_poll | exact E]. }
  destruct Hstep as [Hstep Hquiet].
  unfold BalanzaLaTorre.run in *. cbn [fold_left BalanzaLaTorre.resets].
  rewrite Hstep.
  destruct (IH st Hseen) as [Hrun Hres].
  { intros now value Hin. apply (Hlines now). now right. }
  split; [exact Hrun|]. rewrite Hres.
  destruct ev as [now value | now]; [reflexivity | now rewrite Hquiet].
Qed.

(** Noise and polls after [connect], as a witness. *)
Lemma display_idle_until_first_telegram_witness :
  BalanzaLaTorre.run
    [BalanzaLaTorre.Poll 120; BalanzaLaTorre.Line 130 (js "P 00120");
     BalanzaLaTorre.Line 140 [LF]; BalanzaLaTorre.Poll 5000]
    BalanzaLaTorre.connected_state
  = BalanzaLaTorre.connected_state.
Proof.
  refine (proj1 (display_idle_until_first_telegram
                   [BalanzaLaTorre.Poll 120;
                    BalanzaLaTorre.Line 130 (js "P 00120");
                    BalanzaLaTorre.Line 140 [LF]; BalanzaLaTorre.Poll 5000]
                   BalanzaLaTorre.connected_state eq_refl _)).
  intros now value [H | [H | [H | [H | []]]]]; try discriminate H;
    injection H as _ <-; reflexivity.
Defined.

(** ** The search and the probes *)

Module SearchSound.
Import Async Probe.

Section Search.

Context {Dev : Type} {P : Port Dev}.
Variable probeOnce : DetectedConfig -> M (Dev := Dev) ProbeResult.

(** What one turn of the loop has done when it returns. *)
Definition turn_of (c : DetectedConfig) (res : option DetectedConfig)
  (w' : World Dev) : Prop :=
  exists w0 r w1,
    probeOnce c w0 = (Ok r, w1)
    /\ match res with
       | Some cfg =>
           cfg = c /\ probe_ok r = true
           /\ weight (ui w') = shown (probe_sample r)
           /\ rawLine (ui w') = shown (probe_raw r)
           /\ now w' = now w1 /\ dev w' = dev w1
       | None => probe_ok r = false /\ w' = w1
       end.

Lemma try_candidate_inv c w res w' :
  try_candidate probeOnce c w = (Ok res, w') -> turn_of c res w'.
Proof.
  unfold try_candidate, bind, setStatus, set_ui, turn_of.
  match goal with |- context [probeOnce c ?w0] =>
    destruct (probeOnce c w0) as [[r|e|] w1] eqn:Hp; [|discriminate..];
    intros H; exists w0, r, w1 end.
  split; [exact Hp|].
  destruct (probe_ok r) eqn:Hok.
  - unfold setRawLine, setWeight, setLog, set_ui, ret in H.
    injection H as <- <-. repeat split.
  - unfold ret in H. injection H as <- <-. now split.
Qed.

(** What a search has done when it returns: the configuration it returns is
    one of the candidates, probed with success; when it returns none, every
    candidate has been probed without success. *)
Lemma scan_sound cs :
  forall w res w',
    ProbeProps.scan probeOnce cs w = (Ok res, w') ->
    match res with
    | Some c => In c cs /\ turn_of c (Some c) w'
    | None => forall c, In c cs -> exists w1, turn_of c None w1
    end.
Proof.
  induction cs as [|c0 cs IH]; intros w res w'; cbn [ProbeProps.scan].
  - unfold ret. intros [= <- <-]. now intros c [].
  - unfold bind.
    destruct (try_candidate probeOnce c0 w) as [[[cfg|]|e|] w1] eqn:Ht;
      [| |discriminate..].
    + unfold ret. intros [= <- <-].
      pose proof (try_candidate_inv _ _ _ _ Ht) as Hturn.
      assert (cfg = c0) as -> by (destruct Hturn as (? & ? & ? & _ & Hc & _);
                                   exact Hc).
      split; [now left | exact Hturn].
    + intros H. specialize (IH _ _ _ H).
      pose proof (try_candidate_inv _ _ _ _ Ht) as Hturn.
      destruct res as [c|].
      * destruct IH as [Hin Hc]. split; [now right | exact Hc].
      * intros c [<- | Hin]; [now exists w1 | now apply IH].
Qed.

End Search.

End SearchSound.

(** What [autoDetect] returns, for any probe.  A configuration it returns is
    one of the enumerated candidates, its probe has returned [ok] with a
    sample, and that sample and its raw line are what the display shows.  When
    it returns [null], the probe of every candidate has been run and has
    returned without a match. *)
Theorem autoDetect_result_is_a_probed_candidate :
  forall (Dev : Type) (P : Async.Port Dev)
         (probeOnce : Probe.DetectedConfig -> Async.M (Dev := Dev) Probe.ProbeResult)
         (BAUDS : list N) (SETUPS : list Probe.Setup) (DELIMS : list jsstring)
         (w w' : Async.World Dev) (res : option Probe.DetectedConfig),
    Probe.autoDetect probeOnce BAUDS SETUPS DELIMS w = (Async.Ok res, w') ->
    match res with
    | Some c =>
        In c (ProbeProps.candidates BAUDS SETUPS DELIMS)
        /\ exists w0 r w1,
             probeOnce c w0 = (Async.Ok r, w1)
             /\ Probe.probe_ok r = true
             /\ Async.weight (Async.ui w') = Probe.shown (Probe.probe_sample r)
             /\ Async.rawLine (Async.ui w') = Probe.shown (Probe.probe_raw r)
    | None =>
        forall c, In c (ProbeProps.candidates BAUDS SETUPS DELIMS) ->
                  exists w0 r w1,
                    probeOnce c w0 = (Async.Ok r, w1)
                    /\ Probe.probe_ok r = false
    end.
Proof.
  intros Dev P probeOnce BAUDS SETUPS DELIMS w w' res H.
  rewrite ProbeProps.autoDetect_scan in H.
  apply SearchSound.scan_sound in H.
  destruct res as [c|].
  - destruct H as [Hin (w0 & r & w1 & Hp & _ & Hok & Hw & Hr & _)].
    split; [exact Hin|]. now exists w0, r, w1.
  - intros c Hin. destruct (H c Hin) as (w2 & w0 & r & w1 & Hp & Hok & _).
    now exists w0, r, w1.
Qed.

(** The search on the simulated scale, as a witness. *)
Lemma autoDetect_result_is_a_probed_candidate_witness :
  In AutoDetectExample.Cstar
     (ProbeProps.candidates ScaleAutoDetectAuto.BAUDS
        ScaleAutoDetectAuto.SETUPS ScaleAutoDetectAuto.DELIMS).
Proof.
  refine (proj1 (autoDetect_result_is_a_probed_candidate unit
                   Simulated.scale_8N1
                   (ScaleAutoDetectAuto.probeOnce (P := Simulated.scale_8N1))
                   ScaleAutoDetectAuto.BAUDS ScaleAutoDetectAuto.SETUPS
                   ScaleAutoDetectAuto.DELIMS Simulated.start
                   (snd (ScaleAutoDetectAuto.autoDetect
                           (P := Simulated.scale_8N1) Simulated.start))
                   (Some AutoDetectExample.Cstar) _)).
  vm_compute. reflexivity.
Defined.

(** ** [readSomeBytes] *)

Module ReadBytes.
Import Async ScaleAutoDetectAuto.
Local Open Scope Z_scope.

Section Port.
Context {Dev : Type} {P : Port Dev}.


End Port.

End ReadBytes.



(** A chunk that arrives in the millisecond of the deadline is returned, 5 ms
    later; one that arrives a millisecond after it is not. *)
Example readSomeBytes_chunk_on_the_deadline :
  let line at_ :=
    Simulated.port (fun _ => true)
      {| Async.chunks := []; Async.ending := Async.Silent |}
      {| Async.chunks := [(at_, [9%N])]; Async.ending := Async.Silent |} 0 in
  let after at_ :=
    ScaleAutoDetectAuto.readSomeBytes (P := line at_) 250 Simulated.start in
  fst (after 250%Z) = Async.Ok [9%N]
  /\ Async.now (snd (after 250%Z)) = 255%Z
  /\ fst (after 251%Z) = Async.Ok []
  /\ Async.now (snd (after 251%Z)) = 255%Z.
Proof. repeat split; reflexivity. Qed.

(** ** What the asynchronous code keeps of the display *)

Module Keeps.
Import Async Probe.
Local Open Scope async_scope.

Section Invariant.

Context {Dev : Type} {P : Port Dev}.

(** A property of the display. *)
Variable I : UI -> Prop.

(** [m] keeps [I]: however [m] settles, or where it stays pending, the
    display satisfies [I] if it did before. *)
Definition keeps {A : Type} (m : M (Dev := Dev) A) : Prop :=
  forall w r w', m w = (r, w') -> I (ui w) -> I (ui w').

Lemma keeps_ret {A : Type} (a : A) : keeps (ret a).
Proof. intros w r w' [= <- <-] H. exact H. Qed.

Lemma keeps_throw {A : Type} (e : Err) : keeps (throw (A := A) e).
Proof. intros w r w' [= <- <-] H. exact H. Qed.

Lemma keeps_bind {A B : Type} (m : M A) (f : A -> M B) :
  keeps m -> (forall a, keeps (f a)) -> keeps (bind m f).
Proof.
  intros Hm Hf w r w'. unfold bind.
  destruct (m w) as [[a|e|] w1] eqn:E; intros H Hw.
  - apply (Hf a w1 r w' H). now apply (Hm w (Ok a) w1).
  - injection H as <- <-. now apply (Hm w (Throw e) w1).
  - injection H as <- <-. now apply (Hm w Pending w1).
Qed.

Lemma keeps_try_catch {A : Type} (m : M A) (h : Err -> M A) :
  keeps m -> (forall e, keeps (h e)) -> keeps (try_catch m h).
Proof.
  intros Hm Hh w r w'. unfold try_catch.
  destruct (m w) as [[a|e|] w1] eqn:E; intros H Hw.
  - injection H as <- <-. now apply (Hm w (Ok a) w1).
  - apply (Hh e w1 r w' H). now apply (Hm w (Throw e) w1).
  - injection H as <- <-. now apply (Hm w Pending w1).
Qed.

Lemma keeps_try_finally {A : Type} (m : M A) (f : M unit) :
  keeps m -> keeps f -> keeps (try_finally m f).
Proof.
  intros Hm Hf w r w'. unfold try_finally.
  destruct (m w) as [[a|e|] w1] eqn:E; intros H Hw.
  - apply (keeps_bind f (fun _ => ret a) Hf (fun _ => keeps_ret a) w1 r w' H).
    now apply (Hm w (Ok a) w1).
  - apply (keeps_bind f (fun _ => throw e) Hf (fun _ => keeps_throw e)
             w1 r w' H).
    now apply (Hm w (Throw e) w1).
  - injection H as <- <-. now apply (Hm w Pending w1).
Qed.

Lemma keeps_ignore_errors (m : M unit) : keeps m -> keeps (ignore_errors m).
Proof.
  intros Hm. apply keeps_try_catch; [exact Hm|]. intros e. apply keeps_ret.
Qed.

Lemma keeps_on_dev {A : Type} (op : Dev -> Res A * Dev) : keeps (on_dev op).
Proof.
  intros w r w'. unfold on_dev. destruct (op (dev w)) as [r0 d].
  intros [= <- <-] H. exact H.
Qed.

Lemma keeps_Date_now : keeps Date_now.
Proof. intros w r w' [= <- <-] H. exact H. Qed.

Lemma keeps_wait_until t : keeps (wait_until t).
Proof. intros w r w' [= <- <-] H. exact H. Qed.

Lemma keeps_sleep ms : keeps (sleep ms).
Proof. intros w r w' [= <- <-] H. exact H. Qed.

Lemma keeps_set_ui (f : UI -> UI) :
  (forall u, I u -> I (f u)) -> keeps (set_ui f).
Proof. intros Hf w r w' [= <- <-] H. now apply Hf. Qed.

Lemma keeps_release : keeps ScaleAutoDetectAuto.release_current_reader.
Proof.
  intros w r w'. unfold ScaleAutoDetectAuto.release_current_reader.
  destruct (readerRef w); [apply keeps_on_dev|].
  intros [= <- <-] H. exact H.
Qed.

Lemma keeps_raise_signals : keeps ScaleAutoDetectAuto.raise_signals.
Proof.
  unfold ScaleAutoDetectAuto.raise_signals.
  destruct port_setSignals; [apply keeps_on_dev | apply keeps_ret].
Qed.

(** The read loop of the probes does not touch the display. *)
Lemma keeps_probe_loop endAt t0 e lines : keeps (probe_loop endAt t0 lines e).
Proof.
  induction lines as [|[at_ value] lines IH]; cbn [probe_loop];
    apply keeps_bind; try apply keeps_Date_now; intros t;
    destruct (t <? endAt)%Z;
    try (apply keeps_bind; [apply keeps_on_dev | intros; apply keeps_ret]).
  - destruct e as [at_ | at_ err |].
    + apply keeps_bind; [apply keeps_wait_until | intros _].
      apply keeps_bind; [apply keeps_on_dev | intros; apply keeps_ret].
    + apply keeps_bind; [apply keeps_wait_until | intros _; apply keeps_throw].
    + intros w r w' [= <- <-] H. exact H.
  - apply keeps_bind; [apply keeps_wait_until | intros _].
    destruct (Regex.trim value) as [|c raw]; [exact IH|].
    destruct (Decoder.parseWeight (c :: raw)) as [[|c' parsed]|];
      try exact IH.
    apply keeps_bind; [apply keeps_on_dev | intros; apply keeps_ret].
Qed.

End Invariant.

End Keeps.

Module LogBound.
Import Async Probe Keeps.
Local Open Scope async_scope.

(** The log holds at most [cap] lines. *)
Definition bounded (cap : nat) (u : UI) : Prop := length (log u) <= cap.

Section Bound.

Context {Dev : Type} {P : Port Dev}.
Variable cap : nat.

Lemma keeps_setStatus s : keeps (Dev := Dev) (bounded cap) (setStatus s).
Proof. apply keeps_set_ui. intros u H. exact H. Qed.

Lemma keeps_setWeight s : keeps (Dev := Dev) (bounded cap) (setWeight s).
Proof. apply keeps_set_ui. intros u H. exact H. Qed.

Lemma keeps_setRawLine s : keeps (Dev := Dev) (bounded cap) (setRawLine s).
Proof. apply keeps_set_ui. intros u H. exact H. Qed.

Lemma keeps_setLog c line :
  c <= cap -> keeps (Dev := Dev) (bounded cap) (setLog c line).
Proof.
  intros Hc. apply keeps_set_ui. intros u _. unfold bounded. cbn [log].
  rewrite length_firstn. lia.
Qed.

Lemma keeps_open c prefix b d p s :
  c <= cap ->
  keeps (Dev := Dev) (bounded cap) (ScaleAutoDetectAuto.openWithConfig_logging c prefix b d p s).
Proof.
  intros Hc. unfold ScaleAutoDetectAuto.openWithConfig_logging.
  apply keeps_bind; [apply keeps_ignore_errors, keeps_release | intros _].
  apply keeps_bind; [apply keeps_ignore_errors, keeps_on_dev | intros _].
  apply keeps_bind; [apply keeps_sleep | intros _].
  apply keeps_bind; [|intros _; apply keeps_sleep].
  apply keeps_try_catch.
  - apply keeps_bind; [apply keeps_on_dev | intros _; apply keeps_raise_signals].
  - intros e. apply keeps_bind; [now apply keeps_setLog | intros _].
    apply keeps_bind; [apply keeps_setStatus | intros _; apply keeps_throw].
Qed.

Lemma keeps_try_candidate probeOnce c :
  80 <= cap -> keeps (Dev := Dev) (bounded cap) (probeOnce c) ->
  keeps (Dev := Dev) (bounded cap) (try_candidate probeOnce c).
Proof.
  intros Hc Hp. unfold try_candidate.
  apply keeps_bind; [apply keeps_setStatus | intros _].
  apply keeps_bind; [exact Hp | intros r].
  destruct (probe_ok r); [|apply keeps_ret].
  apply keeps_bind; [apply keeps_setRawLine | intros _].
  apply keeps_bind; [apply keeps_setWeight | intros _].
  apply keeps_bind; [now apply keeps_setLog | intros _; apply keeps_ret].
Qed.

Lemma keeps_scan probeOnce cs :
  80 <= cap -> (forall c, keeps (Dev := Dev) (bounded cap) (probeOnce c)) ->
  keeps (Dev := Dev) (bounded cap) (ProbeProps.scan probeOnce cs).
Proof.
  intros Hc Hp. induction cs as [|c cs IH]; cbn [ProbeProps.scan];
    [apply keeps_ret|].
  apply keeps_bind; [now apply keeps_try_candidate | intros [cfg|]];
    [apply keeps_ret | exact IH].
Qed.

Lemma keeps_autoDetect probeOnce BAUDS SETUPS DELIMS :
  80 <= cap -> (forall c, keeps (Dev := Dev) (bounded cap) (probeOnce c)) ->
  keeps (Dev := Dev) (bounded cap) (Probe.autoDetect probeOnce BAUDS SETUPS DELIMS).
Proof.
  intros Hc Hp w r w'. rewrite ProbeProps.autoDetect_scan.
  now apply keeps_scan.
Qed.

Lemma keeps_read_loop deadline t0 e cs :
  forall acc, keeps (Dev := Dev) (bounded cap)
                (ScaleAutoDetectAuto.read_loop deadline t0 acc cs e).
Proof.
  assert (Hout : forall (acc : list N) t,
             keeps (Dev := Dev) (bounded cap)
               (wait_until t ;; sleep 5 ;; ret acc)).
  { intros acc t. apply keeps_bind; [apply keeps_wait_until | intros _].
    apply keeps_bind; [apply keeps_sleep | intros _; apply keeps_ret]. }
  induction cs as [|[at_ value] cs IH]; intros acc;
    cbn [ScaleAutoDetectAuto.read_loop];
    apply keeps_bind; try apply keeps_Date_now; intros t;
    destruct (t <? deadline)%Z; try apply keeps_ret.
  - destruct e as [at_ | at_ err |]; [| |apply Hout];
      destruct (t0 + at_ <=? t + Z.max 1 (deadline - t))%Z; try apply Hout.
    + apply keeps_bind; [apply keeps_wait_until | intros _; apply keeps_ret].
    + apply keeps_bind; [apply keeps_wait_until | intros _; apply keeps_throw].
  - destruct (t0 + at_ <=? t + Z.max 1 (deadline - t))%Z; [|apply Hout].
    apply keeps_bind; [apply keeps_wait_until | intros _].
    apply keeps_bind; [apply keeps_sleep | intros _; apply IH].
Qed.

Lemma keeps_readSomeBytes millis :
  keeps (Dev := Dev) (bounded cap) (ScaleAutoDetectAuto.readSomeBytes millis).
Proof.
  unfold ScaleAutoDetectAuto.readSomeBytes.
  apply keeps_bind; [apply keeps_on_dev | intros bytes].
  apply keeps_bind; [apply keeps_Date_now | intros t0].
  apply keeps_try_finally; [apply keeps_read_loop | apply keeps_on_dev].
Qed.

End Bound.

End LogBound.

Module LogBoundFrontEnds.
Import Async Probe Keeps LogBound.
Local Open Scope async_scope.

Section FrontEnds.

Context {Dev : Type} {P : Port Dev}.

Lemma keeps_snd {A : Type} (I : UI -> Prop) (m : M (Dev := Dev) A) w :
  keeps I m -> I (ui w) -> I (ui (snd (m w))).
Proof. intros Hm Hw. destruct (m w) as [r w'] eqn:E. exact (Hm w r w' E Hw). Qed.

Lemma keeps_probeOnce cfg :
  keeps (Dev := Dev) (bounded 80) (ScaleAutoDetectAuto.probeOnce cfg).
Proof.
  unfold ScaleAutoDetectAuto.probeOnce. apply keeps_try_catch.
  - apply keeps_bind; [now apply keeps_open | intros _].
    apply keeps_bind; [apply keeps_on_dev | intros text].
    apply keeps_bind; [apply keeps_Date_now | intros t0].
    apply keeps_probe_loop.
  - intros e. apply keeps_bind; [now apply keeps_setLog | intros _].
    apply keeps_ret.
Qed.

Lemma keeps_loopbackTest :
  keeps (Dev := Dev) (bounded 80) ScaleAutoDetectAuto.loopbackTest.
Proof.
  unfold ScaleAutoDetectAuto.loopbackTest.
  apply keeps_bind; [now apply keeps_open | intros _].
  apply keeps_bind; [apply keeps_raise_signals | intros _].
  apply keeps_bind; [apply keeps_on_dev | intros n].
  apply keeps_bind; [apply keeps_on_dev | intros _].
  apply keeps_bind; [apply keeps_readSomeBytes | intros bytes].
  destruct bytes as [|b bytes]; [apply keeps_ret|].
  apply keeps_bind; [now apply keeps_setLog | intros _; apply keeps_ret].
Qed.

Lemma keeps_loopback_attempts token attempts :
  keeps (Dev := Dev) (bounded 120) (ScaleAuto.loopback_attempts token attempts).
Proof.
  induction attempts as [|i rest IH]; cbn [ScaleAuto.loopback_attempts];
    [apply keeps_ret|].
  apply keeps_bind; [|intros [b|]; [apply keeps_ret | exact IH]].
  unfold ScaleAuto.loopback_attempt.
  apply keeps_bind; [apply keeps_on_dev | intros _].
  apply keeps_bind; [apply keeps_readSomeBytes | intros bytes].
  apply keeps_bind.
  - destruct bytes as [|b bytes];
      (apply keeps_bind; [now apply keeps_setLog | intros _; apply keeps_ret]).
  - intros [|]; [apply keeps_ret|].
    apply keeps_bind; [apply keeps_sleep | intros _; apply keeps_ret].
Qed.

Lemma keeps_loopbackTest_repeated :
  keeps (Dev := Dev) (bounded 120) ScaleAuto.loopbackTest.
Proof.
  unfold ScaleAuto.loopbackTest, ScaleAuto.openWithConfig.
  apply keeps_bind; [now apply keeps_open | intros _].
  apply keeps_bind; [apply keeps_raise_signals | intros _].
  apply keeps_bind; [apply keeps_on_dev | intros n].
  apply keeps_loopback_attempts.
Qed.

End FrontEnds.

End LogBoundFrontEnds.

(** The log on the page never grows past its cap.  In test.tsx every line is
    added with [slice(0, 80)]: if the log holds at most 80 lines, it still
    does after [probeOnce], after the whole of [autoDetect] and after
    [loopbackTest], however they end and on any port.  The same holds with
    120 lines for the repeated loopback test of test2.tsx. *)
Theorem log_stays_within_its_cap :
  forall (Dev : Type) (P : Async.Port Dev) (w : Async.World Dev),
    let lines (w' : Async.World Dev) := length (Async.log (Async.ui w')) in
    (lines w <= 80 ->
     (forall cfg, lines (snd (ScaleAutoDetectAuto.probeOnce cfg w)) <= 80)
     /\ lines (snd (ScaleAutoDetectAuto.autoDetect w)) <= 80
     /\ lines (snd (ScaleAutoDetectAuto.loopbackTest w)) <= 80)
    /\ (lines w <= 120 -> lines (snd (ScaleAuto.loopbackTest w)) <= 120).
Proof.
  intros Dev P w lines. unfold lines. split.
  - intros H. split; [|split].
    + intros cfg.
      apply (LogBoundFrontEnds.keeps_snd (LogBound.bounded 80));
        [apply LogBoundFrontEnds.keeps_probeOnce | exact H].
    + apply (LogBoundFrontEnds.keeps_snd (LogBound.bounded 80)); [|exact H].
      unfold ScaleAutoDetectAuto.autoDetect.
      apply LogBound.keeps_autoDetect; [lia|].
      apply LogBoundFrontEnds.keeps_probeOnce.
    + apply (LogBoundFrontEnds.keeps_snd (LogBound.bounded 80));
        [apply LogBoundFrontEnds.keeps_loopbackTest | exact H].
  - intros H.
    apply (LogBoundFrontEnds.keeps_snd (LogBound.bounded 120));
      [apply LogBoundFrontEnds.keeps_loopbackTest_repeated | exact H].
Qed.

(** In the wide front end a probe leaves no trace.  Its [openWithConfig] logs
    nothing and its [probeOnce] catches without a handler body: whatever the
    port does, [probeOnce] returns no exception and the display (status, log,
    weight, raw line) is after the probe what it was before.  A rejected
    configuration cannot be told from a silent one. *)
Theorem wide_probeOnce_leaves_no_trace :
  forall (Dev : Type) (P : Async.Port Dev) (cfg : Probe.DetectedConfig)
         (w : Async.World Dev),
    Async.ui (snd (ScaleAutoDetectWide.probeOnce cfg w)) = Async.ui w
    /\ forall e, fst (ScaleAutoDetectWide.probeOnce cfg w) <> Async.Throw e.
Proof.
  intros Dev P cfg w. split.
  - apply (LogBoundFrontEnds.keeps_snd (fun u => u = Async.ui w));
      [|reflexivity].
    unfold ScaleAutoDetectWide.probeOnce, ScaleAutoDetectWide.openWithConfig.
    apply Keeps.keeps_try_catch; [|intros e; apply Keeps.keeps_ret].
    apply Keeps.keeps_bind; [|intros _].
    { apply Keeps.keeps_bind;
        [apply Keeps.keeps_ignore_errors, Keeps.keeps_release | intros _].
      apply Keeps.keeps_bind;
        [apply Keeps.keeps_ignore_errors, Keeps.keeps_on_dev | intros _].
      apply Keeps.keeps_bind;
        [apply Keeps.keeps_on_dev | intros _; apply Keeps.keeps_raise_signals]. }
    apply Keeps.keeps_bind; [apply Keeps.keeps_on_dev | intros text].
    apply Keeps.keeps_bind; [apply Keeps.keeps_Date_now | intros t0].
    apply Keeps.keeps_probe_loop.
  - intros e. unfold ScaleAutoDetectWide.probeOnce, Async.try_catch.
    match goal with |- fst (match ?x with _ => _ end) <> _ =>
      destruct x as [[r|e0|] w1] end; discriminate.
Qed.

Module ProbeSound.
Import Async Probe.
Local Open Scope async_scope.

Section Loop.

Context {Dev : Type} {P : Port Dev}.

(** A match of the read loop is a line of the stream that [parseWeight]
    decodes. *)
Lemma probe_loop_sound endAt t0 e lines :
  forall w r w',
    probe_loop endAt t0 lines e w = (Ok r, w') -> probe_ok r = true ->
    exists at_ value sample,
      In (at_, value) lines
      /\ r = matched sample (Regex.trim value)
      /\ Regex.trim value <> []
      /\ Decoder.parseWeight (Regex.trim value) = Some sample.
Proof.
  induction lines as [|[at_ value] lines IH]; intros w r w';
    cbn [probe_loop]; unfold bind at 1, Date_now;
    destruct (now w <? endAt)%Z.
  - destruct e as [a | a err |]; unfold bind, wait_until, on_dev, ret, throw.
    + destruct (reader_releaseLock _) as [[[]|e0|] d]; intros [= <- <-];
        discriminate.
    + discriminate.
    + discriminate.
  - unfold bind, on_dev, ret.
    destruct (reader_releaseLock _) as [[[]|e0|] d]; intros [= <- <-];
      discriminate.
  - unfold bind at 1, wait_until.
    assert (Hnext : forall w1,
               probe_loop endAt t0 lines e w1 = (Ok r, w') ->
               probe_ok r = true ->
               exists at0 value0 sample,
                 In (at0, value0) ((at_, value) :: lines)
                 /\ r = matched sample (Regex.trim value0)
                 /\ Regex.trim value0 <> []
                 /\ Decoder.parseWeight (Regex.trim value0) = Some sample).
    { intros w1 H Hok.
      destruct (IH w1 r w' H Hok) as (a & v & s & Hin & Hr).
      exists a, v, s. split; [now right | exact Hr]. }
    destruct (Regex.trim value) as [|c raw] eqn:Et; [apply Hnext|].
    destruct (Decoder.parseWeight (c :: raw)) as [[|c' parsed]|] eqn:Ep;
      try apply Hnext.
    unfold bind, on_dev, ret.
    destruct (reader_releaseLock _) as [[[]|e0|] d]; intros [= <- <-] _.
    exists at_, value, (c' :: parsed). rewrite Et.
    split; [now left|]. split; [reflexivity|]. split; [discriminate | exact Ep].
  - unfold bind, on_dev, ret.
    destruct (reader_releaseLock _) as [[[]|e0|] d]; intros [= <- <-];
      discriminate.
Qed.

End Loop.

End ProbeSound.

(** A probe of test.tsx that reports a match has read it from the port: the
    port has been opened and has handed out its text stream, the raw line
    returned is the trim of a line the framer made of that stream with the
    delimiter of the configuration, it is not empty, and the sample is what
    [parseWeight] returns for it. *)
Theorem probeOnce_match_is_a_decoded_line :
  forall (Dev : Type) (P : Async.Port Dev) (cfg : Probe.DetectedConfig)
         (w w' : Async.World Dev) (r : Probe.ProbeResult),
    ScaleAutoDetectAuto.probeOnce cfg w = (Async.Ok r, w') ->
    Probe.probe_ok r = true ->
    exists (d d' : Dev) (text : Async.Script jsstring) (at_ : Z)
           (value sample : jsstring),
      Async.port_text d = (Async.Ok text, d')
      /\ In (at_, value)
            (Probe.stream_lines
               (LineFramer.makeLineTransformer (Probe.cfg_delimiter cfg))
               (Async.chunks text) (Async.ending text))
      /\ r = Probe.matched sample (Regex.trim value)
      /\ Regex.trim value <> []
      /\ Decoder.parseWeight (Regex.trim value) = Some sample.
Proof.
  intros Dev P cfg w w' r H Hok.
  unfold ScaleAutoDetectAuto.probeOnce, Async.try_catch in H.
  match type of H with (match ?m w with _ => _ end) = _ =>
    destruct (m w) as [[r0|e|] w1] eqn:Hm end.
  - injection H as -> ->.
    unfold Async.bind at 1 in Hm.
    destruct (ScaleAutoDetectAuto.openWithConfig _ _ _ _ w) as [[[]|e|] w2];
      [|discriminate..].
    unfold Async.bind at 1, Async.on_dev at 1 in Hm.
    destruct (Async.port_text (Async.dev w2)) as [[text|e|] d'] eqn:Ht;
      [|discriminate..].
    unfold Async.bind at 1, Async.Date_now in Hm.
    destruct (ProbeSound.probe_loop_sound _ _ _ _ _ _ _ Hm Hok)
      as (at_ & value & sample & Hin & Hr).
    now exists (Async.dev w2), d', text, at_, value, sample.
  - unfold Async.bind, Async.setLog, Async.set_ui, Async.ret in H.
    injection H as <- <-. discriminate.
  - discriminate.
Qed.

(** The simulated scale, as a witness: its probe at "1200 8N1 CR" reads the
    telegram that came in two chunks. *)
Lemma probeOnce_match_is_a_decoded_line_witness :
  exists (d d' : unit) (text : Async.Script jsstring) (at_ : Z)
         (value sample : jsstring),
    Async.port_text (Port := Simulated.scale_8N1) d = (Async.Ok text, d')
    /\ In (at_, value)
          (Probe.stream_lines (LineFramer.makeLineTransformer [CR])
             (Async.chunks text) (Async.ending text))
    /\ Probe.matched (js "00120") (js "P 00120")
       = Probe.matched sample (Regex.trim value)
    /\ Regex.trim value <> []
    /\ Decoder.parseWeight (Regex.trim value) = Some sample.
Proof.
  refine (probeOnce_match_is_a_decoded_line unit Simulated.scale_8N1
            AutoDetectExample.Cstar Simulated.start
            (snd (ScaleAutoDetectAuto.probeOnce (P := Simulated.scale_8N1)
                    AutoDetectExample.Cstar Simulated.start))
            (Probe.matched (js "00120") (js "P 00120")) _ eq_refl).
  vm_compute. reflexivity.
Defined.

Module SampleFacts.
Import Regex RegexFacts Numbers Decoder Shapes NumberFacts DecoderFacts
       GenericProps.

(** A sample is never the empty string, and it comes from a line that is not
    blank. *)
Lemma parseWeight_nonempty (value sample : jsstring) :
  parseWeight value = Some sample -> sample <> [] /\ trim value <> [].
Proof.
  rewrite parseWeight_eq.
  destruct (first_number (trim value)) as [[j n]|] eqn:Hf; [|discriminate].
  intros [= <-]. split.
  - destruct (SampleShape.first_number_at _ _ _ Hf) as (s' & Hn).
    destruct (SampleShape.number_at_shape _ _ Hn)
      as (sep & sgn & ip & fp & -> & (_ & _ & Hl & _) & _).
    unfold SampleShape.decimal_text.
    intros H. apply (f_equal (@length char)) in H.
    unfold replace in H.
    match type of H with context [match ?x with _ => _ end] =>
      destruct x as [i|] end;
      rewrite !length_app in H; cbn [length] in H; lia.
  - intros Ht. rewrite Ht in Hf. discriminate.
Qed.

Lemma parseWeight_trim (value : jsstring) :
  parseWeight (trim value) = parseWeight value.
Proof. unfold parseWeight. now rewrite TrimProps.trim_trim. Qed.

End SampleFacts.

(** The window of a probe bounds the time at which a read is started, not
    the time it takes.  When the loop is entered before [endAt] and the next
    line of the stream is one [parseWeight] decodes, the probe returns that
    line as its match at the time the line arrives, be that before or after
    [endAt]: the sample of a scale that answers late is still accepted. *)
Theorem probe_window_does_not_bound_the_wait :
  forall (Dev : Type) (P : Async.Port Dev) (endAt t0 at_ : Z)
         (value sample : jsstring) (rest : list (Z * jsstring))
         (e : Async.StreamEnd) (w : Async.World Dev) (d' : Dev),
    (Async.now w < endAt)%Z ->
    Decoder.parseWeight value = Some sample ->
    Async.reader_releaseLock (Async.dev w) = (Async.Ok tt, d') ->
    Probe.probe_loop endAt t0 ((at_, value) :: rest) e w
    = (Async.Ok (Probe.matched sample (Regex.trim value)),
       {| Async.ui := Async.ui w; Async.readerRef := Async.readerRef w;
          Async.now := Z.max (Async.now w) (t0 + at_); Async.dev := d' |}).
Proof.
  intros Dev P endAt t0 at_ value sample rest e w d' Hnow Hp Hrel.
  destruct (SampleFacts.parseWeight_nonempty _ _ Hp) as [Hs Ht].
  rewrite <- SampleFacts.parseWeight_trim in Hp.
  cbn [Probe.probe_loop]. unfold Async.bind at 1, Async.Date_now.
  apply Z.ltb_lt in Hnow. rewrite Hnow.
  unfold Async.bind at 1, Async.wait_until.
  destruct (Regex.trim value) as [|c raw]; [now contradiction Ht|].
  rewrite Hp. destruct sample as [|c' parsed]; [now contradiction Hs|].
  unfold Async.bind, Async.on_dev, Async.ret.
  cbn [Async.dev Async.ui Async.readerRef Async.now].
  now rewrite Hrel.
Qed.

(** A telegram that arrives 5 s after the reader was attached, with a window
    of 1800 ms, as a witness. *)
Lemma probe_window_does_not_bound_the_wait_witness :
  Probe.probe_loop (P := Simulated.scale_8N1) 1900 100
    [(5000%Z, js "P 00120")] Async.Silent
    {| Async.ui := Async.ui Simulated.start; Async.readerRef := false;
       Async.now := 100; Async.dev := tt |}
  = (Async.Ok (Probe.matched (js "00120") (Regex.trim (js "P 00120"))),
     {| Async.ui := Async.ui Simulated.start; Async.readerRef := false;
        Async.now := Z.max 100 (100 + 5000); Async.dev := tt |}).
Proof.
  apply (probe_window_does_not_bound_the_wait unit Simulated.scale_8N1
           1900 100 5000 (js "P 00120") (js "00120") [] Async.Silent
           {| Async.ui := Async.ui Simulated.start; Async.readerRef := false;
              Async.now := 100; Async.dev := tt |} tt).
  - reflexivity.
  - vm_compute. reflexivity.
  - reflexivity.
Defined.

(** ** A probe waits for its read

    [probeOnce] tests the clock before each read only; the read itself is
    awaited without a timer. *)

(** A channel that accepts every configuration and sends its text only when
    it was opened with options [answers] holds of; opened otherwise it sends
    nothing and its stream stays open.  The state of the device is whether it
    was last opened with such options. *)
Module SelectiveChannel.
Import Async.

Definition silence {A : Type} : Script A :=
  {| chunks := []; ending := Silent |}.

Definition port (answers : SerialOptions -> bool) (telegram : Script jsstring)
  : Port bool :=
  {| reader_releaseLock := fun d => (Ok tt, d);
     port_close := fun d => (Ok tt, d);
     port_open := fun o _ => (Ok tt, answers o);
     port_setSignals := Some (fun d => (Ok tt, d));
     port_text := fun d => (Ok (if d then telegram else silence), d);
     port_bytes := fun d => (Ok silence, d);
     port_write := fun _ d => (Ok tt, d);
     random_million := fun d => (0%N, d) |}.

(** A scale set to 9600 baud, 8 data bits, no parity, that sends one telegram
    ended by CR 50 ms after it was opened. *)
Definition at_9600_8N1 (o : SerialOptions) : bool :=
  N.eqb (baudRate o) 9600 && N.eqb (dataBits o) 8.

Definition scale_9600 : Port bool :=
  port at_9600_8N1
       {| chunks := [(50%Z, js "P 00120" ++ [CR])]; ending := Silent |}.

(** The world when the page is loaded. *)
Definition start : World bool :=
  {| ui := ui Simulated.start; readerRef := false; now := 0; dev := false |}.

End SelectiveChannel.

Module WideProbe.
Import JS LineFramer Async Probe ScaleAutoDetectWide.
Local Open Scope Z_scope.

Definition options (cfg : DetectedConfig) : SerialOptions :=
  {| baudRate := cfg_baudRate cfg; dataBits := cfg_dataBits cfg;
     parity := cfg_parity cfg; stopBits := cfg_stopBits cfg |}.

(** The lines a probe of [cfg] gets from a text stream. *)
Definition lines_for (cfg : DetectedConfig) (text : Script jsstring)
  : list (Z * jsstring) :=
  stream_lines (makeLineTransformer (cfg_delimiter cfg)) (chunks text)
               (ending text).

Section Port.
Context {Dev : Type} {P : Port Dev}.

(** Once the port is open, the probe is its read loop; what the loop throws
    is caught. *)
Lemma probeOnce_opened cfg (w w1 : World Dev) text d2 :
  openWithConfig (cfg_baudRate cfg) (cfg_dataBits cfg) (cfg_parity cfg)
                 (cfg_stopBits cfg) w = (Ok tt, w1) ->
  port_text (dev w1) = (Ok text, d2) ->
  probeOnce cfg w
  = match probe_loop (now w1 + PROBE_MS) (now w1) (lines_for cfg text)
            (ending text)
            {| ui := ui w1; readerRef := readerRef w1; now := now w1;
               dev := d2 |} with
    | (Throw _, w') => (Ok unmatched, w')
    | r => r
    end.
Proof.
  intros Ho Ht. unfold probeOnce, try_catch, bind at 1. rewrite Ho.
  unfold bind at 1, on_dev. rewrite Ht.
  unfold bind at 1, Date_now. cbn [now ui readerRef dev].
  unfold lines_for.
  destruct (probe_loop _ _ _ _ _) as [[r|e|] w']; reflexivity.
Qed.

(** No line and an open stream: the read never settles. *)
Lemma probe_loop_silent endAt t0 (w : World Dev) :
  now w < endAt -> probe_loop endAt t0 [] Silent w = (Pending, w).
Proof.
  intros H. cbn [probe_loop]. unfold bind, Date_now.
  apply Z.ltb_lt in H. now rewrite H.
Qed.

(** A line that decodes is taken when it comes, whenever that is. *)
Lemma probe_loop_takes_line endAt t0 at_ value sample rest e
      (w : World Dev) d' :
  now w < endAt ->
  Decoder.parseWeight value = Some sample ->
  reader_releaseLock (dev w) = (Ok tt, d') ->
  probe_loop endAt t0 ((at_, value) :: rest) e w
  = (Ok (matched sample (Regex.trim value)),
     {| ui := ui w; readerRef := readerRef w;
        now := Z.max (now w) (t0 + at_); dev := d' |}).
Proof.
  intros Hnow Hp Hrel.
  destruct (SampleFacts.parseWeight_nonempty _ _ Hp) as [Hs Ht].
  rewrite <- SampleFacts.parseWeight_trim in Hp.
  cbn [probe_loop]. unfold bind at 1, Date_now.
  apply Z.ltb_lt in Hnow. rewrite Hnow.
  unfold bind at 1, wait_until.
  destruct (Regex.trim value) as [|c raw]; [now contradiction Ht|].
  rewrite Hp. destruct sample as [|c' parsed]; [now contradiction Hs|].
  unfold bind, on_dev, ret. cbn [dev ui readerRef now].
  now rewrite Hrel.
Qed.

End Port.

End WideProbe.

Module WideProbeFacts.
Import JS LineFramer Async Probe ScaleAutoDetectWide WideProbe.
Local Open Scope Z_scope.

(** The first candidate of the wide parameter space. *)
Definition first_candidate : DetectedConfig :=
  candidate 1200 {| setup_dataBits := 8; setup_parity := ParityNone;
                    setup_stopBits := 1; setup_name := js "8N1" |} [CR].

(** The candidate the scale at 9600 baud answers to with a line. *)
Definition Cstar : DetectedConfig :=
  candidate 9600 {| setup_dataBits := 8; setup_parity := ParityNone;
                    setup_stopBits := 1; setup_name := js "8N1" |} [CR].

Definition wide_candidates : list DetectedConfig :=
  ProbeProps.candidates BAUDS SETUPS DELIMS.

(** The search stops where a probe is pending. *)
Lemma autoDetect_first_pending {Dev : Type} {P : Port Dev} (w w1 : World Dev) :
  try_candidate probeOnce first_candidate w = (Pending, w1) ->
  autoDetect w = (Pending, w1).
Proof.
  intros H. unfold autoDetect, Probe.autoDetect, BAUDS, SETUPS, DELIMS.
  cbn [for_bauds for_setups for_delims]. unfold bind.
  fold first_candidate. now rewrite H.
Qed.

Lemma autoDetect_first_match {Dev : Type} {P : Port Dev} (w w1 : World Dev) :
  try_candidate probeOnce first_candidate w = (Ok (Some first_candidate), w1) ->
  autoDetect w = (Ok (Some first_candidate), w1).
Proof.
  intros H. unfold autoDetect, Probe.autoDetect, BAUDS, SETUPS, DELIMS.
  cbn [for_bauds for_setups for_delims]. unfold bind.
  fold first_candidate. now rewrite H.
Qed.

Section Selective.

Variable answers : SerialOptions -> bool.
Variable telegram : Script jsstring.

Let chan : Port bool := SelectiveChannel.port answers telegram.

Lemma open_selective b d p s u rr n dv :
  openWithConfig (P := chan) b d p s
    {| ui := u; readerRef := rr; now := n; dev := dv |}
  = (Ok tt, {| ui := u; readerRef := rr; now := n;
               dev := answers {| baudRate := b; dataBits := d; parity := p;
                                 stopBits := s |} |}).
Proof.
  unfold openWithConfig, ignore_errors, try_catch, bind,
    ScaleAutoDetectAuto.release_current_reader,
    ScaleAutoDetectAuto.raise_signals, on_dev, ret.
  cbn [chan SelectiveChannel.port reader_releaseLock port_close port_open
       port_setSignals ui readerRef now dev].
  destruct rr; reflexivity.
Qed.

(** Opened with other options, the channel is silent and the probe pending. *)
Lemma probe_unanswered cfg u rr n dv :
  answers (options cfg) = false ->
  probeOnce (P := chan) cfg {| ui := u; readerRef := rr; now := n; dev := dv |}
  = (Pending, {| ui := u; readerRef := rr; now := n; dev := false |}).
Proof.
  intros Ha.
  rewrite (probeOnce_opened (P := chan) cfg _ _ SelectiveChannel.silence false
             (open_selective _ _ _ _ u rr n dv)).
  - cbn [now ui readerRef dev lines_for SelectiveChannel.silence chunks ending
         stream_lines].
    rewrite probe_loop_silent; [reflexivity|]. cbn [now]. unfold PROBE_MS. lia.
  - cbn [dev]. fold (options cfg). rewrite Ha. reflexivity.
Qed.

(** Opened with its options, but no line is completed for the delimiter of the
    candidate: pending as well. *)
Lemma probe_no_line cfg u rr n dv :
  answers (options cfg) = true ->
  ending telegram = Silent -> lines_for cfg telegram = [] ->
  probeOnce (P := chan) cfg {| ui := u; readerRef := rr; now := n; dev := dv |}
  = (Pending, {| ui := u; readerRef := rr; now := n; dev := true |}).
Proof.
  intros Ha He Hl.
  rewrite (probeOnce_opened (P := chan) cfg _ _ telegram true
             (open_selective _ _ _ _ u rr n dv)).
  - cbn [now ui readerRef dev]. rewrite Hl, He.
    rewrite probe_loop_silent; [reflexivity|]. cbn [now]. unfold PROBE_MS. lia.
  - cbn [dev]. fold (options cfg). rewrite Ha. reflexivity.
Qed.

(** Opened with its options, and the first line decodes: a match. *)
Lemma probe_answered cfg u rr n dv at_ value rest sample :
  answers (options cfg) = true ->
  lines_for cfg telegram = (at_, value) :: rest ->
  Decoder.parseWeight value = Some sample ->
  probeOnce (P := chan) cfg {| ui := u; readerRef := rr; now := n; dev := dv |}
  = (Ok (matched sample (Regex.trim value)),
     {| ui := u; readerRef := rr; now := Z.max n (n + at_); dev := true |}).
Proof.
  intros Ha Hl Hp.
  rewrite (probeOnce_opened (P := chan) cfg _ _ telegram true
             (open_selective _ _ _ _ u rr n dv)).
  - cbn [now ui readerRef dev]. rewrite Hl.
    rewrite (probe_loop_takes_line (P := chan) _ _ at_ value sample rest _ _
               true); [reflexivity | | exact Hp | reflexivity].
    cbn [now]. unfold PROBE_MS. lia.
  - cbn [dev]. fold (options cfg). rewrite Ha. reflexivity.
Qed.

End Selective.

Section AcceptAll.

Variable emits : Script jsstring.
Variable echoes : Script (list N).
Variable dice : N.

Let chan : Port unit := Simulated.port (fun _ => true) emits echoes dice.

Lemma open_accept_all b d p s (w : World unit) :
  openWithConfig (P := chan) b d p s w = (Ok tt, w).
Proof.
  destruct w as [u rr n []].
  unfold openWithConfig, ignore_errors, try_catch, bind,
    ScaleAutoDetectAuto.release_current_reader,
    ScaleAutoDetectAuto.raise_signals, on_dev, ret.
  cbn [chan Simulated.port reader_releaseLock port_close port_open
       port_setSignals ui readerRef now dev].
  destruct rr; reflexivity.
Qed.

Lemma probe_accept_all_silent cfg (w : World unit) :
  emits = SelectiveChannel.silence ->
  probeOnce (P := chan) cfg w = (Pending, w).
Proof.
  intros He. destruct w as [u rr n []].
  rewrite (probeOnce_opened (P := chan) cfg
             {| ui := u; readerRef := rr; now := n; dev := tt |}
             {| ui := u; readerRef := rr; now := n; dev := tt |} emits tt
             (open_accept_all _ _ _ _ _) eq_refl).
  rewrite He.
  cbn [lines_for SelectiveChannel.silence chunks ending stream_lines].
  cbn [now ui readerRef dev].
  rewrite probe_loop_silent; [reflexivity|]. cbn [now]. unfold PROBE_MS. lia.
Qed.

Lemma probe_accept_all_line cfg (w : World unit) at_ value rest sample :
  lines_for cfg emits = (at_, value) :: rest ->
  Decoder.parseWeight value = Some sample ->
  probeOnce (P := chan) cfg w
  = (Ok (matched sample (Regex.trim value)),
     {| ui := ui w; readerRef := readerRef w;
        now := Z.max (now w) (now w + at_); dev := tt |}).
Proof.
  intros Hl Hp. destruct w as [u rr n []].
  rewrite (probeOnce_opened (P := chan) cfg
             {| ui := u; readerRef := rr; now := n; dev := tt |}
             {| ui := u; readerRef := rr; now := n; dev := tt |} emits tt
             (open_accept_all _ _ _ _ _) eq_refl).
  rewrite Hl. cbn [now ui readerRef dev].
  rewrite (probe_loop_takes_line (P := chan) _ _ at_ value sample rest _ _ tt);
    [reflexivity | | exact Hp | reflexivity].
  cbn [now]. unfold PROBE_MS. lia.
Qed.

End AcceptAll.

End WideProbeFacts.

(** C4.  The search does not hold to the window of a probe.  On a channel
    that opens with every configuration and delivers nothing, no configuration
    yields a line, and [autoDetect] does not return [null]: it stays pending in
    its first probe, "1200 8N1 CR", whatever the state it starts from.  On the
    scale set to 9600 baud and 8N1, "9600 8N1 CR" is the one candidate whose
    probe returns a decoded line and the probe of every other candidate is
    pending, and [autoDetect] does not return that candidate: it is pending.
    And a line that comes any time after the reader was attached, after the
    1800 ms of the window as well, is returned as the match of the first
    candidate, at the time it comes. *)
Theorem autoDetect_pending_on_silent_channel :
  (forall (echoes : Async.Script (list N)) (dice : N) (w : Async.World unit),
      fst (ScaleAutoDetectWide.autoDetect
             (P := Simulated.port (fun _ => true) SelectiveChannel.silence
                     echoes dice) w)
      = Async.Pending)
  /\ (forall w : Async.World bool,
        In WideProbeFacts.Cstar WideProbeFacts.wide_candidates
        /\ fst (ScaleAutoDetectWide.probeOnce
                  (P := SelectiveChannel.scale_9600) WideProbeFacts.Cstar w)
           = Async.Ok (Probe.matched (js "00120") (js "P 00120"))
        /\ (forall c,
              In c WideProbeFacts.wide_candidates ->
              c <> WideProbeFacts.Cstar ->
              fst (ScaleAutoDetectWide.probeOnce
                     (P := SelectiveChannel.scale_9600) c w)
              = Async.Pending)
        /\ fst (ScaleAutoDetectWide.autoDetect
                  (P := SelectiveChannel.scale_9600) w)
           = Async.Pending)
  /\ (forall (echoes : Async.Script (list N)) (dice : N)
             (w : Async.World unit) (at_ : Z),
        let late :=
          Simulated.port (fun _ => true)
            {| Async.chunks := [(at_, js "P 00120" ++ [CR])];
               Async.ending := Async.Silent |} echoes dice in
        exists w',
          ScaleAutoDetectWide.autoDetect (P := late) w
          = (Async.Ok (Some WideProbeFacts.first_candidate), w')
          /\ Async.now w' = Z.max (Async.now w) (Async.now w + at_)
          /\ Async.weight (Async.ui w') = js "00120"
          /\ Async.rawLine (Async.ui w') = js "P 00120").
Proof.
  split; [|split].
  - intros echoes dice w.
    erewrite WideProbeFacts.autoDetect_first_pending; [reflexivity|].
    unfold Probe.try_candidate, Async.bind, Async.setStatus, Async.set_ui.
    rewrite WideProbeFacts.probe_accept_all_silent by reflexivity.
    reflexivity.
  - intros [u rr n dv]. split; [|split; [|split]].
    + vm_compute. tauto.
    + unfold SelectiveChannel.scale_9600.
      rewrite (WideProbeFacts.probe_answered _ _ WideProbeFacts.Cstar u rr n dv
                 50%Z (js "P 00120") [] (js "00120"));
        [reflexivity | reflexivity | vm_compute; reflexivity
         | vm_compute; reflexivity].
    + intros c Hin Hne. unfold SelectiveChannel.scale_9600.
      unfold WideProbeFacts.wide_candidates, ProbeProps.candidates,
        ScaleAutoDetectWide.BAUDS, ScaleAutoDetectWide.SETUPS,
        ScaleAutoDetectWide.DELIMS in Hin.
      cbn [flat_map map app] in Hin.
      repeat (destruct Hin as [<- | Hin];
              [first [ now contradiction Hne
                     | rewrite WideProbeFacts.probe_unanswered by reflexivity;
                       reflexivity
                     | rewrite WideProbeFacts.probe_no_line
                         by (vm_compute; reflexivity);
                       reflexivity ] |]).
      contradiction.
    + erewrite WideProbeFacts.autoDetect_first_pending; [reflexivity|].
      unfold Probe.try_candidate, Async.bind, Async.setStatus, Async.set_ui.
      unfold SelectiveChannel.scale_9600.
      rewrite WideProbeFacts.probe_unanswered by reflexivity.
      reflexivity.
  - intros echoes dice w at_ late. subst late.
    eexists. split; [|split; [|split]].
    + apply WideProbeFacts.autoDetect_first_match.
      unfold Probe.try_candidate, Async.bind at 1, Async.setStatus,
        Async.set_ui.
      unfold Async.bind at 1.
      rewrite (WideProbeFacts.probe_accept_all_line _ _ _
                 WideProbeFacts.first_candidate _ at_ (js "P 00120") []
                 (js "00120"));
        [| vm_compute; reflexivity | vm_compute; reflexivity].
      reflexivity.
    + reflexivity.
    + reflexivity.
    + vm_compute. reflexivity.
Qed.

(** [openWithConfig] of test.tsx and test2.tsx, on any port on which no
    reader is held and whose [close] settles.  Whether [close] succeeded or
    threw makes no difference.  When [open] throws, the same error is thrown
    again, 60 ms after the call, with its message as the newest line of the
    log (cut to the cap) and in the status; the delay of 40 ms after a
    successful opening is skipped.  When [open] succeeds on a port without
    [setSignals], the call returns after 60 + 40 ms and the display is
    untouched. *)
Theorem openWithConfig_outcomes :
  forall (Dev : Type) (P : Async.Port Dev) (cap : nat) (prefix : jsstring)
         (b d : N) (p : Async.Parity) (s : N) (w : Async.World Dev)
         (rc : Async.Res unit) (d1 : Dev),
    Async.readerRef w = false ->
    Async.port_close (Async.dev w) = (rc, d1) ->
    rc <> Async.Pending ->
    let opts := {| Async.baudRate := b; Async.dataBits := d;
                   Async.parity := p; Async.stopBits := s |} in
    let u := Async.ui w in
    (forall e d2,
        Async.port_open opts d1 = (Async.Throw e, d2) ->
        ScaleAutoDetectAuto.openWithConfig_logging cap prefix b d p s w
        = (Async.Throw e,
           {| Async.ui :=
                {| Async.status := js "Error abriendo puerto: "
                                   ++ Async.message e;
                   Async.active := Async.active u;
                   Async.weight := Async.weight u;
                   Async.rawLine := Async.rawLine u;
                   Async.configLabel := Async.configLabel u;
                   Async.log := firstn cap ((prefix ++ Async.message e)
                                            :: Async.log u) |};
              Async.readerRef := false; Async.now := Async.now w + 60;
              Async.dev := d2 |}))
    /\ (forall d2,
          Async.port_open opts d1 = (Async.Ok tt, d2) ->
          Async.port_setSignals (Port := P) = None ->
          ScaleAutoDetectAuto.openWithConfig_logging cap prefix b d p s w
          = (Async.Ok tt,
             {| Async.ui := u; Async.readerRef := false;
                Async.now := Async.now w + 60 + 40; Async.dev := d2 |})).
Proof.
  intros Dev P cap prefix b d p s [u0 rr n dv] rc d1 Hrr Hclose Hrc opts u.
  cbn [Async.readerRef Async.dev Async.ui Async.now] in *. subst rr u.
  unfold ScaleAutoDetectAuto.openWithConfig_logging, Async.ignore_errors,
    Async.try_catch, Async.bind, ScaleAutoDetectAuto.release_current_reader,
    ScaleAutoDetectAuto.raise_signals, Async.on_dev, Async.sleep, Async.ret,
    Async.throw, Async.setLog, Async.setStatus, Async.set_ui.
  cbn [Async.readerRef Async.dev Async.ui Async.now].
  rewrite Hclose. fold opts.
  split.
  - intros e d2 Hopen.
    destruct rc as [[]|ec|]; [| |now contradiction Hrc];
      cbn [Async.readerRef Async.dev Async.ui Async.now];
      rewrite Hopen; reflexivity.
  - intros d2 Hopen Hsig.
    destruct rc as [[]|ec|]; [| |now contradiction Hrc];
      cbn [Async.readerRef Async.dev Async.ui Async.now];
      rewrite Hopen, Hsig; reflexivity.
Qed.

(** The port that rejects every configuration, as a witness. *)
Lemma openWithConfig_outcomes_witness :
  ScaleAutoDetectAuto.openWithConfig_logging (P := Simulated.closed_port)
    80 (js "[openWithConfig error] ") 1200 7 Async.ParityNone 1 Simulated.start
  = (Async.Throw Simulated.rejected,
     {| Async.ui :=
          {| Async.status := js "Error abriendo puerto: "
                             ++ Async.message Simulated.rejected;
             Async.active := false; Async.weight := js "-";
             Async.rawLine := js "-"; Async.configLabel := js "-";
             Async.log := firstn 80 [js "[openWithConfig error] "
                                     ++ Async.message Simulated.rejected] |};
        Async.readerRef := false; Async.now := 0 + 60; Async.dev := tt |}).
Proof.
  refine (proj1 (openWithConfig_outcomes unit Simulated.closed_port 80
                   (js "[openWithConfig error] ") 1200 7 Async.ParityNone 1
                   Simulated.start (Async.Ok tt) tt eq_refl eq_refl _)
            Simulated.rejected tt eq_refl).
  discriminate.
Defined.

(** ** The read loops *)

(** The loop that [startReading] starts (test.tsx, test2.tsx and the first
    component of unnamed/part_002), which is also the loop of [connect] in the
    second component of test3.tsx. *)
Module Reading.
Import JS Regex Decoder Async.
Local Open Scope async_scope.

Section Loop.

Context {Dev : Type}.

(** The body of the loop for a line the reader returned: a blank line is
    skipped; the trimmed line becomes the raw line; the sample, if there is
    one, becomes the weight. *)
Definition on_line (value : jsstring) : M (Dev := Dev) unit :=
  let raw := trim value in
  match raw with
  | [] => ret tt
  | _ :: _ =>
      setRawLine raw ;;
      match parseWeight raw with
      | Some (c :: parsed) => setWeight (c :: parsed)
      | _ => ret tt
      end
  end.

(** The loop over the lines the reader returns, in order. *)
Fixpoint read_lines (lines : list jsstring) : M (Dev := Dev) unit :=
  match lines with
  | [] => ret tt
  | value :: rest => on_line value ;; read_lines rest
  end.

End Loop.

(** The trimmed lines that are not blank. *)
Definition shown_lines (lines : list jsstring) : list jsstring :=
  filter (fun raw => match raw with [] => false | _ :: _ => true end)
         (map trim lines).

(** The samples of the lines that have one. *)
Definition samples (lines : list jsstring) : list jsstring :=
  flat_map (fun value => match parseWeight value with
                         | Some sample => [sample]
                         | None => []
                         end) lines.

Lemma last_cons {A : Type} (a d : A) (l : list A) : last (a :: l) d = last l a.
Proof.
  revert a d; induction l as [|b l IH]; intros a d; [reflexivity|].
  change (last (a :: b :: l) d) with (last (b :: l) d).
  rewrite (IH b d). symmetry. apply IH.
Qed.

Section Facts.

Context {Dev : Type}.

Lemma shown_after_line (value : jsstring) (w : World Dev) :
  on_line value w
  = (Ok tt,
     {| ui := {| status := status (ui w); active := active (ui w);
                 weight := last (samples [value]) (weight (ui w));
                 rawLine := last (shown_lines [value]) (rawLine (ui w));
                 configLabel := configLabel (ui w); log := log (ui w) |};
        readerRef := readerRef w; now := now w; dev := dev w |}).
Proof.
  destruct w as [[st ac we ra co lo] rr n d].
  unfold on_line, samples, shown_lines. cbn [flat_map map filter app].
  rewrite <- (SampleFacts.parseWeight_trim value).
  destruct (trim value) as [|c raw] eqn:Et.
  - replace (parseWeight []) with (@None jsstring) by reflexivity.
    reflexivity.
  - unfold bind, setRawLine, setWeight, set_ui, ret.
    cbn [ui readerRef now dev status active weight rawLine configLabel log].
    destruct (parseWeight (c :: raw)) as [sample|] eqn:Ep; [|reflexivity].
    rewrite <- Et, SampleFacts.parseWeight_trim in Ep.
    destruct (SampleFacts.parseWeight_nonempty _ _ Ep) as [Hs _].
    destruct sample as [|c' parsed]; [now contradiction Hs | reflexivity].
Qed.

End Facts.

End Reading.

Module ReadingFacts.
Import JS Regex Decoder Async Reading.

Lemma last_app_default {A : Type} (a b : list A) (d : A) :
  last (a ++ b) d = last b (last a d).
Proof.
  revert d; induction a as [|x a IH]; intros d; [reflexivity|].
  cbn [app]. now rewrite !last_cons, IH.
Qed.

Lemma shown_lines_cons value rest :
  shown_lines (value :: rest) = shown_lines [value] ++ shown_lines rest.
Proof.
  unfold shown_lines. cbn [map filter].
  destruct (trim value); reflexivity.
Qed.

Lemma samples_cons value rest :
  samples (value :: rest) = samples [value] ++ samples rest.
Proof. unfold samples. cbn [flat_map]. now rewrite app_nil_r. Qed.

End ReadingFacts.

(** What the page shows while it reads.  After the loop has read any lines,
    the raw line shown is the trim of the latest line that was not blank, and
    the weight shown is the sample of the latest line that had one: a line
    without a number replaces the raw line and leaves the weight of an earlier
    line next to it.  Lines never change the status, the log or the other
    fields, and the loop throws nothing. *)
Theorem read_loop_shows_latest_line_and_sample :
  forall (Dev : Type) (lines : list jsstring) (w : Async.World Dev),
    Reading.read_lines lines w
    = (Async.Ok tt,
       {| Async.ui :=
            {| Async.status := Async.status (Async.ui w);
               Async.active := Async.active (Async.ui w);
               Async.weight := last (Reading.samples lines)
                                    (Async.weight (Async.ui w));
               Async.rawLine := last (Reading.shown_lines lines)
                                     (Async.rawLine (Async.ui w));
               Async.configLabel := Async.configLabel (Async.ui w);
               Async.log := Async.log (Async.ui w) |};
          Async.readerRef := Async.readerRef w; Async.now := Async.now w;
          Async.dev := Async.dev w |}).
Proof.
  intros Dev lines. induction lines as [|value rest IH]; intros w.
  - destruct w as [[st ac we ra co lo] rr n d]. reflexivity.
  - cbn [Reading.read_lines]. unfold Async.bind.
    rewrite Reading.shown_after_line, IH.
    cbn [Async.ui Async.readerRef Async.now Async.dev Async.status
         Async.active Async.weight Async.rawLine Async.configLabel Async.log].
    rewrite (ReadingFacts.shown_lines_cons value rest),
      (ReadingFacts.samples_cons value rest).
    now rewrite !ReadingFacts.last_app_default.
Qed.

Example read_loop_keeps_stale_weight :
  let w := snd (Reading.read_lines
                  [js "P 00120" ; [LF] ; js " ERR " ]
                  Simulated.start) in
  Async.rawLine (Async.ui w) = js "ERR"
  /\ Async.weight (Async.ui w) = js "00120".
Proof. split; reflexivity. Qed.

(** ** [hex]: the dump of received bytes *)

Module HexDump.
Import ScaleAutoDetectAuto.

(** [hex(buf)] of test2.tsx, test3.tsx, test4.tsx and unnamed/part_000:
    [Array.from(buf).map(b => b.toString(16).padStart(2, "0")).join(" ")],
    which test.tsx writes out in its [loopbackTest]. *)
Definition hex (buf : list N) : jsstring := join (js " ") (map hex_byte buf).

(** Reading a dump back, for stating that nothing is lost in it. *)
Definition unhex_digit (c : char) : N :=
  if (c <? 58)%N then (c - 48)%N else (c - 87)%N.

Fixpoint unhex (s : jsstring) : list N :=
  match s with
  | h :: l :: rest =>
      (16 * unhex_digit h + unhex_digit l)%N
      :: match rest with
         | _ :: rest' => unhex rest'
         | [] => []
         end
  | _ => []
  end.

Lemma unhex_hex_digit n : (n < 16)%N -> unhex_digit (hex_digit n) = n.
Proof.
  intros H. unfold hex_digit, unhex_digit.
  destruct (N.ltb_spec n 10).
  - destruct (N.ltb_spec (48 + n) 58); lia.
  - destruct (N.ltb_spec (87 + n) 58); lia.
Qed.

Lemma unhex_hex_byte b :
  (b < 256)%N ->
  (16 * unhex_digit (hex_digit (b / 16)) + unhex_digit (hex_digit (b mod 16)))%N
  = b.
Proof.
  intros H.
  assert (b / 16 < 16)%N by (apply N.Div0.div_lt_upper_bound; lia).
  assert (b mod 16 < 16)%N by (apply N.mod_lt; lia).
  rewrite !unhex_hex_digit by assumption.
  pose proof (N.div_mod b 16). lia.
Qed.

Lemma hex_cons b b' bs :
  hex (b :: b' :: bs) = hex_byte b ++ js " " ++ hex (b' :: bs).
Proof. reflexivity. Qed.

Lemma unhex_hex buf :
  Forall (fun b => (b < 256)%N) buf -> unhex (hex buf) = buf.
Proof.
  induction buf as [|b [|b' bs] IH]; intros H; [reflexivity| |].
  - apply Forall_inv in H. unfold hex. cbn [map join hex_byte unhex].
    now rewrite unhex_hex_byte.
  - rewrite hex_cons. unfold hex_byte at 1. cbn [app js unhex].
    rewrite unhex_hex_byte by now apply Forall_inv in H.
    f_equal. apply IH. now apply Forall_inv_tail in H.
Qed.

Lemma hex_length buf :
  buf <> [] -> length (hex buf) = 3 * length buf - 1.
Proof.
  induction buf as [|b [|b' bs] IH]; intros H;
    [now contradiction H | reflexivity |].
  rewrite hex_cons, !length_app, IH by discriminate.
  cbn [length hex_byte js]. lia.
Qed.

End HexDump.

(** The hexadecimal dump loses nothing.  Every byte gives exactly two digits,
    so the dump of n bytes (n >= 1) has 3n - 1 code units, the dump can be read
    back into the bytes, and two byte sequences with the same dump are the
    same.  The empty sequence gives the empty string. *)
Theorem hex_dump_determines_the_bytes :
  forall a b : list N,
    Forall (fun x => (x < 256)%N) a ->
    Forall (fun x => (x < 256)%N) b ->
    HexDump.unhex (HexDump.hex a) = a
    /\ (a <> [] -> length (HexDump.hex a) = 3 * length a - 1)
    /\ (HexDump.hex a = HexDump.hex b -> a = b)
    /\ HexDump.hex [] = [].
Proof.
  intros a b Ha Hb. split; [now apply HexDump.unhex_hex|].
  split; [apply HexDump.hex_length|]. split; [|reflexivity].
  intros H. rewrite <- (HexDump.unhex_hex a Ha), <- (HexDump.unhex_hex b Hb).
  now rewrite H.
Qed.

(** The bytes of the damaged token, as a witness. *)
Lemma hex_dump_determines_the_bytes_witness :
  HexDump.hex [176; 66; 75; 49; 130]%N = js "b0 42 4b 31 82"
  /\ HexDump.unhex (HexDump.hex [176; 66; 75; 49; 130]%N)
     = [176; 66; 75; 49; 130]%N.
Proof.
  split; [reflexivity|].
  refine (proj1 (hex_dump_determines_the_bytes [176; 66; 75; 49; 130]%N []
                   _ (Forall_nil _))).
  repeat constructor.
Defined.

(** ** [toFixed(3)] of the readings *)

Module FixedPoint.
Import Numbers NumberFacts.
Local Open Scope Z_scope.

(** Machine integers the computation below uses. *)
Definition two52 : PrimInt63.int := Eval vm_compute in Uint63.of_Z (2 ^ 52).
Definition two53 : PrimInt63.int := Eval vm_compute in Uint63.of_Z (2 ^ 53).
Definition i1 : PrimInt63.int := Eval vm_compute in Uint63.of_Z 1.
Definition i1000 : PrimInt63.int := Eval vm_compute in Uint63.of_Z 1000.
Definition i1080 : PrimInt63.int := Eval vm_compute in Uint63.of_Z 1080.
Definition i2153 : PrimInt63.int := Eval vm_compute in Uint63.of_Z 2153.
Definition i2154 : PrimInt63.int := Eval vm_compute in Uint63.of_Z 2154.

(** The text [toFixed(3)] prints for the integer [n] of thousandths: the
    decimal digits of [n], padded with zeros to four at least, and a point
    before the last three. *)
Definition fixed3_text (n : Z) : jsstring :=
  let ds := decimal (Z.to_N n) in
  let ds := repeat 48%N (4 - length ds) ++ ds in
  firstn (length ds - 3) ds ++ [46%N] ++ skipn (length ds - 3) ds.

(** The thousandths nearest to a positive normal number below 2^52, computed
    on machine integers: the mantissa times 1000, shifted right by the
    exponent with the last bit rounding up. *)
Definition fast_round3 (x : float) : option PrimInt63.int :=
  if PrimFloat.is_nan x || PrimFloat.is_zero x || PrimFloat.is_infinity x
     || PrimFloat.get_sign x then None
  else
    let (r, se) := PrimFloat.frshiftexp x in
    let m := PrimFloat.normfr_mantissa r in
    if (Uint63.leb two52 m && Uint63.ltb m two53
        && Uint63.leb i1080 se && Uint63.leb se i2153)%bool
    then
      let P := Uint63.sub i2154 se in
      Some (Uint63.lsr
              (Uint63.add
                 (Uint63.lsr (Uint63.mul m i1000) (Uint63.sub P i1)) i1) i1)
    else None.

Lemma digits2_pos_size p : digits2_pos p = Pos.size p.
Proof. induction p as [p IH | p IH |]; cbn; now rewrite ?IH. Qed.

Lemma Zdigits2_53 m : 2 ^ 52 <= m < 2 ^ 53 -> Zdigits2 m = 53.
Proof.
  intros H. assert (Hlog : Z.log2 m = 52) by (apply Z.log2_unique; lia).
  destruct m as [|p|p]; try lia. cbn [Zdigits2].
  rewrite digits2_pos_size. destruct p as [q|q|]; cbn in Hlog |- *; lia.
Qed.

Lemma round_shift q P :
  0 <= q -> 1 <= P ->
  (2 * q + 2 ^ P) / (2 * 2 ^ P) = (q / 2 ^ (P - 1) + 1) / 2.
Proof.
  intros Hq HP. set (k := 2 ^ (P - 1)).
  assert (Hk : 0 < k) by (apply Z.pow_pos_nonneg; lia).
  assert (HPk : 2 ^ P = 2 * k).
  { unfold k. rewrite <- Z.pow_succ_r by lia. f_equal. lia. }
  rewrite HPk.
  replace (2 * q + 2 * k) with (2 * (q + k)) by lia.
  rewrite Z.div_mul_cancel_l by lia.
  rewrite (Z.mul_comm 2 k), <- Z.div_div by lia.
  f_equal. replace (q + k) with (q + 1 * k) by lia.
  now rewrite Z.div_add by lia.
Qed.


Lemma Prim2SF_normal x r se :
  PrimFloat.is_nan x = false -> PrimFloat.is_zero x = false ->
  PrimFloat.is_infinity x = false -> PrimFloat.get_sign x = false ->
  PrimFloat.frshiftexp x = (r, se) ->
  2 ^ 52 <= Uint63.to_Z (PrimFloat.normfr_mantissa r) < 2 ^ 53 ->
  1080 <= Uint63.to_Z se <= 2153 ->
  Prim2SF x
  = S754_finite false (Z.to_pos (Uint63.to_Z (PrimFloat.normfr_mantissa r)))
      (Uint63.to_Z se - 2154).
Proof.
  intros Hnan Hzero Hinf Hsign Hfr Hm Hse.
  unfold Prim2SF. rewrite Hnan, Hzero, Hinf, Hsign.
  unfold FloatOps.Z.frexp. rewrite Hfr.
  unfold shr_fexp. rewrite (Zdigits2_53 _ Hm).
  unfold fexp, SpecFloat.emin, FloatOps.prec, FloatOps.emax, FloatOps.shift.
  set (m := Uint63.to_Z (PrimFloat.normfr_mantissa r)) in *.
  set (e := Uint63.to_Z se) in *.
  replace (Z.max (53 + (e - 2101 - 53) - 53) (3 - 1024 - 53)
           - (e - 2101 - 53)) with 0 by lia.
  cbn [shr shr_record_of_loc shr_m].
  destruct m as [|p|p] eqn:E; try lia.
  cbn [Z.to_pos]. f_equal. lia.
Qed.

Lemma fast_round3_sound x N :
  fast_round3 x = Some N -> toFixed3 x = fixed3_text (Uint63.to_Z N).
Proof.
  unfold fast_round3.
  destruct (PrimFloat.is_nan x) eqn:Hnan; [discriminate|].
  destruct (PrimFloat.is_zero x) eqn:Hzero; [discriminate|].
  destruct (PrimFloat.is_infinity x) eqn:Hinf; [discriminate|].
  destruct (PrimFloat.get_sign x) eqn:Hsign; [discriminate|].
  cbn [orb].
  destruct (PrimFloat.frshiftexp x) as [r se] eqn:Hfr.
  set (mi := PrimFloat.normfr_mantissa r).
  destruct (Uint63.leb two52 mi && Uint63.ltb mi two53
            && Uint63.leb i1080 se && Uint63.leb se i2153)%bool eqn:Hc;
    [|discriminate].
  apply andb_prop in Hc as [Hc H4]. apply andb_prop in Hc as [Hc H3].
  apply andb_prop in Hc as [H1 H2].
  apply Uint63.leb_spec in H1, H3, H4. apply Uint63.ltb_spec in H2.
  change (Uint63.to_Z two52) with (2 ^ 52) in H1.
  change (Uint63.to_Z two53) with (2 ^ 53) in H2.
  change (Uint63.to_Z i1080) with 1080 in H3.
  change (Uint63.to_Z i2153) with 2153 in H4.
  intros [= <-].
  unfold toFixed3.
  rewrite (Prim2SF_normal x r se Hnan Hzero Hinf Hsign Hfr (conj H1 H2)
             (conj H3 H4)).
  fold mi. set (m := Uint63.to_Z mi) in *. set (e := Uint63.to_Z se) in *.
  set (n := match (e - 2154)%Z with 0%Z => _ | Z.pos p => _ | Z.neg p => _ end).
  set (N := Uint63.lsr _ i1).
  assert (Hn : n = Uint63.to_Z N).
  { unfold n, N. clear n N.
    assert (HP : Uint63.to_Z (Uint63.sub i2154 se) = 2154 - e).
    { rewrite Uint63.sub_spec. change (Uint63.to_Z i2154) with 2154.
      fold e. apply Z.mod_small. change Uint63.wB with (2 ^ 63). lia. }
    assert (HP1 : Uint63.to_Z (Uint63.sub (Uint63.sub i2154 se) i1) = 2154 - e - 1).
    { rewrite Uint63.sub_spec, HP. change (Uint63.to_Z i1) with 1.
      apply Z.mod_small. change Uint63.wB with (2 ^ 63). lia. }
    assert (Hq : Uint63.to_Z (Uint63.mul mi i1000) = m * 1000).
    { rewrite Uint63.mul_spec. change (Uint63.to_Z i1000) with 1000. fold m.
      apply Z.mod_small. change Uint63.wB with (2 ^ 63).
      change (2 ^ 53) with 9007199254740992 in H2.
      change (2 ^ 63) with 9223372036854775808. lia. }
    assert (Hpow : 0 < 2 ^ (2154 - e - 1)) by (apply Z.pow_pos_nonneg; lia).
    assert (Hu : Uint63.to_Z (Uint63.lsr (Uint63.mul mi i1000)
                                 (Uint63.sub (Uint63.sub i2154 se) i1))
                 = m * 1000 / 2 ^ (2154 - e - 1)).
    { now rewrite Uint63.lsr_spec, Hq, HP1. }
    assert (Hub : 0 <= m * 1000 / 2 ^ (2154 - e - 1) <= m * 1000).
    { split; [apply Z.div_pos; lia|].
      apply Z.div_le_upper_bound; [lia|]. nia. }
    rewrite Uint63.lsr_spec, Uint63.add_spec, Hu.
    change (Uint63.to_Z i1) with 1. change (2 ^ 1) with 2.
    rewrite (Z.mod_small (_ + 1)).
    2:{ change Uint63.wB with 9223372036854775808.
        change (2 ^ 53) with 9007199254740992 in H2. lia. }
    destruct (e - 2154) as [|p|p] eqn:Ee; try lia.
    replace (Z.pos (Z.to_pos m)) with m by (rewrite Z2Pos.id; lia).
    replace (2154 - e - 1) with (Z.pos p - 1) by lia.
    apply round_shift; lia. }
  clearbody n N. subst n. reflexivity.
Qed.

(** The readings of a La Torre telegram: [n / 1000] for the six digits [n].
    Alone in the smoothing window, twice and three times in it, the mean
    prints as the thousandths [n]. *)
Definition steady_ok (z : Z) : bool :=
  let i := Uint63.of_Z z in
  let v := PrimFloat.div (of_Z z) 1000%float in
  let shows (x : number) :=
    match fast_round3 x with Some n => Uint63.eqb n i | None => false end in
  shows v
  && shows (BalanzaLaTorre.average [v])
  && shows (BalanzaLaTorre.average [v; v])
  && shows (BalanzaLaTorre.average [v; v; v]).

Lemma steady_ok_all : check_from (Z.to_nat 999999) 1 steady_ok = true.
Proof. vm_cast_no_check (@eq_refl bool true). Qed.

Lemma shows_sound x z :
  0 <= z < 2 ^ 63 ->
  match fast_round3 x with
  | Some n => Uint63.eqb n (Uint63.of_Z z)
  | None => false
  end = true ->
  toFixed3 x = fixed3_text z.
Proof.
  intros Hz H. destruct (fast_round3 x) as [n|] eqn:E; [|discriminate].
  apply Uint63.eqb_spec in H. subst n.
  rewrite (fast_round3_sound x _ E), Uint63.of_Z_spec.
  f_equal. apply Z.mod_small. exact Hz.
Qed.

Lemma steady_readings z :
  0 <= z < 1000000 ->
  let v := PrimFloat.div (of_Z z) 1000%float in
  toFixed3 v = fixed3_text z
  /\ toFixed3 (BalanzaLaTorre.average [v]) = fixed3_text z
  /\ toFixed3 (BalanzaLaTorre.average [v; v]) = fixed3_text z
  /\ toFixed3 (BalanzaLaTorre.average [v; v; v]) = fixed3_text z.
Proof.
  intros Hz v. destruct (Z.eq_dec z 0) as [-> | Hnz].
  { repeat split; reflexivity. }
  pose proof (check_from_sound _ _ _ steady_ok_all z) as H.
  rewrite Z2Nat.id in H by lia. specialize (H ltac:(lia)).
  unfold steady_ok in H. fold v in H.
  apply andb_prop in H as [H H3]. apply andb_prop in H as [H H2].
  apply andb_prop in H as [H0 H1].
  assert (Hb : 0 <= z < 2 ^ 63) by (change (2 ^ 63) with 9223372036854775808; lia).
  repeat split; now apply shows_sound.
Qed.
(** The readings of a five-digit telegram: [n * 0.001] as grams, and [n * 1]
    as kilograms, print as the thousandths [n] and [1000 n]; and but for 0,
    the reading in grams is not the integer itself. *)
Definition grams_ok (z : Z) : bool :=
  let i := Uint63.of_Z z in
  let shows (x : number) (k : PrimInt63.int) :=
    match fast_round3 x with Some n => Uint63.eqb n k | None => false end in
  shows (PrimFloat.mul (of_Z z) 0.001%float) i
  && shows (PrimFloat.mul (of_Z z) 1%float) (Uint63.mul i i1000)
  && negb (PrimFloat.eqb (PrimFloat.mul (of_Z z) 0.001%float) (of_Z z)).

Lemma grams_ok_all : check_from (Z.to_nat 99999) 1 grams_ok = true.
Proof. vm_cast_no_check (@eq_refl bool true). Qed.

Lemma five_digit_readings z :
  0 <= z < 100000 ->
  toFixed3 (PrimFloat.mul (of_Z z) 0.001%float) = fixed3_text z
  /\ toFixed3 (PrimFloat.mul (of_Z z) 1%float) = fixed3_text (1000 * z)
  /\ PrimFloat.eqb (PrimFloat.mul (of_Z z) 0.001%float) (of_Z z)
     = (z =? 0).
Proof.
  intros Hz. destruct (Z.eq_dec z 0) as [-> | Hnz].
  { repeat split; reflexivity. }
  pose proof (check_from_sound _ _ _ grams_ok_all z) as H.
  rewrite Z2Nat.id in H by lia. specialize (H ltac:(lia)).
  unfold grams_ok in H.
  apply andb_prop in H as [H H3]. apply andb_prop in H as [H1 H2].
  assert (Hb : 0 <= z < 2 ^ 63)
    by (change (2 ^ 63) with 9223372036854775808; lia).
  split; [now apply shows_sound|]. split.
  - apply shows_sound.
    + change (2 ^ 63) with 9223372036854775808. lia.
    + replace (Uint63.of_Z (1000 * z))
        with (Uint63.mul (Uint63.of_Z z) i1000); [exact H2|].
      apply Uint63.to_Z_inj.
      rewrite Uint63.mul_spec, !Uint63.of_Z_spec.
      change (Uint63.to_Z i1000) with 1000. change Uint63.wB with (2 ^ 63).
      rewrite (Z.mod_small z) by exact Hb. f_equal. lia.
  - replace (z =? 0) with false by (symmetry; apply Z.eqb_neq; exact Hnz).
    now apply negb_true_iff.
Qed.

End FixedPoint.

Module SteadyLoad.
Import Regex Numbers Shapes NumberFacts DecoderFacts BalanzaLaTorre
       DisplayProps.

(** The reading of a telegram with the digits [ds]. *)
Definition reading (ds : jsstring) : number :=
  PrimFloat.div (of_Z (digits_value ds)) 1000%float.

Definition telegrams (L : char) (ds : jsstring) (times : list Z)
  : list Event :=
  map (fun t => Line t (L :: ds)) times.

Lemma telegram_decodes (L : char) (ds : jsstring) :
  (L = 68 \/ L = 100)%N -> all_n isDigit 6 ds = true ->
  decoded_value (L :: ds) = Some (reading ds).
Proof.
  intros HL Hd.
  pose proof (all_n_nonempty _ _ _ Hd) as Hne.
  pose proof (all_n_forallb _ _ _ Hd) as Hfa.
  assert (Hws : isWhiteSpace L = false) by (destruct HL; subst; reflexivity).
  assert (Htrim : trim (L :: ds) = L :: ds).
  { apply trim_id; [exact Hws|].
    change (L :: ds) with ([L] ++ ds).
    rewrite (LineFramer.last_app_r _ ds L Hne).
    apply isDigit_not_ws. now apply DecoderProps.forallb_last. }
  unfold decoded_value. rewrite Htrim.
  unfold parseLaTorre. rewrite Htrim, match_laTorre.
  unfold prefixed_line.
  rewrite (proj2 (marker_either_case L) HL), Hd.
  cbn [andb group groups assoc Nat.eqb].
  rewrite (Number_digits ds Hne Hfa).
  destruct (all_n_digits_finite 6 ds (le_n 6) Hd) as [Hfin _].
  rewrite Hfin. reflexivity.
Qed.

Lemma digits_below_million ds :
  all_n isDigit 6 ds = true -> (0 <= digits_value ds < 1000000)%Z.
Proof.
  intros Hd. pose proof (digits_value_bound ds (all_n_forallb _ _ _ Hd)) as Hb.
  unfold all_n in Hd. apply andb_prop in Hd as [Hl _].
  apply Nat.eqb_eq in Hl. rewrite Hl in Hb.
  change (10 ^ Z.of_nat 6)%Z with 1000000%Z in Hb. exact Hb.
Qed.

Section Steady.

Variables (L : char) (ds : jsstring).
Hypothesis HL : (L = 68 \/ L = 100)%N.
Hypothesis Hd : all_n isDigit 6 ds = true.

Let v := reading ds.
Let shown := FixedPoint.fixed3_text (digits_value ds).

Lemma step_telegram t st :
  step st (Line t (L :: ds))
  = {| connected := connected st;
       displayKg := toFixed3 (average (push_shift v (smoothRef st)));
       lastSeenRef := t;
       smoothRef := push_shift v (smoothRef st) |}.
Proof.
  cbn [step]. rewrite on_line_eq, (telegram_decodes L ds HL Hd). reflexivity.
Qed.

Lemma steady_means :
  toFixed3 (average [v]) = shown
  /\ toFixed3 (average [v; v]) = shown
  /\ toFixed3 (average [v; v; v]) = shown.
Proof.
  destruct (FixedPoint.steady_readings _ (digits_below_million ds Hd))
    as (_ & H1 & H2 & H3).
  now repeat split.
Qed.

(** With the window full of the reading, further telegrams change nothing
    but the time stamp. *)
Lemma steady_goes_on times :
  forall st j,
    1 <= j <= 3 -> smoothRef st = repeat v j -> displayKg st = shown ->
    let st' := run (telegrams L ds times) st in
    smoothRef st' = repeat v (Nat.min (j + length times) 3)
    /\ displayKg st' = shown
    /\ lastSeenRef st' = last times (lastSeenRef st).
Proof.
  induction times as [|t times IH]; intros st j Hj Hw Hdisp.
  - cbn [telegrams map run fold_left length last].
    replace (Nat.min (j + 0) 3) with j by lia. now repeat split.
  - cbn [telegrams map]. unfold run. cbn [fold_left].
    rewrite step_telegram.
    fold (telegrams L ds times). fold (run (telegrams L ds times)).
    destruct steady_means as (H1 & H2 & H3).
    assert (Hpush : push_shift v (repeat v j) = repeat v (Nat.min (S j) 3)).
    { destruct j as [|[|[|[|j]]]]; try lia; reflexivity. }
    rewrite Hw, Hpush.
    match goal with |- context [fold_left step _ ?s] =>
      destruct (IH s (Nat.min (S j) 3)) as (Hw' & Hd' & Hs')
    end.
    + lia.
    + reflexivity.
    + cbn [displayKg].
      destruct j as [|[|[|[|j]]]]; try lia; cbn [Nat.min repeat]; assumption.
    + unfold run in Hw', Hd', Hs'. cbn [lastSeenRef length] in *.
      rewrite Hw', Hd', Hs', Reading.last_cons.
      repeat split. f_equal. lia.
Qed.

End Steady.

End SteadyLoad.

(** A steady load reads exactly.  When the window is empty (after [connect]
    or after a reset of the watchdog) and telegrams with the same six digits
    arrive, the display shows from the first one on those digits with the
    point before the last three ("D025500" shows "25.500"): the mean of one,
    two or three equal readings prints as the reading itself, for every one of
    the million telegrams.  From any window of at most three values the same
    holds from the third such telegram on. *)
Theorem steady_load_reads_exactly :
  forall (L : char) (ds : jsstring) (times : list Z)
         (st : BalanzaLaTorre.State),
    (L = 68 \/ L = 100)%N ->
    Shapes.all_n Regex.isDigit 6 ds = true ->
    times <> [] ->
    (BalanzaLaTorre.smoothRef st = []
     \/ (length (BalanzaLaTorre.smoothRef st) <= 3 /\ 3 <= length times)) ->
    let st' := BalanzaLaTorre.run (SteadyLoad.telegrams L ds times) st in
    BalanzaLaTorre.displayKg st'
    = FixedPoint.fixed3_text (Numbers.digits_value ds)
    /\ BalanzaLaTorre.smoothRef st'
       = repeat (SteadyLoad.reading ds) (Nat.min (length times) 3)
    /\ BalanzaLaTorre.lastSeenRef st' = last times 0%Z.
Proof.
  intros L ds times st HL Hd Hne Hwin.
  destruct (SteadyLoad.steady_means ds Hd) as (H1 & H2 & H3).
  assert (Hfirst : forall t ts s j,
             1 <= j <= 3 ->
             BalanzaLaTorre.smoothRef s = repeat (SteadyLoad.reading ds) j ->
             BalanzaLaTorre.displayKg s
             = FixedPoint.fixed3_text (Numbers.digits_value ds) ->
             BalanzaLaTorre.lastSeenRef s = t ->
             let s' := BalanzaLaTorre.run (SteadyLoad.telegrams L ds ts) s in
             BalanzaLaTorre.displayKg s'
             = FixedPoint.fixed3_text (Numbers.digits_value ds)
             /\ BalanzaLaTorre.smoothRef s'
                = repeat (SteadyLoad.reading ds) (Nat.min (j + length ts) 3)
             /\ BalanzaLaTorre.lastSeenRef s' = last ts t).
  { intros t ts s j Hj Hw Hdisp Hseen.
    destruct (SteadyLoad.steady_goes_on L ds HL Hd ts s j Hj Hw Hdisp)
      as (Hw' & Hd' & Hs').
    rewrite Hseen in Hs'. now repeat split. }
  destruct Hwin as [Hempty | [Hlen Hthree]].
  - destruct times as [|t ts]; [now contradiction Hne|].
    cbn [SteadyLoad.telegrams map]. unfold BalanzaLaTorre.run.
    cbn [fold_left]. rewrite (SteadyLoad.step_telegram L ds HL Hd), Hempty.
    change (BalanzaLaTorre.push_shift (SteadyLoad.reading ds) [])
      with [SteadyLoad.reading ds].
    rewrite Reading.last_cons. cbn [length].
    apply (Hfirst t ts _ 1); [lia | reflexivity | exact H1 | reflexivity].
  - destruct times as [|t1 [|t2 [|t3 ts]]]; cbn [length] in Hthree; try lia.
    cbn [SteadyLoad.telegrams map]. unfold BalanzaLaTorre.run.
    cbn [fold_left]. rewrite !(SteadyLoad.step_telegram L ds HL Hd).
    cbn [BalanzaLaTorre.smoothRef BalanzaLaTorre.connected].
    rewrite !Reading.last_cons. cbn [length].
    assert (Hw : BalanzaLaTorre.push_shift (SteadyLoad.reading ds)
                   (BalanzaLaTorre.push_shift (SteadyLoad.reading ds)
                      (BalanzaLaTorre.push_shift (SteadyLoad.reading ds)
                         (BalanzaLaTorre.smoothRef st)))
                 = repeat (SteadyLoad.reading ds) 3).
    { destruct (BalanzaLaTorre.smoothRef st) as [|a [|b [|c [|d r]]]];
        cbn [length] in Hlen; try lia; reflexivity. }
    rewrite Hw.
    replace (Nat.min (S (S (S (length ts)))) 3)
      with (Nat.min (3 + length ts) 3) by lia.
    apply (Hfirst t3 ts _ 3); [lia | reflexivity | exact H3 | reflexivity].
Qed.

(** Two telegrams after [connect], as a witness. *)
Lemma steady_load_reads_exactly_witness :
  BalanzaLaTorre.displayKg
    (BalanzaLaTorre.run
       [BalanzaLaTorre.Line 1000 (js "D025500");
        BalanzaLaTorre.Line 1200 (js "D025500")]
       BalanzaLaTorre.connected_state)
  = js "25.500".
Proof.
  refine (proj1 (steady_load_reads_exactly 68%N (js "025500") [1000; 1200]%Z
                   BalanzaLaTorre.connected_state (or_introl eq_refl)
                   eq_refl _ (or_introl eq_refl))).
  discriminate.
Defined.

(** ** The readers with a log: test4.tsx and test3.tsx *)

(** The state the reader components show. *)
Module Panel.

Record Panel : Type := {
  status : jsstring;
  weight : jsstring;
  rawLine : jsstring;
  log : list jsstring;
  portInfo : jsstring
}.

Definition setWeight (s : jsstring) (p : Panel) : Panel :=
  {| status := status p; weight := s; rawLine := rawLine p; log := log p;
     portInfo := portInfo p |}.

Definition setRawLine (s : jsstring) (p : Panel) : Panel :=
  {| status := status p; weight := weight p; rawLine := s; log := log p;
     portInfo := portInfo p |}.

(** [setLog(p => [line, ...p].slice(0, cap))] *)
Definition setLog (cap : nat) (line : jsstring) (p : Panel) : Panel :=
  {| status := status p; weight := weight p; rawLine := rawLine p;
     log := firstn cap (line :: log p); portInfo := portInfo p |}.

End Panel.

(** The read loop of [connect] in test4.tsx. *)
Module LatorreReader.
Import JS Regex Numbers Decoder Panel.

Definition on_line (value : jsstring) (p : Panel) : Panel :=
  let raw := trim value in
  match raw with
  | [] => p
  | _ :: _ =>
      let p := setRawLine raw p in
      let res := parseLaTorre raw in
      match lt_ok res, lt_kg res with
      | true, Some kg =>
          let p := setWeight (toFixed3 kg) p in
          setLog 200 (js "[LATORRE] RAW='" ++ raw ++ js "' -> "
                      ++ toFixed3 kg ++ js " kg") p
      | _, _ => setLog 200 (js "[IGN] '" ++ raw ++ js "'") p
      end
  end.

Definition read_lines (lines : list jsstring) (p : Panel) : Panel :=
  fold_left (fun p value => on_line value p) lines p.

End LatorreReader.

(** The read loop of [connect] in the first component of test3.tsx. *)
Module LatorreReaderModes.
Import JS Regex Numbers Decoder Panel.

Definition source_name (s : Source) : jsstring :=
  match s with
  | SRC_GRAMS5_P => js "GRAMS5_P"
  | SRC_GRAMS5 => js "GRAMS5"
  | SRC_KG5 => js "KG5"
  | SRC_GENERIC => js "GENERIC"
  end.

(** [`${res.source}`] and [`${res.flag ? "/" + res.flag : ""}`] *)
Definition source_text (res : ParseResult) : jsstring :=
  match src res with Some s => source_name s | None => js "undefined" end.

Definition flag_text (res : ParseResult) : jsstring :=
  match flag res with
  | Some (c :: f) => js "/" ++ c :: f
  | _ => []
  end.

Section Loop.

Variable FACTOR : Factor.
Variable ASSUME_5DIGITS_IS : Assume.
Variable MODE : Mode.

Definition on_line (value : jsstring) (p : Panel) : Panel :=
  let raw := trim value in
  match raw with
  | [] => p
  | _ :: _ =>
      let p := setRawLine raw p in
      let res := parseLineByMode FACTOR ASSUME_5DIGITS_IS raw MODE in
      match ok res, kg res with
      | true, Some kg =>
          let p := setWeight (toFixed3 kg) p in
          setLog 200 (js "[" ++ source_text res ++ flag_text res
                      ++ js "] RAW='" ++ raw ++ js "' -> "
                      ++ toFixed3 kg ++ js " kg") p
      | _, _ => setLog 200 (js "[IGN] '" ++ raw ++ js "'") p
      end
  end.

Definition read_lines (lines : list jsstring) (p : Panel) : Panel :=
  fold_left (fun p value => on_line value p) lines p.

End Loop.

End LatorreReaderModes.

Module ReaderFacts.
Import JS Regex Numbers Decoder Shapes NumberFacts DecoderFacts TelegramSpec.

Lemma digits5_below ds :
  all_n isDigit 5 ds = true -> (0 <= digits_value ds < 100000)%Z.
Proof.
  intros Hd. pose proof (digits_value_bound ds (all_n_forallb _ _ _ Hd)) as Hb.
  unfold all_n in Hd. apply andb_prop in Hd as [Hl _].
  apply Nat.eqb_eq in Hl. rewrite Hl in Hb.
  change (10 ^ Z.of_nat 5)%Z with 100000%Z in Hb. exact Hb.
Qed.

Lemma prefixed_line_digits (raw ds : jsstring) :
  prefixed_line raw = Some ds -> all_n isDigit 6 ds = true.
Proof.
  unfold prefixed_line. destruct raw as [|L r]; [discriminate|].
  destruct (N.eqb (canonicalize true 68%N) (canonicalize true L)
            && all_n isDigit 6 r) eqn:E; [|discriminate].
  intros [= <-]. now apply andb_prop in E.
Qed.

(** [parseLaTorre] of test4.tsx on a line that is already trimmed. *)
Lemma parseLaTorre_trimmed (value : jsstring) :
  parseLaTorre (trim value)
  = match prefixed_line (trim value) with
    | Some ds =>
        {| lt_ok := true; lt_raw := trim value;
           lt_kg := Some (PrimFloat.div (of_Z (digits_value ds)) 1000%float) |}
    | None => {| lt_ok := false; lt_raw := trim value; lt_kg := None |}
    end.
Proof.
  unfold parseLaTorre. rewrite TrimProps.trim_trim, match_laTorre.
  destruct (prefixed_line (trim value)) as [ds|] eqn:Hp; [|reflexivity].
  pose proof (prefixed_line_digits _ _ Hp) as Hd.
  cbn [group groups assoc Nat.eqb].
  rewrite (Number_digits ds (all_n_nonempty _ _ _ Hd) (all_n_forallb _ _ _ Hd)).
  destruct (all_n_digits_finite 6 ds (le_n 6) Hd) as [Hfin _].
  now rewrite Hfin.
Qed.

End ReaderFacts.

(** What the reader of test4.tsx does with a line.  A blank line changes
    nothing.  A telegram, the letter D in either case and six digits, puts
    those digits on display with the point before the last three ("D025500"
    shows "25.500", "D000005" shows "0.005"), exactly, for every one of the
    million telegrams, and logs the raw line with the same text.  Any other
    line replaces the raw line, leaves the weight and is logged as ignored.
    The log is cut to 200 lines. *)
Theorem LatorreReader_shows_the_digits_of_a_telegram :
  forall (value : jsstring) (p : Panel.Panel),
    LatorreReader.on_line value p
    = match Regex.trim value with
      | [] => p
      | raw =>
          match Shapes.prefixed_line raw with
          | Some ds =>
              let text := FixedPoint.fixed3_text (Numbers.digits_value ds) in
              {| Panel.status := Panel.status p;
                 Panel.weight := text;
                 Panel.rawLine := raw;
                 Panel.log :=
                   firstn 200 ((js "[LATORRE] RAW='" ++ raw ++ js "' -> "
                                ++ text ++ js " kg") :: Panel.log p);
                 Panel.portInfo := Panel.portInfo p |}
          | None =>
              {| Panel.status := Panel.status p;
                 Panel.weight := Panel.weight p;
                 Panel.rawLine := raw;
                 Panel.log :=
                   firstn 200 ((js "[IGN] '" ++ raw ++ js "'") :: Panel.log p);
                 Panel.portInfo := Panel.portInfo p |}
          end
      end.
Proof.
  intros value p. unfold LatorreReader.on_line.
  pose proof (ReaderFacts.parseLaTorre_trimmed value) as Hp.
  destruct (Regex.trim value) as [|c raw] eqn:Et; [reflexivity|].
  rewrite Hp.
  destruct (Shapes.prefixed_line (c :: raw)) as [ds|] eqn:Hpre;
    [|reflexivity].
  cbn [Decoder.lt_ok Decoder.lt_kg].
  pose proof (ReaderFacts.prefixed_line_digits _ _ Hpre) as Hd.
  destruct (FixedPoint.steady_readings _ (SteadyLoad.digits_below_million ds Hd))
    as (Hshow & _).
  cbv zeta in Hshow. rewrite Hshow. reflexivity.
Qed.

Example LatorreReader_small_weight :
  let p := LatorreReader.read_lines [js "D000005"; js "x"]
             {| Panel.status := js "Conectado"; Panel.weight := js "-";
                Panel.rawLine := js "-"; Panel.log := [];
                Panel.portInfo := [] |} in
  Panel.weight p = js "0.005" /\ Panel.rawLine p = js "x"
  /\ Panel.log p = [js "[IGN] 'x'"; js "[LATORRE] RAW='D000005' -> 0.005 kg"].
Proof. repeat split; reflexivity. Qed.

Module ModesFacts.
Import JS Regex Numbers Decoder Shapes NumberFacts DecoderFacts TelegramSpec
       GenericProps Panel.

(** Bare digits are no flagged line. *)
Lemma bare_not_flagged (raw : jsstring) :
  all_n isDigit 5 raw = true -> flagged_line (js "PNTBR") raw = None.
Proof.
  intros Hb. pose proof (all_n_forallb _ _ _ Hb) as Hfa.
  unfold flagged_line. destruct raw as [|d r]; [reflexivity|].
  cbn [forallb] in Hfa. apply andb_prop in Hfa as [Hd _].
  destruct (is_letter_of (js "PNTBR") d) eqn:E; [|reflexivity].
  apply status_letter_of_not_digit in E as [E _]. congruence.
Qed.

(** [parseLineByMode] on the trimmed line the loop hands to it. *)
Lemma parse_trimmed FACTOR A mode (value : jsstring) :
  parseLineByMode FACTOR A (trim value) mode
  = decode FACTOR A mode (trim value).
Proof. now rewrite parseLineByMode_eq, TrimProps.trim_trim. Qed.

Definition logged (p : Panel) (raw weight : jsstring) (tag : jsstring)
  : Panel :=
  {| status := status p; weight := weight; rawLine := raw;
     log := firstn 200 ((js "[" ++ tag ++ js "] RAW='" ++ raw ++ js "' -> "
                         ++ weight ++ js " kg") :: log p);
     portInfo := portInfo p |}.

End ModesFacts.

(** What the reader of test3.tsx shows for the fixed-digit telegrams, with
    the factors 0.001 and 1 of the file.  A flagged line (status letter, at
    most one white-space code unit, five digits) and, read as grams, five bare
    digits put the digits on display with the point before the last three
    ("P 12345" shows "12.345"), exactly, for all 100000 values; five bare
    digits read as kilograms show the digits followed by ".000".  The log
    line names the source, the flag in upper case after a slash, the raw line
    and the same text.  A line that is not blank and holds no digit is
    ignored in every mode: it becomes the raw line shown, the weight stays as
    it was and the log gets one [IGN] entry.  A blank line changes nothing.
    The log keeps at most 200 entries. *)
Theorem LatorreReaderModes_shows_the_digits :
  forall (A : Decoder.Assume) (mode : Decoder.Mode) (value : jsstring)
         (p : Panel.Panel),
    let raw := Regex.trim value in
    let on_line := LatorreReaderModes.on_line Decoder.FACTOR_file A mode in
    (forall L ds,
        Shapes.flagged_line (js "PNTBR") raw = Some (L, ds) ->
        on_line value p
        = ModesFacts.logged p raw
            (FixedPoint.fixed3_text (Numbers.digits_value ds))
            (js "GRAMS5_P/" ++ [Regex.canonicalize true L]))
    /\ (Shapes.all_n Regex.isDigit 5 raw = true ->
        on_line value p
        = if TelegramSpec.bare_is_kg A mode
          then ModesFacts.logged p raw
                 (FixedPoint.fixed3_text (1000 * Numbers.digits_value raw))
                 (js "KG5")
          else ModesFacts.logged p raw
                 (FixedPoint.fixed3_text (Numbers.digits_value raw))
                 (js "GRAMS5"))
    /\ (raw <> [] ->
        forallb (fun c => negb (Regex.isDigit c)) raw = true ->
        on_line value p
        = {| Panel.status := Panel.status p;
             Panel.weight := Panel.weight p;
             Panel.rawLine := raw;
             Panel.log :=
               firstn 200 ((js "[IGN] '" ++ raw ++ js "'") :: Panel.log p);
             Panel.portInfo := Panel.portInfo p |})
    /\ (raw = [] -> on_line value p = p).
Proof.
  intros A mode value p raw on_line. unfold on_line, raw.
  unfold LatorreReaderModes.on_line. rewrite ModesFacts.parse_trimmed.
  unfold TelegramSpec.decode, TelegramSpec.first_match,
    TelegramSpec.flagged_variant, TelegramSpec.bare_variant,
    TelegramSpec.generic_variant.
  split; [|split; [|split]].
  - intros L ds Hf. rewrite Hf.
    pose proof (DecoderFacts.flagged_line_digits _ _ _ _ Hf) as Hd.
    destruct (FixedPoint.five_digit_readings _ (ReaderFacts.digits5_below ds Hd))
      as (Hshow & _).
    destruct (Regex.trim value) as [|c r]; [discriminate Hf|].
    cbn [Decoder.ok Decoder.kg Decoder.FACTOR_file Decoder.FACTOR_GRAMS].
    rewrite Hshow. reflexivity.
  - intros Hb. rewrite (ModesFacts.bare_not_flagged _ Hb), Hb.
    destruct (FixedPoint.five_digit_readings _
                (ReaderFacts.digits5_below _ Hb)) as (Hg & Hk & _).
    destruct (Regex.trim value) as [|c r]; [discriminate Hb|].
    destruct (TelegramSpec.bare_is_kg A mode);
      cbn [Decoder.ok Decoder.kg Decoder.FACTOR_file Decoder.FACTOR_GRAMS
           Decoder.FACTOR_KG];
      rewrite ?Hg, ?Hk; reflexivity.
  - intros Hne Hnd.
    assert (Hflag : Shapes.flagged_line (js "PNTBR") (Regex.trim value) = None).
    { destruct (Shapes.flagged_line (js "PNTBR") (Regex.trim value))
        as [[L ds]|] eqn:E; [|reflexivity].
      apply DecoderShape.flagged_line_has_digit in E.
      unfold GenericProps.no_digit in E. congruence. }
    assert (Hbare : Shapes.all_n Regex.isDigit 5 (Regex.trim value) = false).
    { destruct (Shapes.all_n Regex.isDigit 5 (Regex.trim value)) eqn:E;
        [|reflexivity].
      apply DecoderShape.all_n_has_digit in E.
      unfold GenericProps.no_digit in E. congruence. }
    assert (Hgen : Shapes.first_number (Regex.trim value) = None)
      by now apply DecoderShape.first_number_none.
    rewrite Hflag, Hbare, Hgen.
    destruct (Regex.trim value) as [|c r]; [contradiction|]. reflexivity.
  - intros E. now rewrite E.
Qed.

Example LatorreReaderModes_lines :
  let p := LatorreReaderModes.read_lines Decoder.FACTOR_file Decoder.GRAMS
             Decoder.AUTO [js "p 12345"; js "00120"]
             {| Panel.status := js "Conectado"; Panel.weight := js "-";
                Panel.rawLine := js "-"; Panel.log := [];
                Panel.portInfo := [] |} in
  Panel.weight p = js "0.120"
  /\ Panel.log p = [js "[GRAMS5] RAW='00120' -> 0.120 kg";
                    js "[GRAMS5_P/P] RAW='p 12345' -> 12.345 kg"].
Proof. repeat split; reflexivity. Qed.

(** ** The shortest text of the L1001 tester: part_000 *)

(** What [/\.?0+$/] finds and what [replace] leaves of a text. *)
Module ZeroTail.
Import JS Regex Decoder RegexFacts.
Local Open Scope re_scope.

(** One zero or more, and nothing else. *)
Definition zeros (s : jsstring) : bool :=
  match s with
  | [] => false
  | _ :: _ => forallb (N.eqb 48) s
  end.

(** The text is zeros to its end, a point before them or not. *)
Definition tail_here (s : jsstring) : bool :=
  match s with
  | c :: z => (N.eqb 46 c && zeros z) || zeros s
  | [] => false
  end.

(** The first index from which the text is such a tail. *)
Fixpoint find_tail (s : jsstring) : option nat :=
  match s with
  | [] => None
  | _ :: s' => if tail_here s then Some 0 else option_map S (find_tail s')
  end.

(** The text without its first such tail. *)
Definition strip_zeros (s : jsstring) : jsstring :=
  match find_tail s with
  | Some j => firstn j s
  | None => s
  end.

Lemma or_else_None_r {A : Type} (x : option A) : or_else x None = x.
Proof. now destruct x. Qed.

Lemma run_zeros_eol b : forall st k,
  run false (Rep 0 (Some b) (Cls (CChar 48%N))) st
      (fun st1 => run false Eol st1 k)
  = if (length (rest st) <=? b) && forallb (N.eqb 48) (rest st)
    then k (advance (length (rest st)) st) else None.
Proof.
  induction b as [|b IH]; intros st k.
  - rewrite run_rep_00, run_eol.
    destruct (rest st) as [|x xs]; [|reflexivity].
    cbn [length Nat.leb forallb andb]. now rewrite advance_0.
  - rewrite run_rep_0S, run_cls, run_eol.
    destruct (rest st) as [|x xs] eqn:Hr.
    + cbn [or_else length Nat.leb forallb andb]. now rewrite advance_0.
    + rewrite or_else_None_r.
      change (cls_match false (CChar 48%N) x) with (N.eqb 48 x).
      cbn [length forallb].
      change (S (length xs) <=? S b) with (length xs <=? b).
      destruct (N.eqb 48 x); [|now rewrite andb_false_r].
      rewrite IH. cbn [rest andb].
      destruct ((length xs <=? b) && forallb (N.eqb 48) xs); [|reflexivity].
      now rewrite (advance_S x xs st (length xs) Hr).
Qed.

Lemma run_zeros1 st k :
  run false (Rep 1 None (Cls (CChar 48%N))) st
      (fun st1 => run false Eol st1 k)
  = if zeros (rest st) then k (advance (length (rest st)) st) else None.
Proof.
  change (run false (Rep 1 None (Cls (CChar 48%N))) st
            (fun st1 => run false Eol st1 k))
    with (run false (Rep 1 (Some (S (length (rest st)))) (Cls (CChar 48%N))) st
            (fun st1 => run false Eol st1 k)).
  rewrite run_rep_SS, run_cls.
  destruct (rest st) as [|x xs] eqn:Hr; [reflexivity|].
  change (cls_match false (CChar 48%N) x) with (N.eqb 48 x).
  cbn [zeros forallb length].
  destruct (N.eqb 48 x); [|reflexivity].
  rewrite run_zeros_eol. cbn [rest andb].
  replace (length xs <=? S (length xs)) with true
    by (symmetry; apply Nat.leb_le; lia).
  cbn [andb]. destruct (forallb (N.eqb 48) xs); [|reflexivity].
  now rewrite (advance_S x xs st (length xs) Hr).
Qed.

Lemma run_tail st :
  run false trailingZerosRegex st Some
  = if tail_here (rest st) then Some (advance (length (rest st)) st) else None.
Proof.
  unfold trailingZerosRegex. rewrite run_seq, run_opt, run_cls.
  rewrite run_seq, run_zeros1.
  destruct (rest st) as [|c z] eqn:Hr; [reflexivity|].
  change (cls_match false (CChar 46%N) c) with (N.eqb 46 c).
  unfold tail_here.
  destruct (N.eqb 46 c) eqn:Hc.
  - apply N.eqb_eq in Hc. subst c.
    rewrite run_seq, run_zeros1. cbn [rest andb orb].
    replace (zeros (46%N :: z)) with false by reflexivity.
    rewrite orb_false_r. destruct (zeros z); [|reflexivity].
    cbn [or_else]. now rewrite (advance_S 46%N z st (length z) Hr).
  - reflexivity.
Qed.

Lemma exec_from_tail s : forall i,
  exec_from false trailingZerosRegex i s
  = match find_tail s with
    | Some j => Some {| index := i + j; whole := skipn j s; groups := [] |}
    | None => None
    end.
Proof.
  induction s as [|c s IH]; intros i.
  - cbn [exec_from]. now rewrite run_tail.
  - cbn [exec_from find_tail]. rewrite run_tail. cbn [rest].
    destruct (tail_here (c :: s)).
    + cbn [advance pos caps skipn]. rewrite Nat.add_0_r.
      replace (i + length (c :: s) - i) with (length (c :: s)) by lia.
      now rewrite firstn_all.
    + rewrite IH. destruct (find_tail s) as [j|]; [|reflexivity].
      cbn [option_map skipn]. now rewrite Nat.add_succ_r.
Qed.

(** [s.replace(/\.?0+$/, '')] *)
Lemma replace_tail s :
  replace_re false trailingZerosRegex [] s = strip_zeros s.
Proof.
  unfold replace_re, match_, strip_zeros. rewrite exec_from_tail.
  destruct (find_tail s) as [j|]; [|reflexivity].
  cbn [index whole Nat.add app].
  rewrite skipn_all2 by (rewrite length_skipn; lia).
  apply app_nil_r.
Qed.

End ZeroTail.

(** The read loop of [connect] in part_000. *)
Module VirtualScaleTester.
Import JS Regex Numbers Decoder Panel.

(** The arrow of the log entries, U+2192. *)
Definition arrow : jsstring := [8594%N].

(** [`[OK ${r.source}] RAW='${raw}' → ${r.valueStr}`] *)
Definition ok_entry (raw : jsstring) (r : Reading) : jsstring :=
  js "[OK " ++ source r ++ js "] RAW='" ++ raw ++ js "' " ++ arrow ++ js " "
  ++ valueStr r.

(** The entry for a line that neither parser takes; its e with an acute
    accent is U+00E9. *)
Definition ignored_entry (raw : jsstring) : jsstring :=
  js "[IGNORADO] RAW='" ++ raw ++ js "' (no coincide con L1001 ni gen"
  ++ [233%N] ++ js "rico)".

Section Loop.

Variable SCALE_FACTOR : number.

Definition on_line (value : jsstring) (p : Panel) : Panel :=
  let raw := trim value in
  match raw with
  | [] => p
  | _ :: _ =>
      let p := setRawLine raw p in
      match parseLatorre5 SCALE_FACTOR raw with
      | Some lat =>
          let p := setWeight (valueStr lat) p in
          setLog 120 (ok_entry raw lat) p
      | None =>
          match parseGeneric raw with
          | Some gen =>
              let p := setWeight (valueStr gen) p in
              setLog 120 (ok_entry raw gen) p
          | None => setLog 120 (ignored_entry raw) p
          end
      end
  end.

Definition read_lines (lines : list jsstring) (p : Panel) : Panel :=
  fold_left (fun p value => on_line value p) lines p.

End Loop.

End VirtualScaleTester.

(** In the read loop of part_000, with the scale factor 0.001 of the file: a
    line made of a status letter, an optional space and five digits shows the
    digits as kilograms in the shortest way, that is 0 for 00000 and
    otherwise the text with three decimals cut where only zeros follow, a
    point before them included; the log gets one entry with the status letter
    in upper case, and holds at most 120 entries.  A line without any digit
    changes the raw line shown, leaves the weight and logs one entry as
    ignored. *)
Theorem VirtualScaleTester_shows_the_shortest_text :
  forall (value : jsstring) (p : Panel.Panel),
    let raw := Regex.trim value in
    let on_line := VirtualScaleTester.on_line Decoder.SCALE_FACTOR_file in
    (forall L ds,
        Shapes.flagged_line (js "PNTBR") raw = Some (L, ds) ->
        let n := Numbers.digits_value ds in
        let text := if (n =? 0)%Z then js "0"
                    else ZeroTail.strip_zeros (FixedPoint.fixed3_text n) in
        on_line value p
        = {| Panel.status := Panel.status p;
             Panel.weight := text;
             Panel.rawLine := raw;
             Panel.log :=
               firstn 120
                 ((js "[OK L1001(" ++ [Regex.canonicalize true L]
                   ++ js ")] RAW='" ++ raw ++ js "' "
                   ++ VirtualScaleTester.arrow ++ js " " ++ text)
                  :: Panel.log p);
             Panel.portInfo := Panel.portInfo p |})
    /\ (raw <> [] ->
        forallb (fun c => negb (Regex.isDigit c)) raw = true ->
        on_line value p
        = {| Panel.status := Panel.status p;
             Panel.weight := Panel.weight p;
             Panel.rawLine := raw;
             Panel.log :=
               firstn 120
                 (VirtualScaleTester.ignored_entry raw :: Panel.log p);
             Panel.portInfo := Panel.portInfo p |}).
Proof.
  intros value p raw on_line. subst on_line raw.
  unfold VirtualScaleTester.on_line.
  assert (Htrim : Regex.trim (Regex.trim value) = Regex.trim value)
    by apply TrimProps.trim_trim.
  set (raw := Regex.trim value) in *.
  split.
  - intros L ds Hf. set (n := Numbers.digits_value ds).
    pose proof (DecoderFacts.flagged_line_digits _ _ _ _ Hf) as Hd.
    destruct (FixedPoint.five_digit_readings _ (ReaderFacts.digits5_below ds Hd))
      as (Hshow & _ & Heq).
    unfold Decoder.parseLatorre5. rewrite Htrim, Shapes.match_latorre5.
    pose proof (StatusCodes.flagged_space_dead _
                  (StatusCodes.trim_starts value)) as Hdead.
    fold raw in Hdead. rewrite Hdead, Hf.
    cbn [Regex.group Regex.groups Regex.assoc Nat.eqb].
    rewrite (NumberFacts.parseInt10_digits ds
               (DecoderFacts.all_n_nonempty _ _ _ Hd)
               (DecoderFacts.all_n_forallb _ _ _ Hd)).
    destruct (NumberFacts.all_n_digits_finite 5 ds) as [_ Hnan];
      [lia | exact Hd |].
    rewrite Hnan.
    change Decoder.SCALE_FACTOR_file with 0.001%float.
    rewrite Heq, Hshow, ZeroTail.replace_tail. fold n.
    replace (Numbers.toString_integer (Numbers.of_Z n))
      with (if (n =? 0)%Z then js "0"
            else Numbers.toString_integer (Numbers.of_Z n)).
    2:{ destruct (n =? 0)%Z eqn:E; [|reflexivity].
        apply Z.eqb_eq in E. now rewrite E. }
    clearbody raw. destruct raw as [|c r]; [discriminate Hf|].
    destruct (n =? 0)%Z; reflexivity.
  - intros Hne Hnd.
    assert (Hflag : Shapes.flagged_line (js "PN TBR") raw = None).
    { destruct (Shapes.flagged_line (js "PN TBR") raw) as [[L ds]|] eqn:E;
        [|reflexivity].
      apply DecoderShape.flagged_line_has_digit in E.
      unfold GenericProps.no_digit in E. congruence. }
    assert (Hgen : Shapes.first_number raw = None)
      by now apply DecoderShape.first_number_none.
    unfold Decoder.parseLatorre5, Decoder.parseGeneric,
      Decoder.genericNumberRegex.
    rewrite Htrim, Shapes.match_latorre5, Hflag, Shapes.match_weight, Hgen.
    clearbody raw. destruct raw as [|c r]; [contradiction|]. reflexivity.
Qed.

Example VirtualScaleTester_lines :
  let shown line :=
    Panel.weight
      (VirtualScaleTester.on_line Decoder.SCALE_FACTOR_file line
         {| Panel.status := js "Conectado"; Panel.weight := js "-";
            Panel.rawLine := js "-"; Panel.log := [];
            Panel.portInfo := [] |}) in
  shown (js "P 00120") = js "0.12"
  /\ shown (js "n25000") = js "25"
  /\ shown (js "T 10000") = js "10"
  /\ shown (js "B 00000") = js "0"
  /\ shown (js "R 12345") = js "12.345"
  /\ shown (js "hola") = js "-".
Proof. repeat split; vm_compute; reflexivity. Qed.

(** ** The second front end of part_002: [parseWeight] after a clean-up *)

(** [s.replace(r, b)] for a regular expression with the [g] flag and a
    replacement text without [$] patterns: every match from left to right,
    each search starting where the match before ended, one code unit further
    after an empty match. *)
Module GlobalReplace.
Import JS Regex.

(** [s] is the text from index [i] on. *)
Fixpoint replace_all_from (fuel : nat) (ic : bool) (r : re) (b : jsstring)
  (i : nat) (s : jsstring) : jsstring :=
  match fuel with
  | O => s
  | S fuel' =>
      match exec_from ic r i s with
      | None => s
      | Some m =>
          let k := index m - i in
          let e := length (whole m) in
          firstn k s ++ b ++
          (if Nat.eqb e 0
           then match skipn k s with
                | [] => []
                | c :: t =>
                    c :: replace_all_from fuel' ic r b (S (index m)) t
                end
           else replace_all_from fuel' ic r b (index m + e) (skipn (k + e) s))
      end
  end.

Definition replace_all (ic : bool) (r : re) (b s : jsstring) : jsstring :=
  replace_all_from (S (length s)) ic r b 0 s.

End GlobalReplace.

Module ScaleAutoDetect.
Import JS Regex Decoder GlobalReplace.

(** [/\s+/g] *)
Definition whiteSpaceRunRegex : re := Rep 1 None (Cls CSpace).

Definition parseWeight (raw : jsstring) : option jsstring :=
  let s := trim (replace_all false whiteSpaceRunRegex (js " ") raw) in
  match match_ false weightRegex s with
  | Some m =>
      match group 1 m with
      | Some m1 => Some (replace (js ",") (js ".") m1)
      | None => None
      end
  | None => None
  end.

End ScaleAutoDetect.

Example replace_all_white_space_runs :
  GlobalReplace.replace_all false ScaleAutoDetect.whiteSpaceRunRegex (js " ")
    (9%N :: js "ST,GS   +  12,5" ++ [9%N; 32%N] ++ js "kg" ++ [13%N; 10%N])
  = js " ST,GS + 12,5 kg "
  /\ GlobalReplace.replace_all false
       (Regex.Rep 0 None (Regex.Cls (Regex.CChar 97%N))) (js "-") (js "baac")
     = js "-b--c-".
Proof. split; reflexivity. Qed.

Module WhiteSpaceRuns.
Import JS Regex Decoder RegexFacts Shapes NumberFacts GlobalReplace.
Local Open Scope re_scope.

(** The text ends here or goes on with white space. *)
Definition stop (r : jsstring) : bool :=
  match r with
  | [] => true
  | w :: _ => isWhiteSpace w
  end.

(** The first decimal of a text. *)
Definition number_of (s : jsstring) : option jsstring :=
  option_map snd (first_number s).

Lemma ws_not_digit w : isWhiteSpace w = true -> isDigit w = false.
Proof.
  intros H. destruct (isDigit w) eqn:E; [|reflexivity].
  apply isDigit_not_ws in E. congruence.
Qed.

Lemma ws_not_sign w : isWhiteSpace w = true -> is_sign w = false.
Proof.
  intros H. destruct (is_sign w) eqn:E; [|reflexivity].
  unfold is_sign in E. apply orb_prop in E as [E|E];
    apply N.eqb_eq in E; subst w; discriminate H.
Qed.

Lemma ws_not_separator w : isWhiteSpace w = true -> is_separator w = false.
Proof.
  intros H. destruct (is_separator w) eqn:E; [|reflexivity].
  unfold is_separator in E. apply orb_prop in E as [E|E];
    apply N.eqb_eq in E; subst w; discriminate H.
Qed.

Lemma take_digits_stop n : forall a r,
  stop r = true -> take isDigit n (a ++ r) = take isDigit n a.
Proof.
  induction n as [|n IH]; intros a r Hr.
  - now destruct a, r.
  - destruct a as [|c a].
    + cbn [app]. destruct r as [|w r]; [reflexivity|].
      cbn [take]. now rewrite (ws_not_digit w Hr).
    + cbn [app take]. destruct (isDigit c); [|reflexivity].
      now rewrite IH.
Qed.

Lemma fraction_at_stop a r r' :
  stop r = true -> stop r' = true ->
  fraction_at (a ++ r) = fraction_at (a ++ r').
Proof.
  intros Hr Hr'. destruct a as [|c a].
  - cbn [app].
    assert (E : forall t, stop t = true -> fraction_at t = []).
    { intros [|w t] Ht; [reflexivity|]. cbn [fraction_at].
      now rewrite (ws_not_separator w Ht). }
    now rewrite (E r Hr), (E r' Hr').
  - cbn [app fraction_at].
    now rewrite (take_digits_stop 3 a r Hr), (take_digits_stop 3 a r' Hr').
Qed.

Lemma unsigned_at_stop a r r' :
  stop r = true -> stop r' = true ->
  unsigned_at (a ++ r) = unsigned_at (a ++ r').
Proof.
  intros Hr Hr'. unfold unsigned_at.
  rewrite (take_digits_stop 6 a r Hr), (take_digits_stop 6 a r' Hr').
  pose proof (take_prefix isDigit 6 a) as Hp.
  destruct (take isDigit 6 a) as [|d ip] eqn:E; [reflexivity|].
  assert (Hl : length (d :: ip) <= length a).
  { rewrite <- Hp. rewrite length_firstn. lia. }
  rewrite !skipn_app.
  replace (length (d :: ip) - length a) with 0 by lia.
  cbn [skipn].
  now rewrite (fraction_at_stop _ r r' Hr Hr').
Qed.

Lemma number_at_halt t : stop t = true -> number_at t = None.
Proof.
  destruct t as [|w t]; intros Ht; [reflexivity|]. cbn [number_at].
  rewrite (ws_not_sign w Ht). unfold unsigned_at. cbn [take].
  now rewrite (ws_not_digit w Ht).
Qed.

Lemma number_at_stop a r r' :
  stop r = true -> stop r' = true ->
  number_at (a ++ r) = number_at (a ++ r').
Proof.
  intros Hr Hr'. destruct a as [|c a].
  - cbn [app]. now rewrite (number_at_halt r Hr), (number_at_halt r' Hr').
  - cbn [app number_at]. destruct (is_sign c).
    + now rewrite (unsigned_at_stop a r r' Hr Hr').
    + exact (unsigned_at_stop (c :: a) r r' Hr Hr').
Qed.

Lemma number_of_cons c s :
  number_of (c :: s)
  = match number_at (c :: s) with
    | Some n => Some n
    | None => number_of s
    end.
Proof.
  unfold number_of. cbn [first_number].
  destruct (number_at (c :: s)); [reflexivity|].
  now destruct (first_number s) as [[i n]|].
Qed.

Lemma number_of_ws w s :
  isWhiteSpace w = true -> number_of (w :: s) = number_of s.
Proof.
  intros Hw. rewrite number_of_cons.
  now rewrite (number_at_halt (w :: s) Hw).
Qed.

Lemma number_of_lead a s :
  forallb isWhiteSpace a = true -> number_of (a ++ s) = number_of s.
Proof.
  induction a as [|w a IH]; [reflexivity|]. cbn [forallb app].
  intros H. apply andb_prop in H as [Hw Ha].
  rewrite (number_of_ws w _ Hw). now apply IH.
Qed.

(** What follows a stretch of text matters to the first decimal only through
    the first decimal of what follows, when that starts with white space. *)
Lemma number_of_block a r r' :
  stop r = true -> stop r' = true -> number_of r = number_of r' ->
  number_of (a ++ r) = number_of (a ++ r').
Proof.
  intros Hr Hr' E. induction a as [|c a IH]; [exact E|].
  cbn [app]. rewrite !number_of_cons.
  change (c :: a ++ r) with ((c :: a) ++ r).
  change (c :: a ++ r') with ((c :: a) ++ r').
  now rewrite (number_at_stop (c :: a) r r' Hr Hr'), IH.
Qed.

Lemma number_of_trail x b :
  forallb isWhiteSpace b = true -> number_of (x ++ b) = number_of x.
Proof.
  intros Hb. rewrite <- (app_nil_r x) at 2.
  apply number_of_block; [|reflexivity|].
  - destruct b as [|w b]; [reflexivity|]. cbn [forallb] in Hb.
    now apply andb_prop in Hb as [Hw _].
  - rewrite <- (app_nil_r b). now rewrite (number_of_lead b [] Hb).
Qed.

Lemma number_of_trim s : number_of (trim s) = number_of s.
Proof.
  destruct (TrimProps.trim_decompose s) as (a & b & Hs & Ha & Hb).
  rewrite Hs at 2.
  now rewrite (number_of_lead a _ Ha), (number_of_trail _ b Hb).
Qed.

Local Abbreviation wsRun := ScaleAutoDetect.whiteSpaceRunRegex.

Lemma run_ws st :
  run false wsRun st Some
  = match rest st with
    | w :: t =>
        if isWhiteSpace w
        then Some (advance
                     (S (length (take isWhiteSpace (S (length t)) t))) st)
        else None
    | [] => None
    end.
Proof.
  change (run false wsRun st Some)
    with (run false (Rep 1 (Some (S (length (rest st)))) (Cls CSpace)) st Some).
  rewrite run_rep_SS, run_cls.
  destruct (rest st) as [|w t] eqn:Hr; [reflexivity|].
  change (cls_match false CSpace w) with (isWhiteSpace w).
  destruct (isWhiteSpace w); [|reflexivity].
  rewrite run_rep_greedy by discriminate. cbn [rest length].
  change (cls_match false CSpace) with isWhiteSpace.
  now rewrite (advance_S w t st _ Hr).
Qed.

Definition no_ws (a : jsstring) : bool :=
  forallb (fun c => negb (isWhiteSpace c)) a.

Lemma exec_ws_none a : forall i,
  no_ws a = true -> exec_from false wsRun i a = None.
Proof.
  induction a as [|c a IH]; intros i Ha.
  - cbn [exec_from]. now rewrite run_ws.
  - cbn [no_ws forallb] in Ha. apply andb_prop in Ha as [Hc Ha].
    apply negb_true_iff in Hc.
    cbn [exec_from]. rewrite run_ws. cbn [rest]. rewrite Hc.
    now apply IH.
Qed.

Lemma exec_ws_some a w t : forall i,
  no_ws a = true -> isWhiteSpace w = true ->
  exec_from false wsRun i (a ++ w :: t)
  = Some {| index := i + length a;
            whole := w :: take isWhiteSpace (S (length t)) t;
            groups := [] |}.
Proof.
  induction a as [|c a IH]; intros i Ha Hw.
  - cbn [app exec_from]. rewrite run_ws. cbn [rest]. rewrite Hw.
    cbn [advance pos caps length]. rewrite Nat.add_0_r.
    replace (i + S (length (take isWhiteSpace (S (length t)) t)) - i)
      with (S (length (take isWhiteSpace (S (length t)) t))) by lia.
    cbn [firstn]. now rewrite take_prefix.
  - cbn [no_ws forallb] in Ha. apply andb_prop in Ha as [Hc Ha].
    apply negb_true_iff in Hc.
    cbn [app exec_from]. rewrite run_ws. cbn [rest]. rewrite Hc.
    rewrite (IH (S i) Ha Hw). cbn [length]. now rewrite Nat.add_succ_r.
Qed.

Lemma block_split s :
  exists a r, s = a ++ r /\ no_ws a = true /\ stop r = true.
Proof.
  induction s as [|c s (a & r & Hs & Ha & Hr)]; [now exists [], []|].
  destruct (isWhiteSpace c) eqn:E.
  - now exists [], (c :: s).
  - exists (c :: a), r. cbn [app no_ws forallb]. rewrite E.
    repeat split; [now f_equal | exact Ha | exact Hr].
Qed.

Lemma number_of_skip_run n : forall t,
  number_of (skipn (length (take isWhiteSpace n t)) t) = number_of t.
Proof.
  induction n as [|n IH]; intros t; [now destruct t|].
  destruct t as [|c t]; [reflexivity|]. cbn [take].
  destruct (isWhiteSpace c) eqn:E; [|reflexivity].
  cbn [length skipn]. now rewrite IH, (number_of_ws c t E).
Qed.

(** Putting one space for every run of white space moves no decimal. *)
Lemma number_of_replace_all fuel : forall s i,
  length s < fuel ->
  number_of (replace_all_from fuel false wsRun (js " ") i s) = number_of s.
Proof.
  induction fuel as [|fuel IH]; intros s i Hl; [lia|].
  destruct (block_split s) as (a & r & -> & Ha & Hr).
  destruct r as [|w t].
  - rewrite app_nil_r. cbn [replace_all_from].
    now rewrite (exec_ws_none a i Ha).
  - cbn [replace_all_from]. rewrite (exec_ws_some a w t i Ha Hr).
    cbn [index whole length Nat.eqb].
    replace (i + length a - i) with (length a) by lia.
    rewrite firstn_app, firstn_all, Nat.sub_diag. cbn [firstn].
    rewrite app_nil_r.
    rewrite skipn_app.
    rewrite skipn_all2 by lia.
    replace (length a + S (length (take isWhiteSpace (S (length t)) t))
             - length a)
      with (S (length (take isWhiteSpace (S (length t)) t))) by lia.
    cbn [skipn app].
    apply number_of_block; [reflexivity | exact Hr |].
    change (js " " ++ ?x) with (32%N :: x).
    rewrite (number_of_ws 32%N _ eq_refl), (number_of_ws w t Hr).
    rewrite IH.
    + apply number_of_skip_run.
    + rewrite length_skipn. rewrite length_app in Hl. cbn [length] in Hl. lia.
Qed.

End WhiteSpaceRuns.

(** The [parseWeight] of the second front end of part_002, which first puts
    one space for every run of white space, gives on every line what the
    [parseWeight] of the other front ends gives: the clean-up changes no
    result. *)
Theorem parseWeight_cleanup_changes_nothing :
  forall raw : jsstring,
    ScaleAutoDetect.parseWeight raw = Decoder.parseWeight raw.
Proof.
  intros raw. rewrite DecoderFacts.parseWeight_eq.
  unfold ScaleAutoDetect.parseWeight. rewrite Shapes.match_weight.
  pose proof (WhiteSpaceRuns.number_of_trim raw) as E1.
  pose proof (WhiteSpaceRuns.number_of_trim
                (GlobalReplace.replace_all false
                   ScaleAutoDetect.whiteSpaceRunRegex (js " ") raw)) as E2.
  unfold GlobalReplace.replace_all in *.
  rewrite (WhiteSpaceRuns.number_of_replace_all _ raw 0 (Nat.lt_succ_diag_r _))
    in E2.
  rewrite <- E1 in E2. unfold WhiteSpaceRuns.number_of in E2.
  destruct (Shapes.first_number (Regex.trim raw)) as [[j n]|];
    destruct (Shapes.first_number _) as [[j' n']|];
    cbn [option_map snd Regex.group Regex.groups Regex.assoc Nat.eqb] in *;
    congruence.
Qed.

(** ** The framer gives back the lines that were sent *)

Module FramerRoundTrip.
Import LineFramer.

(** The text of lines, each ended by the delimiter. *)
Definition terminated (D : jsstring) (lines : list jsstring) : jsstring :=
  concat (map (fun line => line ++ D) lines).

(** In the line with its delimiter, the delimiter first occurs at the end of
    the line. *)
Definition ends_line (D line : jsstring) : Prop :=
  indexOf D (line ++ D) = Some (length line).

Lemma split_terminated c sep lines partial :
  Forall (ends_line (c :: sep)) lines ->
  indexOf (c :: sep) partial = None ->
  split_from c sep (terminated (c :: sep) lines ++ partial)
  = lines ++ [partial].
Proof.
  intros Hl Hp. induction Hl as [|line lines Hline _ IH].
  - cbn [terminated map concat app]. rewrite split_from_eq. now rewrite Hp.
  - unfold terminated in *. cbn [map concat]. rewrite <- !app_assoc.
    rewrite split_from_eq.
    set (rest := concat (map (fun l => l ++ c :: sep) lines) ++ partial) in *.
    rewrite (app_assoc line (c :: sep) rest).
    rewrite (indexOf_app _ _ rest _ Hline).
    rewrite <- app_assoc.
    rewrite firstn_app, firstn_all, Nat.sub_diag. cbn [firstn].
    rewrite app_nil_r.
    rewrite app_assoc, skipn_app, <- length_app.
    rewrite skipn_all, Nat.sub_diag. cbn [skipn app].
    now rewrite IH.
Qed.

Lemma feed_terminated c sep chunks lines partial :
  Forall (ends_line (c :: sep)) lines ->
  indexOf (c :: sep) partial = None ->
  concat chunks = terminated (c :: sep) lines ++ partial ->
  feed chunks (makeLineTransformer (c :: sep))
  = (lines, {| delimiter := c :: sep; buffer := partial |}).
Proof.
  intros Hl Hp Hc. rewrite FramerProps.feed_fresh, Hc.
  unfold segs, tail. cbn [split].
  rewrite (split_terminated c sep lines partial Hl Hp).
  now rewrite removelast_last, last_last.
Qed.

(** A line without the delimiter ends at a delimiter of one code unit. *)
Lemma ends_line_char c line :
  includes line [c] = false -> ends_line [c] line.
Proof.
  unfold includes, ends_line. induction line as [|x line IH].
  - intros _. cbn [app length indexOf startsWith]. now rewrite N.eqb_refl.
  - cbn [app length indexOf startsWith].
    destruct (N.eqb c x); cbn [andb]; [now destruct line|].
    destruct line as [|y line]; cbn [andb].
    + intros _. cbn [app indexOf startsWith]. now rewrite N.eqb_refl.
    + intros H. rewrite IH; [reflexivity|].
      destruct (indexOf [c] (y :: line)); [discriminate H | reflexivity].
Qed.

End FramerRoundTrip.

(** The framer gives back the lines that were sent.  When the text received
    so far is a sequence of lines, each followed by the delimiter, and then a
    part without delimiter, then however the text was cut into chunks the
    lines enqueued are exactly those lines, the part is what the buffer
    holds, and at the end of the stream [flush] adds the part if it is not
    empty.  A line qualifies when the delimiter first occurs, in the line
    followed by the delimiter, at the end of the line. *)
Theorem LineFramer_recovers_terminated_lines :
  forall (c : char) (sep : jsstring) (chunks lines : list jsstring)
         (partial : jsstring),
    let D := c :: sep in
    Forall (fun line => indexOf D (line ++ D) = Some (length line)) lines ->
    indexOf D partial = None ->
    concat chunks = concat (map (fun line => line ++ D) lines) ++ partial ->
    let fed := LineFramer.feed chunks (LineFramer.makeLineTransformer D) in
    fst fed = lines
    /\ LineFramer.buffer (snd fed) = partial
    /\ LineFramer.pipeThrough chunks (LineFramer.makeLineTransformer D)
       = lines ++ match partial with [] => [] | _ :: _ => [partial] end.
Proof.
  intros c sep chunks lines partial D Hl Hp Hc fed.
  pose proof (FramerRoundTrip.feed_terminated c sep chunks lines partial
                Hl Hp Hc) as H.
  unfold LineFramer.pipeThrough. subst fed. fold D in H. rewrite H.
  cbn [fst snd LineFramer.buffer]. repeat split.
Qed.

(** Two telegrams and the start of a third, cut inside a telegram and before
    a delimiter. *)
Lemma LineFramer_recovers_terminated_lines_witness :
  let chunks := [js "P 001"; js "20"; CR :: js "N 00500" ++ CR :: js "T 0"] in
  let fed := LineFramer.feed chunks (LineFramer.makeLineTransformer [CR]) in
  fst fed = [js "P 00120"; js "N 00500"]
  /\ LineFramer.buffer (snd fed) = js "T 0"
  /\ LineFramer.pipeThrough chunks (LineFramer.makeLineTransformer [CR])
     = [js "P 00120"; js "N 00500"; js "T 0"].
Proof.
  apply (LineFramer_recovers_terminated_lines CR []
           [js "P 001"; js "20"; CR :: js "N 00500" ++ CR :: js "T 0"]
           [js "P 00120"; js "N 00500"] (js "T 0"));
    [repeat constructor | reflexivity | reflexivity].
Defined.

(** ** From the chunks of the port to the panel: test4.tsx *)

(** The pipeline of [connect] in test4.tsx: the text chunks of the port go
    through the line transformer for [DELIM], and the read loop takes the
    lines it has enqueued. *)
Module LatorreReaderStream.
Import JS LineFramer Panel.

Definition DELIM : jsstring := [CR].

Definition received (chunks : list jsstring) (p : Panel) : Panel :=
  LatorreReader.read_lines (fst (feed chunks (makeLineTransformer DELIM))) p.

(** A telegram: D or d, then six digits. *)
Definition is_telegram (t : jsstring) : bool :=
  match Shapes.prefixed_line t with Some _ => true | None => false end.

(** The log entry of a telegram. *)
Definition entry (t : jsstring) : jsstring :=
  js "[LATORRE] RAW='" ++ t ++ js "' -> "
  ++ FixedPoint.fixed3_text (Numbers.digits_value (tl t)) ++ js " kg".

End LatorreReaderStream.

Module StreamFacts.
Import JS Regex Numbers Decoder Shapes NumberFacts DecoderFacts Panel.
Import LatorreReaderStream.

Lemma telegram_parts t :
  is_telegram t = true ->
  exists L ds, t = L :: ds /\ (L = 68 \/ L = 100)%N
               /\ all_n isDigit 6 ds = true /\ prefixed_line t = Some ds.
Proof.
  unfold is_telegram, prefixed_line. destruct t as [|L ds]; [discriminate|].
  destruct (N.eqb (canonicalize true 68%N) (canonicalize true L)) eqn:EL;
    [|discriminate].
  destruct (all_n isDigit 6 ds) eqn:Ed; [|discriminate].
  intros _. exists L, ds.
  split; [reflexivity|]. split; [|split; [exact Ed | reflexivity]].
  apply (GenericProps.canonicalize_letter 68%N L) in EL; [exact EL | lia].
Qed.

Lemma telegram_trim t : is_telegram t = true -> trim t = t.
Proof.
  intros H. destruct (telegram_parts t H) as (L & ds & -> & HL & Hd & _).
  pose proof (all_n_nonempty _ _ _ Hd) as Hne.
  pose proof (all_n_forallb _ _ _ Hd) as Hfa.
  apply trim_id; [destruct HL; subst; reflexivity|].
  change (L :: ds) with ([L] ++ ds).
  rewrite (LineFramer.last_app_r _ ds L Hne).
  apply isDigit_not_ws. now apply DecoderProps.forallb_last.
Qed.

Lemma indexOf_char_none c s :
  forallb (fun x => negb (N.eqb c x)) s = true -> indexOf [c] s = None.
Proof.
  induction s as [|x s IH]; [reflexivity|]. cbn [forallb].
  intros H. apply andb_prop in H as [Hx Hs]. apply negb_true_iff in Hx.
  cbn [indexOf startsWith]. rewrite Hx. cbn [andb].
  now rewrite (IH Hs).
Qed.

Lemma telegram_no_CR t : is_telegram t = true -> includes t [CR] = false.
Proof.
  intros H. destruct (telegram_parts t H) as (L & ds & -> & HL & Hd & _).
  unfold includes. rewrite indexOf_char_none; [reflexivity|].
  cbn [forallb]. apply andb_true_intro. split.
  - destruct HL; subst; reflexivity.
  - pose proof (all_n_forallb _ _ _ Hd) as Hfa.
    apply forallb_forall. intros x Hx.
    rewrite forallb_forall in Hfa. specialize (Hfa x Hx).
    apply isDigit_range in Hfa. apply negb_true_iff, N.eqb_neq.
    unfold CR. lia.
Qed.

Lemma on_line_telegram t p :
  is_telegram t = true ->
  LatorreReader.on_line t p
  = {| status := status p;
       weight := FixedPoint.fixed3_text (digits_value (tl t));
       rawLine := t;
       log := firstn 200 (entry t :: log p);
       portInfo := portInfo p |}.
Proof.
  intros H. destruct (telegram_parts t H) as (L & ds & -> & HL & Hd & Hp).
  unfold LatorreReader.on_line.
  pose proof (ReaderFacts.parseLaTorre_trimmed (L :: ds)) as Hparse.
  rewrite (telegram_trim _ H) in *. rewrite Hparse, Hp.
  cbn [lt_ok lt_kg].
  destruct (FixedPoint.steady_readings _ (SteadyLoad.digits_below_million ds Hd))
    as (Hshow & _).
  cbv zeta in Hshow. rewrite Hshow. reflexivity.
Qed.

Lemma firstn_cons_firstn {A : Type} (k : nat) (x : A) (l : list A) :
  firstn k (x :: firstn k l) = firstn k (x :: l).
Proof.
  destruct k as [|k]; [reflexivity|]. rewrite !firstn_cons. f_equal.
  rewrite firstn_firstn. f_equal. lia.
Qed.

Lemma read_lines_telegrams sent : forall t p,
  Forall (fun t => is_telegram t = true) (sent ++ [t]) ->
  LatorreReader.read_lines (sent ++ [t]) p
  = {| status := status p;
       weight := FixedPoint.fixed3_text (digits_value (tl t));
       rawLine := t;
       log := firstn 200 (rev (map entry (sent ++ [t])) ++ log p);
       portInfo := portInfo p |}.
Proof.
  induction sent as [|s sent IH] using rev_ind; intros t p Hall.
  - apply Forall_inv in Hall. cbn [app LatorreReader.read_lines fold_left].
    now rewrite (on_line_telegram t p Hall).
  - apply Forall_app in Hall as [Hsent Ht]. apply Forall_inv in Ht.
    unfold LatorreReader.read_lines in *. rewrite fold_left_app.
    cbn [fold_left]. rewrite (IH s p Hsent).
    rewrite (on_line_telegram t _ Ht). cbn [status weight rawLine log portInfo].
    rewrite firstn_cons_firstn.
    rewrite (map_app entry (sent ++ [s]) [t]), rev_app_distr.
    reflexivity.
Qed.

End StreamFacts.

(** From the port to the panel in test4.tsx.  When the text received so far
    is a sequence of telegrams (D or d and six digits), each followed by CR,
    and then a part without CR, then however the port cut the text into
    chunks the panel shows the last telegram as the raw line and its digits
    as kilograms with three decimals, and the log holds one entry for every
    telegram, the latest first, cut to 200 entries. *)
Theorem LatorreReader_shows_the_last_telegram :
  forall (chunks sent : list jsstring) (t partial : jsstring)
         (p : Panel.Panel),
    Forall (fun t => LatorreReaderStream.is_telegram t = true) (sent ++ [t]) ->
    includes partial [CR] = false ->
    concat chunks = concat (map (fun t => t ++ [CR]) (sent ++ [t])) ++ partial ->
    LatorreReaderStream.received chunks p
    = {| Panel.status := Panel.status p;
         Panel.weight :=
           FixedPoint.fixed3_text (Numbers.digits_value (tl t));
         Panel.rawLine := t;
         Panel.log :=
           firstn 200
             (rev (map LatorreReaderStream.entry (sent ++ [t])) ++ Panel.log p);
         Panel.portInfo := Panel.portInfo p |}.
Proof.
  intros chunks sent t partial p Hall Hp Hc.
  unfold LatorreReaderStream.received, LatorreReaderStream.DELIM.
  rewrite (FramerRoundTrip.feed_terminated CR [] chunks (sent ++ [t]) partial).
  - cbn [fst]. now apply StreamFacts.read_lines_telegrams.
  - eapply Forall_impl; [|exact Hall]. intros a Ha.
    apply FramerRoundTrip.ends_line_char.
    now apply StreamFacts.telegram_no_CR.
  - unfold includes in Hp. now destruct (indexOf [CR] partial).
  - exact Hc.
Qed.

(** Two telegrams and the start of a third, cut inside a telegram. *)
Lemma LatorreReader_shows_the_last_telegram_witness :
  let p := LatorreReaderStream.received
             [js "D0255"; js "00" ++ CR :: js "d000120" ++ CR :: js "D00"]
             {| Panel.status := js "Conectado"; Panel.weight := js "-";
                Panel.rawLine := js "-"; Panel.log := [];
                Panel.portInfo := [] |} in
  Panel.weight p = js "0.120"
  /\ Panel.rawLine p = js "d000120"
  /\ Panel.log p = [js "[LATORRE] RAW='d000120' -> 0.120 kg";
                    js "[LATORRE] RAW='D025500' -> 25.500 kg"].
Proof.
  cbv zeta.
  rewrite (LatorreReader_shows_the_last_telegram
             [js "D0255"; js "00" ++ CR :: js "d000120" ++ CR :: js "D00"]
             [js "D025500"] (js "d000120") (js "D00"));
    [| repeat constructor | reflexivity | reflexivity].
  repeat split; reflexivity.
Defined.
